(** * IMDB-directory-renamer: a shallow embedding of [imdb-renamer.py]

    The development follows the source file top to bottom: the [CONFIG]
    table, the [retry] decorator, the name normalisers built on regular
    expressions, the catalogue access, the interactive prompt, the rename
    step and the [main] loop.

    Modelling conventions.
    - A Python [str] is a list of characters; characters are 8-bit and the
      character classes ([\d], [\w], [\s], [str.upper], ...) are the ASCII
      ones.  Text outside ASCII is outside the scope of the model.
    - Every regular expression of the source is written as a matcher: a
      function that, given the character before the current position (for
      [\b]) and the rest of the input, returns the length of the match that
      Python's backtracking search selects there.  [Re.sub] and
      [Re.search] are the scanning loops of the [re] module.
    - Code with effects (network, console, file system, log) threads an
      explicit [World]; exceptions are values of the [outcome] type.
    - [fallback_search_imdb_id] is defined by the source but never called;
      it is modelled on its own after the main loop, with an oracle for
      the answers of the web. *)

From Stdlib Require Import List Ascii String ZArith Lia Bool Arith.
From Stdlib Require Import Sorting.Sorted Sorting.Permutation.
From Stdlib Require DecimalString.
Import ListNotations.

Local Open Scope char_scope.
Local Open Scope string_scope.
Local Open Scope list_scope.

(** ** Strings *)

Definition str := list ascii.

Coercion list_ascii_of_string : string >-> list.

Module Py.

Definition ord (c : ascii) : nat := nat_of_ascii c.

Definition in_range (lo hi c : ascii) : bool :=
  (ord lo <=? ord c)%nat && (ord c <=? ord hi)%nat.

(** [\d] *)
Definition is_digit (c : ascii) : bool := in_range "0" "9" c.

Definition is_lower (c : ascii) : bool := in_range "a" "z" c.
Definition is_upper (c : ascii) : bool := in_range "A" "Z" c.

(** [\w] *)
Definition is_word (c : ascii) : bool :=
  is_digit c || is_lower c || is_upper c || Ascii.eqb c "_".

(** [\s], and the characters [str.strip] and [str.split] treat as blank:
    tab, line feed, vertical tab, form feed, carriage return, the four
    separators 0x1c-0x1f and space. *)
Definition is_space (c : ascii) : bool :=
  in_range "009" "013" c || in_range "028" "031" c || Ascii.eqb c " ".

(** [.] without DOTALL: anything but a line feed. *)
Definition is_dot (c : ascii) : bool := negb (Ascii.eqb c "010").

Definition upper_char (c : ascii) : ascii :=
  if is_lower c then ascii_of_nat (ord c - 32) else c.
Definition lower_char (c : ascii) : ascii :=
  if is_upper c then ascii_of_nat (ord c + 32) else c.

(** [s.upper()], [s.lower()] *)
Definition upper (s : str) : str := map upper_char s.
Definition lower (s : str) : str := map lower_char s.

Definition str_eqb (a b : str) : bool :=
  if list_eq_dec ascii_dec a b then true else false.

(** [s.lstrip()], [s.rstrip()], [s.strip()] *)
Fixpoint lstrip (s : str) : str :=
  match s with
  | c :: rest => if is_space c then lstrip rest else s
  | [] => []
  end.
Definition rstrip (s : str) : str := rev (lstrip (rev s)).
Definition strip (s : str) : str := rstrip (lstrip s).

(** [s.split()]: the maximal runs of non-blank characters.  [cur] is the
    word being read, in reverse. *)
Fixpoint split_from (cur : str) (s : str) : list str :=
  match s with
  | [] => match cur with [] => [] | _ => [rev cur] end
  | c :: rest =>
      if is_space c
      then match cur with
           | [] => split_from [] rest
           | _ => rev cur :: split_from [] rest
           end
      else split_from (c :: cur) rest
  end.
Definition split (s : str) : list str := split_from [] s.

(** [sep.join(words)] *)
Fixpoint join (sep : str) (words : list str) : str :=
  match words with
  | [] => []
  | [w] => w
  | w :: ws => w ++ sep ++ join sep ws
  end.

(** [s.isdigit()] *)
Definition isdigit (s : str) : bool :=
  match s with [] => false | _ => forallb is_digit s end.

(** [sub in s] *)
Fixpoint starts_with (p s : str) : bool :=
  match p, s with
  | [], _ => true
  | a :: p', b :: s' => Ascii.eqb a b && starts_with p' s'
  | _ :: _, [] => false
  end.
Fixpoint contains (sub s : str) : bool :=
  starts_with sub s ||
  match s with [] => false | _ :: rest => contains sub rest end.

(** [int(s)] on a string of decimal digits. *)
Definition digit_val (c : ascii) : Z := Z.of_nat (ord c - 48).
Definition int_of_digits (s : str) : Z :=
  fold_left (fun acc c => 10 * acc + digit_val c)%Z s 0%Z.

(** [int(s)] on a string of decimal digits as the interpreter converts
    it: CPython raises [ValueError] when the limit on the conversion
    ([sys.get_int_max_str_digits()], 4300 unless configured, 0 when
    switched off or absent) is exceeded by a string of more than 640
    digits, leading zeros counted.  [None] stands for that exception. *)
Definition int (max_str_digits : nat) (s : str) : option Z :=
  if (0 <? max_str_digits)%nat
     && (640 <? List.length s)%nat
     && (max_str_digits <? List.length s)%nat
  then None
  else Some (int_of_digits s).

(** [str(z)] *)
Definition str_of_int (z : Z) : str :=
  list_ascii_of_string (DecimalString.NilZero.string_of_int (Z.to_int z)).

End Py.

(** ** Regular expressions *)

Module Re.

(** A matcher receives the character before the position ([None] at the
    start of the input) and the remaining input; it answers the length of
    the match at that position, if any. *)
Definition matcher := option ascii -> str -> option nat.

Definition word_opt (c : option ascii) : bool :=
  match c with Some x => Py.is_word x | None => false end.

(** [\b] between [prev] and the head of [s]. *)
Definition word_boundary (prev : option ascii) (s : str) : bool :=
  xorb (word_opt prev) (word_opt (hd_error s)).

Definition last_of (prev : option ascii) (s : str) : option ascii :=
  match rev s with c :: _ => Some c | [] => prev end.

(** [re.sub(pattern, repl, s)]: scan left to right; where the pattern
    matches, emit [repl] and jump over the match; elsewhere copy the
    character.  [skip] counts the characters of the current match still
    to jump over.  No pattern of the program matches the empty string. *)
Fixpoint sub_from (m : matcher) (repl : str) (prev : option ascii)
         (skip : nat) (s : str) : str :=
  match s with
  | [] => []
  | c :: rest =>
      match skip with
      | S k => sub_from m repl (Some c) k rest
      | O =>
          match m prev s with
          | Some (S k) => repl ++ sub_from m repl (Some c) k rest
          | _ => c :: sub_from m repl (Some c) 0 rest
          end
      end
  end.
Definition sub (m : matcher) (repl s : str) : str := sub_from m repl None 0 s.

(** [re.search(pattern, s)]: the leftmost position with a match, as
    [(start, length)]. *)
Fixpoint search_from (m : matcher) (prev : option ascii) (i : nat)
         (s : str) : option (nat * nat) :=
  match m prev s with
  | Some n => Some (i, n)
  | None =>
      match s with
      | [] => None
      | c :: rest => search_from m (Some c) (S i) rest
      end
  end.
Definition search (m : matcher) (s : str) : option (nat * nat) :=
  search_from m None 0 s.

(** [match.group(0)] *)
Definition group0 (s : str) (mt : nat * nat) : str :=
  firstn (snd mt) (skipn (fst mt) s).

(** Number of leading characters in a class: a greedy [c*]. *)
Fixpoint run (p : ascii -> bool) (s : str) : nat :=
  match s with
  | c :: rest => if p c then S (run p rest) else 0
  | [] => 0
  end.

(** [.*?c]: the shortest run of non-line-feed characters up to the first
    [c], counted with [c]. *)
Fixpoint lazy_until (close : ascii) (s : str) : option nat :=
  match s with
  | [] => None
  | c :: rest =>
      if Ascii.eqb c close then Some 1
      else if Py.is_dot c then option_map S (lazy_until close rest)
      else None
  end.

(** [o.*?c] *)
Definition group_of (open close : ascii) : matcher := fun _ s =>
  match s with
  | c :: rest =>
      if Ascii.eqb c open then option_map S (lazy_until close rest) else None
  | [] => None
  end.

(** A character class [[...]] *)
Definition one_of (p : ascii -> bool) : matcher := fun _ s =>
  match s with
  | c :: _ => if p c then Some 1 else None
  | [] => None
  end.

(** [p+] for a character class [p] *)
Definition plus (p : ascii -> bool) : matcher := fun _ s =>
  match run p s with O => None | n => Some n end.

(** [a|b]: the first alternative that matches. *)
Definition alt (a b : matcher) : matcher := fun prev s =>
  match a prev s with Some n => Some n | None => b prev s end.

(** [\b\d{lo,}p\b] with at most [hi] digits when [hi] is given.  The
    digits are taken greedily; giving one back never helps, as the next
    character would be a digit and not the [p]. *)
Definition digits_p (lo : nat) (hi : option nat) (pchar : ascii -> bool)
  : matcher := fun prev s =>
  let n := run Py.is_digit s in
  if word_boundary prev s && (lo <=? n)%nat
     && match hi with Some h => (n <=? h)%nat | None => true end
  then match skipn n s with
       | c :: rest =>
           if pchar c && word_boundary (Some c) rest
           then Some (S n) else None
       | [] => None
       end
  else None.

(** [\b(19|20)\d{2}\b] *)
Definition year_token : matcher := fun prev s =>
  match s with
  | a :: b :: c :: d :: rest =>
      if word_boundary prev s
         && ((Ascii.eqb a "1" && Ascii.eqb b "9")
             || (Ascii.eqb a "2" && Ascii.eqb b "0"))
         && Py.is_digit c && Py.is_digit d
         && word_boundary (Some d) rest
      then Some 4 else None
  | _ => None
  end.

End Re.

(** ** Configuration *)

Record Config := {
  BASE_PATH : str;
  LOG_FILE : str;
  MAX_RETRIES : nat;
  RETRY_DELAY : nat;
  CURRENT_YEAR : Z;
  MAX_SEARCH_RESULTS : nat;
  THREAD_POOL_WORKERS : nat;
  EXTRANEOUS_WORDS : list str
}.

(** The [CONFIG] table of the source; the current year is read from the
    clock when the module is loaded. *)
Definition CONFIG (current_year : Z) : Config := {|
  BASE_PATH := "D:\Test";
  LOG_FILE := "imdb_renamer.log";
  MAX_RETRIES := 3;
  RETRY_DELAY := 10;
  CURRENT_YEAR := current_year;
  MAX_SEARCH_RESULTS := 10;
  THREAD_POOL_WORKERS := 5;
  EXTRANEOUS_WORDS :=
    [ "COMPLETE" : str; "720p" : str; "1080p" : str; "BRrip" : str;
      "BluRay" : str; "HDRip" : str; "sujaidr" : str; "pimprg" : str;
      "YTS" : str; "MX" : str; "x264" : str; "x265" : str; "HEVC" : str;
      "AAC" : str; "WEBRip" : str; "WebDL" : str; "H.264" : str;
      "H.265" : str; "DVDrip" : str; "BRRip" : str ]
|}.

(** ** Name normalisers *)

Section Normalisers.

Variable cfg : Config.

Definition is_sep (c : ascii) : bool :=
  Ascii.eqb c "." || Ascii.eqb c "-" || Ascii.eqb c "_".

Definition is_paren (c : ascii) : bool :=
  Ascii.eqb c "(" || Ascii.eqb c ")".

(** [\[.*?\]|\b\d+p\b|\.|\-|_] *)
Definition tag_pattern : Re.matcher :=
  Re.alt (Re.group_of "[" "]")
    (Re.alt (Re.digits_p 1 None (Ascii.eqb "p")) (Re.one_of is_sep)).

Definition sanitize_folder_name (folder_name : str) : str :=
  let clean_name := Re.sub tag_pattern " " folder_name in
  let clean_name := Re.sub (Re.one_of is_paren) " " clean_name in
  let clean_name := Py.strip (Re.sub (Re.plus Py.is_space) " " clean_name) in
  match Re.search Re.year_token clean_name with
  | Some year_match =>
      let year := Py.int_of_digits (Re.group0 clean_name year_match) in
      if (1900 <=? year)%Z && (year <=? CURRENT_YEAR cfg)%Z
      then
        let title_part := Py.strip (firstn (fst year_match) clean_name) in
        title_part ++ " " ++ Py.str_of_int year
      else clean_name
  | None => clean_name
  end.

Definition extract_year (folder_name : str) : option str :=
  match Re.search Re.year_token folder_name with
  | Some mt =>
      let year := Py.int_of_digits (Re.group0 folder_name mt) in
      if (1900 <=? year)%Z && (year <=? CURRENT_YEAR cfg)%Z
      then Some (Py.str_of_int year)
      else None
  | None => None
  end.

(** The class of [safe_name]: less-than, greater-than, colon, double
    quote (code 34), slash, backslash, bar, question mark, star. *)
Definition is_illegal (c : ascii) : bool :=
  existsb (Ascii.eqb c) ["<"; ">"; ":"; "034"; "/"; "\"; "|"; "?"; "*"]%char.

Definition safe_name (name : str) : str :=
  Re.sub (Re.one_of is_illegal) "-" name.

Definition is_19_or_20 (a b : ascii) : bool :=
  (Ascii.eqb a "1" && Ascii.eqb b "9") || (Ascii.eqb a "2" && Ascii.eqb b "0").

(** [$]: the end of the input, or just before a final line feed. *)
Definition at_end (s : str) : bool :=
  match s with
  | [] => true
  | [c] => Ascii.eqb c "010"
  | _ => false
  end.

(** [\s?\d+(\.\d+)?$].  Every choice is forced: a blank is never a digit,
    and a digit given back by [\d+] is neither a dot nor the end. *)
Definition rating_suffix (s : str) : bool :=
  let s1 := match s with
            | c :: rest => if Py.is_space c then rest else s
            | [] => s
            end in
  let n := Re.run Py.is_digit s1 in
  let s2 := skipn n s1 in
  (0 <? n)%nat &&
  (match s2 with
   | c :: rest =>
       Ascii.eqb c "." &&
       (let k := Re.run Py.is_digit rest in
        (0 <? k)%nat && at_end (skipn k rest))
   | [] => false
   end || at_end s2).

(** [ \((19|20)\d{2}\) - IMDb[-:]\s?\d+(\.\d+)?$] *)
Definition canonical_suffix (s : str) : bool :=
  match s with
  | sp :: lp :: a :: b :: c :: d :: rest =>
      Ascii.eqb sp " " && Ascii.eqb lp "(" && is_19_or_20 a b
      && Py.is_digit c && Py.is_digit d
      && Py.starts_with ") - IMDb" rest
      && match skipn 8 rest with
         | e :: rest' =>
             (Ascii.eqb e "-" || Ascii.eqb e ":") && rating_suffix rest'
         | [] => false
         end
  | _ => false
  end.

(** [re.match] of [.*] followed by [k]: some prefix free of line feeds
    is followed by a match of [k]. *)
Fixpoint dot_star_then (k : str -> bool) (s : str) : bool :=
  k s ||
  match s with
  | c :: rest => Py.is_dot c && dot_star_then k rest
  | [] => false
  end.

Definition already_properly_named (folder_name : str) : bool :=
  dot_star_then canonical_suffix folder_name.

Definition str_in (w : str) (l : list str) : bool :=
  existsb (Py.str_eqb w) l.

Definition simplify_name (sanitized_name : str) : str :=
  let extraneous_words := EXTRANEOUS_WORDS cfg in
  let words := Py.split sanitized_name in
  let simplified_words :=
    filter (fun word => negb (str_in (Py.upper word) extraneous_words)) words in
  let simplified_name := Py.join " " simplified_words in
  Py.strip (Re.sub (Re.group_of "(" ")") "" simplified_name).

(** A literal under IGNORECASE; a dot in the pattern is the regex dot. *)
Fixpoint literal_ci (pat s : str) : option nat :=
  match pat, s with
  | [], _ => Some 0%nat
  | p :: pat', c :: s' =>
      if (if Ascii.eqb p "." then Py.is_dot c
          else Ascii.eqb (Py.lower_char p) (Py.lower_char c))
      then option_map S (literal_ci pat' s')
      else None
  | _ :: _, [] => None
  end.

(** [\b(w1|w2|...)\b] under IGNORECASE *)
Fixpoint first_word (ws : list str) (s : str) : option nat :=
  match ws with
  | [] => None
  | w :: ws' =>
      match literal_ci w s with
      | Some n =>
          if Re.word_boundary (Re.last_of None (firstn n s)) (skipn n s)
          then Some n else first_word ws' s
      | None => first_word ws' s
      end
  end.
Definition any_word (ws : list str) : Re.matcher := fun prev s =>
  if Re.word_boundary prev s then first_word ws s else None.

(** [\bKEYWORD\s?\d+\b] under IGNORECASE *)
Definition numbered (keyword : str) : Re.matcher := fun prev s =>
  if Re.word_boundary prev s then
    match literal_ci keyword s with
    | Some n =>
        let s1 := skipn n s in
        let b := match s1 with
                 | c :: _ => if Py.is_space c then 1%nat else 0%nat
                 | [] => 0%nat
                 end in
        let s2 := skipn b s1 in
        let k := Re.run Py.is_digit s2 in
        if (0 <? k)%nat
           && Re.word_boundary (Re.last_of None (firstn k s2)) (skipn k s2)
        then Some (n + b + k)%nat else None
    | None => None
    end
  else None.

Definition is_p (c : ascii) : bool := Ascii.eqb c "p" || Ascii.eqb c "P".

Definition extract_core_title (sanitized_name : str) : str :=
  let core_title := Re.sub (numbered "Season") "" sanitized_name in
  let core_title := Re.sub (numbered "Episode") "" core_title in
  let core_title := Re.sub (Re.digits_p 3 (Some 4%nat) is_p) "" core_title in
  let core_title :=
    Re.sub (any_word [ "BRRip" : str; "BluRay" : str; "HDRip" : str;
                       "WebDL" : str; "WEBRip" : str; "x264" : str;
                       "x265" : str; "HEVC" : str; "AAC" : str;
                       "H.264" : str; "H.265" : str; "DVDrip" : str ])
           "" core_title in
  let core_title :=
    Re.sub (any_word [ "sujaidr" : str; "pimprg" : str; "YTS" : str;
                       "MX" : str ]) "" core_title in
  Py.strip (Re.sub (Re.plus Py.is_space) " " core_title).

End Normalisers.

(** ** Values, exceptions and effects *)

(** The values the catalogue hands out and the program formats.  A float
    is kept as its number of tenths: the ratings of the catalogue have one
    decimal. *)
Inductive pyval :=
| VInt (z : Z)
| VFloat (tenths : Z)
| VStr (s : str)
| VBool (b : bool).

(** [f"{v}"] *)
Definition format_value (v : pyval) : str :=
  match v with
  | VInt z => Py.str_of_int z
  | VFloat t =>
      (if (t <? 0)%Z then "-" : str else [])
      ++ Py.str_of_int (Z.abs t / 10) ++ "." ++ Py.str_of_int (Z.abs t mod 10)
  | VStr s => s
  | VBool b => if b then "True" else "False"
  end.

(** [v == n] for an integer [n] *)
Definition eq_int (v : pyval) (n : Z) : bool :=
  match v with
  | VInt z => (z =? n)%Z
  | VFloat t => (t =? 10 * n)%Z
  | VStr _ => false
  | VBool b => ((if b then 1 else 0) =? n)%Z
  end.

Fixpoint group_thousands (rev_digits : str) : str :=
  match rev_digits with
  | a :: b :: c :: (_ :: _) as rest => a :: b :: c :: ","%char :: group_thousands rest
  | _ => rev_digits
  end.

(** [f"{z:,}"] *)
Definition format_thousands (z : Z) : str :=
  (if (z <? 0)%Z then "-" : str else [])
  ++ rev (group_thousands (rev (Py.str_of_int (Z.abs z)))).

Inductive exn :=
| CatalogError (msg : str)
| KeyError (key : str)
| TypeError (msg : str)
| IndexError (msg : str)
| EOFError
| OSError (msg : str).

(** [str(e)] *)
Definition exn_str (e : exn) : str :=
  match e with
  | CatalogError msg => msg
  | KeyError key => "'" ++ key ++ "'"
  | TypeError msg => msg
  | IndexError msg => msg
  | EOFError => "EOF when reading a line"
  | OSError msg => msg
  end.

Inductive outcome (A : Type) :=
| Return (a : A)
| Raise (e : exn).
Arguments Return {A} a.
Arguments Raise {A} e.

Inductive level := INFO | WARNING | ERROR.

(** What the program does to the outside, in the order it does it. *)
Inductive event :=
| Print (msg : str)
| Log (lvl : level) (msg : str)
| Sleep (seconds : nat)
| Input (prompt : str)
| SearchMovie (query : str)
| GetMovie (movieID : str)
| OsRename (src dst : str).

(** A record of the catalogue, read with [movie.get(key, default)]. *)
Record Movie := {
  m_title : option str;
  m_year : option Z;
  m_rating : option pyval;
  m_votes : option Z
}.

(** The dict [{"title", "year", "rating", "votes"}] built by
    [fetch_movie_details] and rebuilt by [main]. *)
Record details := {
  title : str;
  year : pyval;
  rating : pyval;
  votes : Z
}.

(** The two shapes of dict that reach [rename_folder]: a candidate, or what
    the prompt builds for a name typed by the operator,
    [{"title": name, "custom": True}]. *)
Inductive choice :=
| Candidate (d : details)
| Custom (name : str).

(** [choice[key]] *)
Definition getitem (c : choice) (key : str) : outcome pyval :=
  match c with
  | Candidate d =>
      if Py.str_eqb key "title" then Return (VStr (title d))
      else if Py.str_eqb key "year" then Return (year d)
      else if Py.str_eqb key "rating" then Return (rating d)
      else if Py.str_eqb key "votes" then Return (VInt (votes d))
      else Raise (KeyError key)
  | Custom name =>
      if Py.str_eqb key "title" then Return (VStr name)
      else if Py.str_eqb key "custom" then Return (VBool true)
      else Raise (KeyError key)
  end.

(** The part of the world the program changes: the entries of the base
    directory with their [os.path.isdir] ([None] when the base path does not
    exist), the lines waiting on standard input, the number of requests
    sent to the catalogue so far, and the trace of events. *)
Record World := {
  base_dir : option (list (str * bool));
  stdin : list str;
  requests : nat;
  trace : list event
}.

(** The part of the world the program only consults: its configuration,
    the answer of the catalogue to its n-th request, the order in which the
    thread pool completes its tasks (a rearrangement of the tasks in the
    order of submission), whether the operating system refuses a
    rename (with the message of the error), and the limit of the
    interpreter on the digits of a string it converts to an integer. *)
Record Env := {
  cfg : Config;
  ia_search_movie : nat -> str -> outcome (list str);
  ia_get_movie : nat -> str -> outcome Movie;
  as_completed :
    list (outcome (option details)) -> list (outcome (option details));
  os_rename_refused : list (str * bool) -> str -> str -> option str;
  int_max_str_digits : nat
}.

(** State and exceptions. *)
Definition M (A : Type) : Type := World -> outcome A * World.

Definition ret {A} (a : A) : M A := fun w => (Return a, w).
Definition raise {A} (e : exn) : M A := fun w => (Raise e, w).
Definition bind {A B} (c : M A) (k : A -> M B) : M B := fun w =>
  match c w with
  | (Return a, w') => k a w'
  | (Raise e, w') => (Raise e, w')
  end.

Notation "x <- c ;; k" := (bind c (fun x => k))
  (at level 61, c at next level, right associativity).
Notation "c ;;; k" := (bind c (fun _ => k))
  (at level 61, right associativity).

(** [try: body  except Exception as e: handler(e)] *)
Definition try_except {A} (body : M A) (handler : exn -> M A) : M A := fun w =>
  match body w with
  | (Return a, w') => (Return a, w')
  | (Raise e, w') => handler e w'
  end.

Definition emit (e : event) : M unit := fun w =>
  (Return tt, {| base_dir := base_dir w; stdin := stdin w;
                 requests := requests w; trace := trace w ++ [e] |}).

Definition print (msg : str) : M unit := emit (Print msg).
Definition logging (lvl : level) (msg : str) : M unit := emit (Log lvl msg).
Definition time_sleep (seconds : nat) : M unit := emit (Sleep seconds).

(** [input(prompt)] *)
Definition input (prompt : str) : M str := fun w =>
  match stdin w with
  | [] => (Raise EOFError, w)
  | line :: rest =>
      (Return line, {| base_dir := base_dir w; stdin := rest;
                       requests := requests w;
                       trace := trace w ++ [Input prompt] |})
  end.

Definition str_of_nat (n : nat) : str := Py.str_of_int (Z.of_nat n).

(** ** The retry decorator *)

Section Retry.

Context {A : Type}.
Variables (max_retries delay : nat) (func_name : str) (func : M A).

(** Between two attempts: the warning and the pause. *)
Definition backoff (e : exn) (attempts : nat) : M unit :=
  logging WARNING
    ("Retrying " ++ func_name ++ " due to error: " ++ exn_str e
     ++ ". Attempt " ++ str_of_nat attempts ++ " of "
     ++ str_of_nat max_retries ++ ". Retrying in "
     ++ str_of_nat delay ++ " seconds...") ;;;
  time_sleep delay.

(** The [while attempts < max_retries] loop of [wrapper].  [remaining] is
    [max_retries - attempts], the number of turns the loop has left; when
    it is zero the loop ends and the wrapper returns [None]. *)
Fixpoint wrapper_loop (remaining attempts : nat) : M (option A) :=
  match remaining with
  | O => ret None
  | S remaining' =>
      try_except
        (a <- func ;; ret (Some a))
        (fun e =>
           let attempts := S attempts in
           if (max_retries <=? attempts)%nat then raise e
           else backoff e attempts ;;; wrapper_loop remaining' attempts)
  end.

Definition retry : M (option A) := wrapper_loop max_retries 0.

End Retry.

(** ** Ranking: [choices.sort(key=..., reverse=True)] *)

Section Sort.

Context {A K : Type}.
Variables (key : A -> K) (lt : K -> K -> bool).

(** A stable insertion sort on the comparison [lt] of the keys: an
    element goes in front of the elements that arrive after it and do
    not compare below it. *)
Fixpoint insert (x : A) (l : list A) : list A :=
  match l with
  | [] => [x]
  | y :: l' => if lt (key y) (key x) then y :: insert x l' else x :: l
  end.

Fixpoint list_sort (l : list A) : list A :=
  match l with
  | [] => []
  | x :: l' => insert x (list_sort l')
  end.

End Sort.

(** [reverse=True] sorts as if every comparison were reversed. *)
Definition list_sort_reverse {A K} (key : A -> K) (lt : K -> K -> bool)
  : list A -> list A :=
  list_sort key (fun a b => lt b a).

(** [<] on the tuples [(bool, int)]: [False < True], then the integers. *)
Definition tuple_lt (a b : bool * Z) : bool :=
  (negb (fst a) && fst b) || (Bool.eqb (fst a) (fst b) && (snd a <? snd b)%Z).

(** The sort of [main]; [yr] is its variable [year], the answer of
    [extract_year] on the folder name. *)
Definition rank (yr : option str) (choices : list details) : list details :=
  match yr with
  | Some y =>
      let year_int := Py.int_of_digits y in
      list_sort_reverse (fun x => (eq_int (x.(year)) year_int, votes x))
                        tuple_lt choices
  | None => list_sort_reverse votes Z.ltb choices
  end.

(** ** Catalogue access *)

Section Program.

Variable env : Env.

Definition set_world (d : option (list (str * bool))) (i : list str)
           (n : nat) (t : list event) : World :=
  {| base_dir := d; stdin := i; requests := n; trace := t |}.

(** [ia.search_movie(query)]: one request to the catalogue. *)
Definition search_movie (query : str) : M (list str) := fun w =>
  (ia_search_movie env (requests w) query,
   set_world (base_dir w) (stdin w) (S (requests w))
             (trace w ++ [SearchMovie query])).

(** [ia.get_movie(movieID)]: one request to the catalogue. *)
Definition get_movie (movieID : str) : M Movie := fun w =>
  (ia_get_movie env (requests w) movieID,
   set_world (base_dir w) (stdin w) (S (requests w))
             (trace w ++ [GetMovie movieID])).

Definition get {A} (field : option A) (default : A) : A :=
  match field with Some a => a | None => default end.

Definition fetch_movie_details_body (movieID : str) : M details :=
  try_except
    (movie <- get_movie movieID ;;
     ret {| title := get (m_title movie) ("Unknown Title" : str);
            year := get (option_map VInt (m_year movie)) (VStr "Unknown Year");
            rating := get (m_rating movie) (VFloat 0);
            votes := get (m_votes movie) 0%Z |})
    (fun e =>
       logging ERROR ("Error fetching details for movie ID " ++ movieID
                      ++ ": " ++ exn_str e) ;;;
       raise e).

Definition fetch_movie_details (movieID : str) : M (option details) :=
  retry (MAX_RETRIES (cfg env)) (RETRY_DELAY (cfg env))
        "fetch_movie_details" (fetch_movie_details_body movieID).

(** A task of the pool keeps its exception until [future.result()]. *)
Definition submit {A} (task : M A) : M (outcome A) := fun w =>
  let (r, w') := task w in (Return r, w').

(** The tasks of the pool, run one after the other in the order of
    submission; the order of completion is [as_completed]. *)
Fixpoint run_pool (search_results : list str)
  : M (list (outcome (option details))) :=
  match search_results with
  | [] => ret []
  | result :: rest =>
      future <- submit (fetch_movie_details result) ;;
      futures <- run_pool rest ;;
      ret (future :: futures)
  end.

(** The loop over [as_completed]: [future.result()] raises what the task
    raised; a result that is not empty is appended. *)
Fixpoint collect (futures : list (outcome (option details)))
         (found : list details) : M (list details) :=
  match futures with
  | [] => ret found
  | Raise e :: _ => raise e
  | Return (Some movie_details) :: rest =>
      collect rest (found ++ [movie_details])
  | Return None :: rest => collect rest found
  end.

Definition get_movie_details_body (movie_name : str) : M (list details) :=
  try_except
    (all_results <- search_movie movie_name ;;
     let search_results :=
       firstn (MAX_SEARCH_RESULTS (cfg env)) all_results in
     match search_results with
     | [] => ret []
     | _ =>
         futures <- run_pool search_results ;;
         collect (as_completed env futures) []
     end)
    (fun e =>
       logging ERROR ("Error during IMDb search for '" ++ movie_name
                      ++ "': " ++ exn_str e) ;;;
       raise e).

Definition get_movie_details (movie_name : str) : M (option (list details)) :=
  retry (MAX_RETRIES (cfg env)) (RETRY_DELAY (cfg env))
        "get_movie_details" (get_movie_details_body movie_name).

(** ** The prompt *)

Fixpoint print_choices (i : nat) (choices : list details) : M unit :=
  match choices with
  | [] => ret tt
  | c :: rest =>
      print (str_of_nat i ++ ". " ++ title c ++ " (" ++ format_value (year c)
             ++ ") - IMDb- " ++ format_value (rating c) ++ " (Ranked by "
             ++ format_thousands (votes c) ++ " people)") ;;;
      print_choices (S i) rest
  end.

(** The [while True] loop of [prompt_user_choice].  Every turn reads at
    least one line, so the lines waiting on standard input, [lines],
    bound its turns; where they run out, [input] has raised [EOFError].
    The [ValueError] that the handler of the loop catches can only come
    from [int(user_input)]. *)
Fixpoint prompt_loop (choices : list details) (lines : list str) : M choice :=
  line <- input "Enter the number of your choice or custom name: " ;;
  match lines with
  | [] => raise EOFError
  | _ :: lines' =>
      let user_input := Py.strip line in
      if Py.isdigit user_input then
        match Py.int (int_max_str_digits env) user_input with
        | Some choice_number =>
            if (1 <=? choice_number)%Z
               && (choice_number <=? Z.of_nat (List.length choices))%Z
            then
              match nth_error choices (Z.to_nat (choice_number - 1)) with
              | Some c => ret (Candidate c)
              | None => raise (IndexError "list index out of range")
              end
            else if (choice_number =? Z.of_nat (List.length choices) + 1)%Z
            then
              line' <- input "Enter the custom name: " ;;
              match lines' with
              | [] => raise EOFError
              | _ :: lines'' =>
                  let custom_name := Py.strip line' in
                  match custom_name with
                  | _ :: _ => ret (Custom custom_name)
                  | [] =>
                      print "Custom name cannot be empty. Please try again." ;;;
                      prompt_loop choices lines''
                  end
              end
            else
              print "Invalid choice number. Please try again." ;;;
              prompt_loop choices lines'
        | None =>
            print "Invalid input. Please enter a valid number or name." ;;;
            prompt_loop choices lines'
        end
      else
        match user_input with
        | _ :: _ => ret (Custom user_input)
        | [] =>
            print "Custom name cannot be empty. Please try again." ;;;
            prompt_loop choices lines'
        end
  end.

Definition prompt_user_choice (choices : list details) : M choice :=
  print ("010"%char :: "Please choose one of the following options:") ;;;
  print_choices 1 choices ;;;
  print (str_of_nat (List.length choices + 1) ++ ". Enter a custom name") ;;;
  fun w => prompt_loop choices (stdin w) w.

(** ** The rename *)

Definition is_pathsep (c : ascii) : bool :=
  Ascii.eqb c "\" || Ascii.eqb c "/".

Fixpoint drop_while (p : ascii -> bool) (s : str) : str :=
  match s with
  | c :: rest => if p c then drop_while p rest else s
  | [] => []
  end.

Fixpoint take_while (p : ascii -> bool) (s : str) : str :=
  match s with
  | c :: rest => if p c then c :: take_while p rest else []
  | [] => []
  end.

(** [os.path.dirname(path)]: up to the last separator, without the
    separators that end it unless nothing else is left. *)
Definition os_path_dirname (path : str) : str :=
  let head := rev (drop_while (fun c => negb (is_pathsep c)) (rev path)) in
  match rev (drop_while is_pathsep (rev head)) with
  | [] => head
  | stripped => stripped
  end.

Definition os_path_basename (path : str) : str :=
  rev (take_while (fun c => negb (is_pathsep c)) (rev path)).

(** [os.path.join(a, b)] for a relative [b]. *)
Definition os_path_join (a b : str) : str :=
  match rev a with
  | [] => b
  | c :: _ => if is_pathsep c then a ++ b else a ++ "\" ++ b
  end.

(** [os.path.isdir(os.path.join(base_path, folder))] *)
Definition os_path_isdir (folder : str) : M bool := fun w =>
  (Return (existsb (fun e => Py.str_eqb (fst e) folder && snd e)
                   (get (base_dir w) [])), w).

(** [os.rename(src, dst)] inside the base directory. *)
Definition os_rename (src dst : str) : M unit := fun w =>
  let w' := set_world (base_dir w) (stdin w) (requests w)
                      (trace w ++ [OsRename src dst]) in
  let entries := get (base_dir w) [] in
  match os_rename_refused env entries src dst with
  | Some msg => (Raise (OSError msg), w')
  | None =>
      (Return tt,
       set_world
         (Some (map (fun e =>
                       if Py.str_eqb (fst e) (os_path_basename src)
                       then (os_path_basename dst, snd e) else e)
                    entries))
         (stdin w') (requests w') (trace w'))
  end.

Definition lift {A} (r : outcome A) : M A := fun w => (r, w).

(** [f"{choice['title']} ({choice['year']}) - IMDb- {choice['rating']}"] *)
Definition new_name_of (t y r : pyval) : str :=
  format_value t ++ " (" ++ format_value y ++ ") - IMDb- " ++ format_value r.

Definition rename_folder (folder_path : str) (c : choice) (dry_run : bool)
  : M unit :=
  t <- lift (getitem c "title") ;;
  y <- lift (getitem c "year") ;;
  r <- lift (getitem c "rating") ;;
  let new_name := new_name_of t y r in
  let parent_dir := os_path_dirname folder_path in
  let safe_new_name := safe_name new_name in
  let new_folder_path := os_path_join parent_dir safe_new_name in
  if dry_run then
    print ("Would rename '" ++ folder_path ++ "' to '" ++ new_folder_path
           ++ "'") ;;;
    logging INFO ("Would rename '" ++ folder_path ++ "' to '"
                  ++ new_folder_path ++ "'")
  else
    try_except
      (os_rename folder_path new_folder_path ;;;
       print ("Renamed to: " ++ safe_new_name) ;;;
       logging INFO ("Renamed '" ++ folder_path ++ "' to '"
                     ++ new_folder_path ++ "'"))
      (fun e =>
         print ("Failed to rename '" ++ folder_path ++ "' to '"
                ++ new_folder_path ++ "': " ++ exn_str e) ;;;
         logging ERROR ("Failed to rename '" ++ folder_path ++ "' to '"
                        ++ new_folder_path ++ "': " ++ exn_str e)).

(** ** The main loop *)

Variable dry_run : bool.

(** [for result in search_results] *)
Definition iterate (search_results : option (list details))
  : M (list details) :=
  match search_results with
  | Some l => ret l
  | None => raise (TypeError "'NoneType' object is not iterable")
  end.

(** [final_choice = prompt_user_choice(choices)] and the rename; a dict
    the prompt returns is never empty, so [if final_choice] holds. *)
Definition choose_and_rename (folder_path : str) (choices : list details)
  : M unit :=
  final_choice <- prompt_user_choice choices ;;
  rename_folder folder_path final_choice dry_run.

(** The block that [main] repeats for the simplified name, the core title
    and the custom name: fetch, rebuild the dicts, and if there are any,
    prompt, rename and [continue] (the answer [true]).  The three copies
    hand [choices] to the prompt as fetched. *)
Definition retry_with (folder_path query : str) : M bool :=
  search_results <- get_movie_details query ;;
  choices <- iterate search_results ;;
  match choices with
  | _ :: _ => choose_and_rename folder_path choices ;;; ret true
  | [] => ret false
  end.

(** Step 5 of the loop body. *)
Definition final_fallback (folder_path sanitized_name : str) : M unit :=
  print ("No valid options found for '" ++ sanitized_name
         ++ "'. Would you like to retry with a custom name? (yes/no)") ;;;
  line <- input "" ;;
  let user_input := Py.lower (Py.strip line) in
  if Py.str_eqb user_input "yes" then
    line' <- input "Enter the custom name to retry: " ;;
    let custom_name := Py.strip line' in
    match custom_name with
    | _ :: _ =>
        print ("Retrying with custom name: " ++ custom_name) ;;;
        logging INFO ("Retrying with custom name: " ++ custom_name) ;;;
        retry_with folder_path custom_name ;;; ret tt
    | [] =>
        print "No custom name provided. Skipping folder..." ;;;
        logging INFO "No custom name provided. Skipping folder."
    end
  else ret tt.

(** Step 4 *)
Definition core_title_stage (folder_path sanitized_name simplified_name : str)
  : M unit :=
  let core_title := extract_core_title simplified_name in
  done <- (if negb (Py.str_eqb core_title simplified_name) then
             print ("No valid options found. Retrying with core title: "
                    ++ core_title) ;;;
             logging INFO ("Retrying with core title: " ++ core_title) ;;;
             retry_with folder_path core_title
           else ret false) ;;
  if done : bool then ret tt
  else final_fallback folder_path sanitized_name.

(** Step 3 *)
Definition simplified_stage (folder_path sanitized_name : str) : M unit :=
  let simplified_name := simplify_name (cfg env) sanitized_name in
  done <- (if negb (Py.str_eqb simplified_name sanitized_name) then
             print ("No valid options found. Retrying with simplified name: "
                    ++ simplified_name) ;;;
             logging INFO ("Retrying with simplified name: "
                           ++ simplified_name) ;;;
             retry_with folder_path simplified_name
           else ret false) ;;
  if done : bool then ret tt
  else core_title_stage folder_path sanitized_name simplified_name.

(** [sanitized_name] as the loop body leaves it before the first search:
    the sanitized folder name, with the year appended if it lost it. *)
Definition sanitized_with_year (folder : str) : str :=
  let sanitized_name := sanitize_folder_name (cfg env) folder in
  match extract_year (cfg env) folder with
  | Some y =>
      if negb (Py.contains y sanitized_name)
      then sanitized_name ++ " " ++ y else sanitized_name
  | None => sanitized_name
  end.

(** The body of [for folder in os.listdir(base_path)]. *)
Definition process_folder (folder : str) : M unit :=
  let folder_path := os_path_join (BASE_PATH (cfg env)) folder in
  isdir <- os_path_isdir folder ;;
  if negb isdir then ret tt
  else if already_properly_named folder then
    logging INFO ("Skipping already properly named folder: " ++ folder)
  else
    print ("010"%char :: "Processing folder: " ++ folder) ;;;
    logging INFO ("Processing folder: " ++ folder) ;;;
    let yr := extract_year (cfg env) folder in
    let sanitized_name := sanitized_with_year folder in
    print ("Sanitized name: " ++ sanitized_name) ;;;
    logging INFO ("Sanitized name: " ++ sanitized_name) ;;;
    search_results <- get_movie_details sanitized_name ;;
    choices <- iterate search_results ;;
    let choices := rank yr choices in
    match choices with
    | _ :: _ => choose_and_rename folder_path choices
    | [] => simplified_stage folder_path sanitized_name
    end.

Fixpoint main_loop (folders : list str) : M unit :=
  match folders with
  | [] => ret tt
  | folder :: rest => process_folder folder ;;; main_loop rest
  end.

Definition main : M unit := fun w =>
  match base_dir w with
  | None =>
      (print ("Path does not exist: " ++ BASE_PATH (cfg env)) ;;;
       logging ERROR ("Path does not exist: " ++ BASE_PATH (cfg env))) w
  | Some entries => main_loop (map fst entries) w
  end.

End Program.

(** ** Notions used to state the properties *)

(** [a] may stand before [b] in a list sorted on [lt]: the key of [b] is
    not below the key of [a]. *)
Definition not_below {A K} (key : A -> K) (lt : K -> K -> bool) (a b : A)
  : Prop := lt (key b) (key a) = false.

(** The year-equality key of the ranking. *)
Definition year_matches (target : Z) (c : details) : bool :=
  eq_int (year c) target.

(** [a] may stand before [b] in a list ranked for [target]: a year match
    before a non-match, and among equals on that key the larger number of
    votes first. *)
Definition outranks (target : Z) (a b : details) : Prop :=
  (year_matches target a = true /\ year_matches target b = false)
  \/ (year_matches target a = year_matches target b
      /\ (votes b <= votes a)%Z).

(** The candidates whose keys are [(m, v)]. *)
Definition same_keys (target : Z) (m : bool) (v : Z) (c : details) : bool :=
  Bool.eqb (year_matches target c) m && (votes c =? v)%Z.

(** The operator picks the custom-name option of the prompt over
    [choices]: either by typing a text that is not a number, or by typing
    the number of the extra menu entry (a number that the interpreter
    converts) and then a name.  [typed] are the lines read and [name] the
    name that results. *)
Inductive selects_custom (env : Env) (choices : list details)
  : list str -> str -> Prop :=
| custom_by_text (line : str) :
    Py.strip line <> [] ->
    Py.isdigit (Py.strip line) = false ->
    selects_custom env choices [line] (Py.strip line)
| custom_by_number (line line' : str) :
    Py.isdigit (Py.strip line) = true ->
    Py.int (int_max_str_digits env) (Py.strip line)
    = Some (Z.of_nat (List.length choices) + 1)%Z ->
    Py.strip line' <> [] ->
    selects_custom env choices [line; line'] (Py.strip line').

(** The prompt of the menu, and the events that are not the menu. *)
Definition menu_prompt : str :=
  "Enter the number of your choice or custom name: ".
Definition not_menu (e : event) : Prop := e <> Input menu_prompt.

(** A computation that does not put the menu to the operator. *)
Definition shows_no_menu {A} (c : M A) : Prop :=
  forall w, exists evs,
    trace (snd (c w)) = trace w ++ evs /\ Forall not_menu evs.

(** A computation that shows no menu, or else runs without a menu up to a
    world [w1], shows the menu there, and ends as the choice and the rename
    end that follow it: nothing comes after them and nothing catches what
    they raise. *)
Definition ends_with_the_choice (env : Env) (dry_run : bool)
           (folder_path : str) (c : M unit) : Prop :=
  forall w,
    (exists evs, trace (snd (c w)) = trace w ++ evs /\ Forall not_menu evs)
    \/ exists choices w1 evs,
         trace w1 = trace w ++ evs /\ Forall not_menu evs
         /\ c w = choose_and_rename env dry_run folder_path choices w1.

(** The same for a stage of the loop body, which answers whether the
    folder is done: without a menu it is not. *)
Definition stage_ends_with_the_choice (env : Env) (dry_run : bool)
           (folder_path : str) (c : M bool) : Prop :=
  forall w,
    ((exists evs, trace (snd (c w)) = trace w ++ evs /\ Forall not_menu evs)
     /\ fst (c w) <> Return true)
    \/ exists choices w1 evs,
         trace w1 = trace w ++ evs /\ Forall not_menu evs
         /\ c w = (choose_and_rename env dry_run folder_path choices ;;;
                   ret true) w1.

(** A computation that only writes to the console or the log. *)
Definition only_emits (c : M unit) : Prop :=
  forall w, exists evs,
    c w = (Return tt,
           set_world (base_dir w) (stdin w) (requests w) (trace w ++ evs)).

Definition is_info_log (e : event) : Prop := exists msg, e = Log INFO msg.

(** A rating that is an integer or a one-decimal float, and not negative. *)
Definition nonneg_number (v : pyval) : Prop :=
  match v with
  | VInt z => (0 <= z)%Z
  | VFloat t => (0 <= t)%Z
  | VStr _ | VBool _ => False
  end.

(** A string of one or more decimal digits. *)
Definition digits (s : str) : Prop := s <> [] /\ forallb Py.is_digit s = true.

(** The character before position [k] of an input scanned from [prev]. *)
Definition prev_at (prev : option ascii) (s : str) (k : nat) : option ascii :=
  match k with O => prev | S j => nth_error s j end.

(** The character before position [i] of [s], and whether a pattern
    matches at position [i] of [s]. *)
Definition char_before (s : str) (i : nat) : option ascii :=
  match i with O => None | S j => nth_error s j end.
Definition matches_at (m : Re.matcher) (s : str) (i : nat) : option nat :=
  m (char_before s i) (skipn i s).



Definition announced (folder sanitized_name : str) : list event :=
  [Print ("010"%char :: "Processing folder: " ++ folder);
   Log INFO ("Processing folder: " ++ folder);
   Print ("Sanitized name: " ++ sanitized_name);
   Log INFO ("Sanitized name: " ++ sanitized_name)].

(** ** Sample worlds *)

Module Sample.

Definition movie (t : str) (y r v : Z) : Movie :=
  {| m_title := Some t; m_year := Some y; m_rating := Some (VFloat r);
     m_votes := Some v |}.

Definition heat_1986 : details :=
  {| title := "Heat"; year := VInt 1986; rating := VFloat 55; votes := 1200 |}.
Definition heat_1995 : details :=
  {| title := "Heat"; year := VInt 1995; rating := VFloat 83;
     votes := 700000 |}.

(** A catalogue that knows two films under the query "Heat 1995", listed
    with the less popular one first, and nothing under any other query. *)
Definition catalogue : Env :=
  {| cfg := CONFIG 2026;
     ia_search_movie := fun _ query =>
       if Py.str_eqb query "Heat 1995"
       then Return [("tt0091191" : str); ("tt0113277" : str)]
       else Return [];
     ia_get_movie := fun _ movieID =>
       if Py.str_eqb movieID "tt0091191"
       then Return (movie "Heat" 1986 55 1200)
       else Return (movie "Heat" 1995 83 700000);
     as_completed := fun futures => futures;
     os_rename_refused := fun _ _ _ => None;
     int_max_str_digits := 4300 |}.

(** A catalogue that cannot be reached. *)
Definition unreachable : Env :=
  {| cfg := CONFIG 2026;
     ia_search_movie := fun _ _ => Raise (CatalogError "timed out");
     ia_get_movie := fun _ _ => Raise (CatalogError "timed out");
     as_completed := fun futures => futures;
     os_rename_refused := fun _ _ _ => None;
     int_max_str_digits := 4300 |}.

(** A catalogue whose search fails on the first two requests. *)
Definition flaky : Env :=
  {| cfg := CONFIG 2026;
     ia_search_movie := fun n query =>
       if (n <? 2)%nat then Raise (CatalogError "timed out")
       else Return [("tt0113277" : str)];
     ia_get_movie := fun _ _ => Return (movie "Heat" 1995 83 700000);
     as_completed := fun futures => futures;
     os_rename_refused := fun _ _ _ => None;
     int_max_str_digits := 4300 |}.

Definition world (entries : list (str * bool)) (lines : list str) : World :=
  {| base_dir := Some entries; stdin := lines; requests := 0; trace := [] |}.


Definition tagged_folder : World :=
  world [("Heat COMPLETE 1995" : str, true)] [("1" : str)].

Definition renamed_folder : World :=
world [("Alien (1979) - IMDb- 8.5" : str, true)] [].

Definition plain_folder (lines : list str) : World :=
  world [("Heat.1995.1080p" : str, true)] lines.

End Sample.

(** ** Notions for the idempotence of [sanitize_folder_name] *)

(** The four steps of [sanitize_folder_name]. *)
Definition strip_tags (s : str) : str := Re.sub tag_pattern " " s.
Definition strip_parens (s : str) : str := Re.sub (Re.one_of is_paren) " " s.
Definition collapse (s : str) : str := Re.sub (Re.plus Py.is_space) " " s.
Definition normalize_year (c : Config) (clean_name : str) : str :=
  match Re.search Re.year_token clean_name with
  | Some year_match =>
      let year := Py.int_of_digits (Re.group0 clean_name year_match) in
      if (1900 <=? year)%Z && (year <=? CURRENT_YEAR c)%Z
      then Py.strip (firstn (fst year_match) clean_name) ++ " "
           ++ Py.str_of_int year
      else clean_name
  | None => clean_name
  end.

(** The string holds a year token within the range. *)
Definition has_normalized_year (c : Config) (s : str) : Prop :=
  exists i,
    matches_at Re.year_token s i = Some 4%nat
    /\ (1900 <= Py.int_of_digits (firstn 4 (skipn i s)) <= CURRENT_YEAR c)%Z.

(** No position of [s], read after [prev], matches the pattern [m]. *)
Fixpoint free (m : Re.matcher) (prev : option ascii) (s : str) : Prop :=
  match s with
  | [] => True
  | c :: rest => m prev s = None /\ free m (Some c) rest
  end.

(** No position of [a] matches the pattern [m] in [a ++ b] read after
    [prev]. *)
Fixpoint free_in (m : Re.matcher) (prev : option ascii) (a b : str) : Prop :=
  match a with
  | [] => True
  | c :: rest => m prev (a ++ b) = None /\ free_in m (Some c) rest b
  end.

(** A scan of [s] by [re.sub] with the pattern [m] in which every copied
    position is free of tags, every match starts at a character that is
    not a word character or after one, and ends with a character that is
    not a word character or before one. *)
Inductive scan_ok (m : Re.matcher) : option ascii -> str -> Prop :=
| scan_nil prev : scan_ok m prev []
| scan_copy prev c rest :
    match m prev (c :: rest) with Some (S _) => False | _ => True end ->
    tag_pattern prev (c :: rest) = None ->
    scan_ok m (Some c) rest ->
    scan_ok m prev (c :: rest)
| scan_jump prev c rest k :
    m prev (c :: rest) = Some (S k) ->
    Py.is_word c = false \/ Re.word_opt prev = false ->
    Re.word_opt (prev_at (Some c) rest k) = false
    \/ Re.word_opt (hd_error (skipn k rest)) = false ->
    scan_ok m (prev_at (Some c) rest k) (skipn k rest) ->
    scan_ok m prev (c :: rest).

(** Blanks are single spaces, none right after [after_blank]; [spaced]
    also asks that the string does not end with a blank. *)
Fixpoint collapsed (after_blank : bool) (s : str) : bool :=
  match s with
  | [] => true
  | c :: rest =>
      if Py.is_space c
      then negb after_blank && Ascii.eqb c " " && collapsed true rest
      else collapsed false rest
  end.

Fixpoint spaced (after_blank : bool) (s : str) : bool :=
  match s with
  | [] => negb after_blank
  | c :: rest =>
      if Py.is_space c
      then negb after_blank && Ascii.eqb c " " && spaced true rest
      else spaced false rest
  end.


(** ** Notions for the further properties *)

(** The seconds a trace spends in [time.sleep]. *)
Fixpoint slept (t : list event) : nat :=
  match t with
  | Sleep n :: rest => (n + slept rest)%nat
  | _ :: rest => slept rest
  | [] => 0%nat
  end.

(** The renames a trace asks of the operating system. *)
Fixpoint renames (t : list event) : list (str * str) :=
  match t with
  | OsRename src dst :: rest => (src, dst) :: renames rest
  | _ :: rest => renames rest
  | [] => []
  end.

(** A computation that leaves the base directory as it is and asks the
    operating system for no rename. *)
Definition keeps_directory {A} (c : M A) : Prop :=
  forall w,
    base_dir (snd (c w)) = base_dir w
    /\ renames (trace (snd (c w))) = renames (trace w).

(** A catalogue that lists two films under every query and cannot deliver
    the record of the second. *)
Definition one_dead_candidate : Env :=
  {| cfg := CONFIG 2026;
     ia_search_movie := fun _ _ =>
       Return [("tt0113277" : str); ("tt0091191" : str)];
     ia_get_movie := fun _ movieID =>
       if Py.str_eqb movieID "tt0091191"
       then Raise (CatalogError "timed out")
       else Return (Sample.movie "Heat" 1995 83 700000);
     as_completed := fun futures => futures;
     os_rename_refused := fun _ _ _ => None;
     int_max_str_digits := 4300 |}.

(** The names that the pattern of [already_properly_named] describes, read
    off the regular expression: a prefix without line feed, a blank, a year
    in parentheses that starts with 19 or 20, the text [ - IMDb], a hyphen
    or a colon, at most one blank, a number with an optional fraction, and
    at most one line feed at the very end. *)
Definition canonical_form (s : str) : Prop :=
  exists pre a b c d sep blank whole frac nl,
    s = pre ++ " (" ++ [a; b; c; d] ++ ") - IMDb" ++ [sep]
            ++ blank ++ whole ++ frac ++ nl
    /\ forallb Py.is_dot pre = true
    /\ is_19_or_20 a b = true /\ Py.is_digit c = true /\ Py.is_digit d = true
    /\ (sep = "-"%char \/ sep = ":"%char)
    /\ (blank = [] \/ exists x, blank = [x] /\ Py.is_space x = true)
    /\ digits whole
    /\ (frac = [] \/ exists ds, frac = "."%char :: ds /\ digits ds)
    /\ (nl = [] \/ nl = ["010"%char]).

(** A catalogue that knows no film, and one whose configuration allows
    no attempt. *)
Definition empty_catalogue : Env :=
  {| cfg := CONFIG 2026;
     ia_search_movie := fun _ _ => Return [];
     ia_get_movie := fun _ _ => Raise (CatalogError "not found");
     as_completed := fun futures => futures;
     os_rename_refused := fun _ _ _ => None;
     int_max_str_digits := 4300 |}.

Definition without_retries : Env :=
  {| cfg := {| BASE_PATH := BASE_PATH (CONFIG 2026);
               LOG_FILE := LOG_FILE (CONFIG 2026);
               MAX_RETRIES := 0;
               RETRY_DELAY := RETRY_DELAY (CONFIG 2026);
               CURRENT_YEAR := 2026;
               MAX_SEARCH_RESULTS := MAX_SEARCH_RESULTS (CONFIG 2026);
               THREAD_POOL_WORKERS := THREAD_POOL_WORKERS (CONFIG 2026);
               EXTRANEOUS_WORDS := EXTRANEOUS_WORDS (CONFIG 2026) |};
     ia_search_movie := ia_search_movie Sample.catalogue;
     ia_get_movie := ia_get_movie Sample.catalogue;
     as_completed := fun futures => futures;
     os_rename_refused := fun _ _ _ => None;
     int_max_str_digits := 4300 |}.

(** ** The fallback through a web search

    [fallback_search_imdb_id] is not called by [main]; it is modelled
    here on its own.  What [requests.get] and the parser hand to it is the
    status code of the response and the [href] values of the anchors that
    [soup.find_all] yields, in document order. *)
Record Response := {
  status_code : Z;
  hrefs : list str
}.

(** The answer of the web to the n-th request of the run, by URL; an
    answer that is an exception stands for a failure of the request or of
    the parser. *)
Definition Web := nat -> str -> outcome Response.

(** [tt\d+] *)
Definition imdb_id_pattern : Re.matcher := fun _ s =>
  match s with
  | a :: b :: rest =>
      if Ascii.eqb a "t" && Ascii.eqb b "t"
      then match Re.run Py.is_digit rest with
           | O => None
           | S n => Some (3 + n)%nat
           end
      else None
  | _ => None
  end.

(** [requests.get(url, headers=..., timeout=5)] and the parse of the page;
    the request is counted with the requests to the catalogue. *)
Definition requests_get (web : Web) (url : str) : M Response := fun w =>
  (web (requests w) url,
   set_world (base_dir w) (stdin w) (S (requests w)) (trace w)).

(** [for a_tag in soup.find_all(...)] *)
Fixpoint first_imdb_link (sanitized_name : str) (links : list str)
  : M (option str) :=
  match links with
  | [] =>
      logging WARNING ("No IMDb ID found in Google results for '"
                       ++ sanitized_name ++ "'") ;;;
      ret None
  | href :: rest =>
      if Py.contains "imdb.com/title/tt" href then
        match Re.search imdb_id_pattern href with
        | Some mt =>
            let imdb_id := Re.group0 href mt in
            logging INFO ("Found IMDb ID " ++ imdb_id ++ " for '"
                          ++ sanitized_name ++ "'") ;;;
            ret (Some imdb_id)
        | None => first_imdb_link sanitized_name rest
        end
      else first_imdb_link sanitized_name rest
  end.

Definition search_url (sanitized_name : str) : str :=
  let query := sanitized_name ++ " site:imdb.com" in
  "https://www.google.com/search?q=" ++ query ++ "&num=1&hl=en".

Definition fallback_search_imdb_id_body (web : Web) (sanitized_name : str)
  : M (option str) :=
  try_except
    (response <- requests_get web (search_url sanitized_name) ;;
     if negb (status_code response =? 200)%Z then
       logging ERROR ("Failed to fetch Google search page. Status code: "
                      ++ Py.str_of_int (status_code response)) ;;;
       ret None
     else first_imdb_link sanitized_name (hrefs response))
    (fun e =>
       logging ERROR ("Error during Google search for '" ++ sanitized_name
                      ++ "': " ++ exn_str e) ;;;
       raise e).

(** The decorated function; the [None] of the wrapper and the [None] of
    the body are the same value. *)
Definition fallback_search_imdb_id (c : Config) (web : Web)
           (sanitized_name : str) : M (option str) :=
  r <- retry (MAX_RETRIES c) (RETRY_DELAY c) "fallback_search_imdb_id"
             (fallback_search_imdb_id_body web sanitized_name) ;;
  ret (match r with Some imdb_id => imdb_id | None => None end).

(** A page of results whose first link leads elsewhere. *)
Definition results_page : Web := fun _ _ =>
  Return {| status_code := 200;
            hrefs := [ "https://www.example.org/heat" : str;
                       "/url?q=https://www.imdb.com/title/tt0113277/" : str ]
         |}.

(** Every rename that [c] asks of the operating system satisfies [ok]. *)
Definition renames_within {A} (ok : str * str -> Prop) (c : M A) : Prop :=
  forall w, exists l,
    renames (trace (snd (c w))) = renames (trace w) ++ l /\ Forall ok l.

(** A rename of [folder_path] to a safe name in the same directory. *)
Definition renames_in_place (folder_path : str) (r : str * str) : Prop :=
  fst r = folder_path
  /\ exists name,
      snd r = os_path_join (os_path_dirname folder_path) (safe_name name).
(** * Properties *)

(** ** Worked examples *)

Example sanitize_release_name :
  sanitize_folder_name (CONFIG 2026) "The.Matrix.1999.1080p.BluRay.x264-[YTS]"
  = ("The Matrix 1999" : str).
Proof. vm_compute. reflexivity. Qed.

Example safe_name_replaces_each_character :
  safe_name "Movie: Part 2 / Edition?" = ("Movie- Part 2 - Edition-" : str).
Proof. vm_compute. reflexivity. Qed.

Example already_named_accepts_both_separators :
  already_properly_named "The Matrix (1999) - IMDb- 8.7" = true
  /\ already_properly_named "The Matrix (1999) - IMDb: 8" = true
  /\ already_properly_named "The Matrix (1999) - IMDb- 8.7x" = false.
Proof. repeat split; vm_compute; reflexivity. Qed.

Example core_title_drops_markers :
  extract_core_title "Show season 2 Episode10 bluray h.264 480p 2010"
  = ("Show 2010" : str).
Proof. vm_compute. reflexivity. Qed.

Example year_match_dominates_votes :
  rank (Some ("1995" : str)) [Sample.heat_1986; Sample.heat_1995]
  = [Sample.heat_1995; Sample.heat_1986]
  /\ rank (Some ("1986" : str)) [Sample.heat_1986; Sample.heat_1995]
     = [Sample.heat_1986; Sample.heat_1995]
  /\ rank None [Sample.heat_1986; Sample.heat_1995]
     = [Sample.heat_1995; Sample.heat_1986].
Proof. repeat split; vm_compute; reflexivity. Qed.

Example dry_run_reports_without_renaming :
  let w := snd (main Sample.catalogue true (Sample.plain_folder [("1" : str)])) in
  base_dir w = base_dir (Sample.plain_folder [("1" : str)])
  /\ In (Print "Would rename 'D:\Test\Heat.1995.1080p' to 'D:\Test\Heat (1995) - IMDb- 8.3'")
        (trace w).
Proof. split; vm_compute; [reflexivity|tauto]. Qed.

Example custom_name_ends_the_run :
  fst (main Sample.catalogue false (Sample.plain_folder [("My Heat" : str)]))
  = Raise (KeyError "year").
Proof. vm_compute. reflexivity. Qed.

(** ** The retry decorator *)

Section RetryFacts.

Context {A : Type}.
Variables (name : str) (func : M A).

Lemma wrapper_loop_success max_retries delay remaining attempts w a w' :
  func w = (Return a, w') ->
  wrapper_loop max_retries delay name func (S remaining) attempts w
  = (Return (Some a), w').
Proof.
  intros Hf. simpl. unfold try_except, bind. rewrite Hf. reflexivity.
Qed.

Lemma wrapper_loop_last max_retries delay remaining attempts w e w' :
  func w = (Raise e, w') ->
  (max_retries <= S attempts)%nat ->
  wrapper_loop max_retries delay name func (S remaining) attempts w
  = (Raise e, w').
Proof.
  intros Hf Hle. simpl. unfold try_except, bind. rewrite Hf.
  apply Nat.leb_le in Hle. rewrite Hle. reflexivity.
Qed.

Lemma wrapper_loop_again max_retries delay remaining attempts w e w' :
  func w = (Raise e, w') ->
  (S attempts < max_retries)%nat ->
  wrapper_loop max_retries delay name func (S remaining) attempts w
  = wrapper_loop max_retries delay name func remaining (S attempts)
      (snd (backoff max_retries delay name e (S attempts) w')).
Proof.
  intros Hf Hlt. simpl. unfold try_except. unfold bind at 1. rewrite Hf.
  apply Nat.leb_gt in Hlt. rewrite Hlt. reflexivity.
Qed.

Lemma requests_backoff max_retries delay e attempts w :
  requests (snd (backoff max_retries delay name e attempts w)) = requests w.
Proof. reflexivity. Qed.

(** The loop calls [func] at most [remaining] times. *)
Lemma wrapper_loop_requests max_retries delay :
  (forall w, requests (snd (func w)) = S (requests w)) ->
  forall remaining attempts w,
    (requests (snd (wrapper_loop max_retries delay name func
                                 remaining attempts w))
     <= requests w + remaining)%nat.
Proof.
  intros Hone remaining.
  induction remaining as [|remaining IH]; intros attempts w.
  - simpl. lia.
  - simpl. unfold try_except. unfold bind at 1.
    specialize (Hone w). destruct (func w) as [[a|e] w'] eqn:Hf;
      simpl in Hone.
    + simpl. lia.
    + destruct (max_retries <=? S attempts)%nat.
      * simpl. lia.
      * change ((backoff max_retries delay name e (S attempts) ;;;
                 wrapper_loop max_retries delay name func remaining
                              (S attempts)) w')
          with (wrapper_loop max_retries delay name func remaining
                  (S attempts)
                  (snd (backoff max_retries delay name e (S attempts) w'))).
        specialize (IH (S attempts)
                      (snd (backoff max_retries delay name e (S attempts) w'))).
        rewrite requests_backoff in IH. lia.
Qed.

End RetryFacts.

(** C7.  With the default maximum of three attempts, an operation that
    fails twice and then succeeds has its result returned by the wrapper;
    if the third attempt fails too, its error (the last one) is raised to
    the caller; and the operation is attempted at most three times: the
    wrapper ends in the world the third attempt leaves, and an operation
    that sends one request per attempt has sent at most three. *)
Theorem retry_three_attempts {A : Type} (current_year : Z) (name : str)
        (func : M A) (w0 : World) :
  let max_retries := MAX_RETRIES (CONFIG current_year) in
  let delay := RETRY_DELAY (CONFIG current_year) in
  let pause e n w := snd (backoff max_retries delay name e n w) in
  (forall e1 w1 e2 w2 a w3,
      func w0 = (Raise e1, w1) ->
      func (pause e1 1%nat w1) = (Raise e2, w2) ->
      func (pause e2 2%nat w2) = (Return a, w3) ->
      retry max_retries delay name func w0 = (Return (Some a), w3))
  /\ (forall e1 w1 e2 w2 e3 w3,
      func w0 = (Raise e1, w1) ->
      func (pause e1 1%nat w1) = (Raise e2, w2) ->
      func (pause e2 2%nat w2) = (Raise e3, w3) ->
      retry max_retries delay name func w0 = (Raise e3, w3))
  /\ ((forall w, requests (snd (func w)) = S (requests w)) ->
      (requests (snd (retry max_retries delay name func w0))
       <= requests w0 + 3)%nat).
Proof.
  cbv zeta. change (MAX_RETRIES (CONFIG current_year)) with 3%nat.
  change (RETRY_DELAY (CONFIG current_year)) with 10%nat.
  unfold retry. repeat split.
  - intros e1 w1 e2 w2 a w3 H1 H2 H3.
    rewrite (wrapper_loop_again _ _ _ _ _ _ _ _ _ H1) by lia.
    rewrite (wrapper_loop_again _ _ _ _ _ _ _ _ _ H2) by lia.
    apply wrapper_loop_success. exact H3.
  - intros e1 w1 e2 w2 e3 w3 H1 H2 H3.
    rewrite (wrapper_loop_again _ _ _ _ _ _ _ _ _ H1) by lia.
    rewrite (wrapper_loop_again _ _ _ _ _ _ _ _ _ H2) by lia.
    apply wrapper_loop_last; [exact H3 | lia].
  - intros Hone. apply wrapper_loop_requests. exact Hone.
Qed.

Lemma retry_three_attempts_witness :
  fst (retry 3 10 "search_movie" (search_movie Sample.flaky "Heat 1995")
             (Sample.plain_folder []))
  = Return (Some [("tt0113277" : str)])
  /\ (requests (snd (retry 3 10 "search_movie"
                           (search_movie Sample.flaky "Heat 1995")
                           (Sample.plain_folder [])))
      <= requests (Sample.plain_folder []) + 3)%nat.
Proof.
  destruct (retry_three_attempts 2026 "search_movie"
              (search_movie Sample.flaky "Heat 1995")
              (Sample.plain_folder [])) as [Hok [_ Hcount]].
  change (MAX_RETRIES (CONFIG 2026)) with 3%nat in Hok, Hcount.
  change (RETRY_DELAY (CONFIG 2026)) with 10%nat in Hok, Hcount.
  split.
  - erewrite Hok; [reflexivity|reflexivity|reflexivity|reflexivity].
  - apply Hcount. intros w. reflexivity.
Defined.

(** ** Ranking *)

Section SortFacts.

Context {A K : Type}.
Variables (key : A -> K) (lt : K -> K -> bool).

Hypothesis lt_asym : forall a b, lt a b = true -> lt b a = false.
Hypothesis lt_negtrans :
  forall a b c, lt a b = false -> lt b c = false -> lt a c = false.

Lemma insert_perm x l : Permutation (insert key lt x l) (x :: l).
Proof.
  induction l as [|y l IH]; simpl; [reflexivity|].
  destruct (lt (key y) (key x)); [|reflexivity].
  rewrite IH. apply perm_swap.
Qed.

Lemma list_sort_perm l : Permutation (list_sort key lt l) l.
Proof.
  induction l as [|x l IH]; simpl; [reflexivity|].
  rewrite insert_perm. now constructor.
Qed.

Lemma insert_sorted x l :
  StronglySorted (not_below key lt) l -> StronglySorted (not_below key lt) (insert key lt x l).
Proof.
  induction 1 as [|y l Hs IH Hall]; simpl.
  - repeat constructor.
  - destruct (lt (key y) (key x)) eqn:E.
    + constructor; [exact IH|].
      apply Forall_forall. intros z Hz.
      apply (Permutation_in _ (insert_perm x l)) in Hz.
      destruct Hz as [<-|Hz].
      * unfold not_below. now apply lt_asym.
      * rewrite Forall_forall in Hall. now apply Hall.
    + constructor; [now constructor|].
      constructor; [exact E|].
      apply Forall_forall. intros z Hz. unfold not_below.
      rewrite Forall_forall in Hall. specialize (Hall z Hz).
      unfold not_below in Hall. eapply lt_negtrans; eassumption.
Qed.

Lemma list_sort_sorted l : StronglySorted (not_below key lt) (list_sort key lt l).
Proof.
  induction l as [|x l IH]; simpl; [constructor|].
  now apply insert_sorted.
Qed.

(** Stability: elements that do not compare keep their order. *)
Lemma insert_filter (p : A -> bool) x l :
  (forall a b, p a = true -> p b = true -> lt (key a) (key b) = false) ->
  filter p (insert key lt x l) = filter p (x :: l).
Proof.
  intros Hp. induction l as [|y l IH]; simpl; [reflexivity|].
  destruct (lt (key y) (key x)) eqn:E; [|reflexivity].
  simpl. rewrite IH. simpl.
  destruct (p x) eqn:Px, (p y) eqn:Py; try reflexivity.
  rewrite (Hp y x Py Px) in E. discriminate.
Qed.

Lemma list_sort_stable (p : A -> bool) l :
  (forall a b, p a = true -> p b = true -> lt (key a) (key b) = false) ->
  filter p (list_sort key lt l) = filter p l.
Proof.
  intros Hp. induction l as [|x l IH]; simpl; [reflexivity|].
  rewrite insert_filter by exact Hp. simpl. now rewrite IH.
Qed.

End SortFacts.

Lemma StronglySorted_weaken {A} (R R' : A -> A -> Prop) l :
  (forall a b, R a b -> R' a b) -> StronglySorted R l -> StronglySorted R' l.
Proof.
  intros HR. induction 1 as [|x l Hs IH Hall]; constructor; [exact IH|].
  eapply Forall_impl; [|exact Hall]. intros b. apply HR.
Qed.

Lemma tuple_lt_asym a b : tuple_lt b a = true -> tuple_lt a b = false.
Proof.
  destruct a as [[] x], b as [[] y]; unfold tuple_lt; simpl;
    rewrite ?Z.ltb_lt, ?Z.ltb_ge; intros; try discriminate; try reflexivity; lia.
Qed.

Lemma tuple_lt_negtrans a b c :
  tuple_lt b a = false -> tuple_lt c b = false -> tuple_lt c a = false.
Proof.
  destruct a as [[] x], b as [[] y], c as [[] z]; unfold tuple_lt; simpl;
    rewrite ?Z.ltb_ge; intros; try discriminate; try reflexivity; lia.
Qed.

Lemma not_below_outranks target a b :
  not_below (fun x => (eq_int (year x) target, votes x))
            (fun p q => tuple_lt q p) a b ->
  outranks target a b.
Proof.
  unfold not_below, outranks, year_matches, tuple_lt. simpl.
  destruct (eq_int (year a) target), (eq_int (year b) target); simpl;
    rewrite ?Z.ltb_ge; intros H; try discriminate; auto.
Qed.

Lemma same_keys_incomparable target m v a b :
  same_keys target m v a = true -> same_keys target m v b = true ->
  tuple_lt (eq_int (year b) target, votes b)
           (eq_int (year a) target, votes a) = false.
Proof.
  unfold same_keys, year_matches, tuple_lt. simpl.
  intros [Ha Va]%andb_prop [Hb Vb]%andb_prop.
  apply Bool.eqb_prop in Ha, Hb. apply Z.eqb_eq in Va, Vb.
  rewrite Ha, Hb, Va, Vb, Z.ltb_irrefl. now destruct m.
Qed.

(** C3.  The ranking of [main] with a target year is a rearrangement of
    the candidates in which a candidate whose year equals the target
    stands before one whose year does not, and among candidates equal on
    that key the one with more votes stands first; candidates equal on
    both keys keep the order of the input; a candidate whose year is
    unknown (a string) never matches; and without a target year the order
    is by votes, descending, again keeping the input order among equals. *)
Theorem rank_order (choices : list details) :
  (forall y : str,
      let target := Py.int_of_digits y in
      Permutation (rank (Some y) choices) choices
      /\ StronglySorted (outranks target) (rank (Some y) choices)
      /\ forall m v,
          filter (same_keys target m v) (rank (Some y) choices)
          = filter (same_keys target m v) choices)
  /\ (forall target c s, year c = VStr s -> year_matches target c = false)
  /\ (Permutation (rank None choices) choices
      /\ StronglySorted (fun a b => (votes b <= votes a)%Z) (rank None choices)
      /\ forall v,
          filter (fun c => (votes c =? v)%Z) (rank None choices)
          = filter (fun c => (votes c =? v)%Z) choices).
Proof.
  split; [|split].
  - intros y target. unfold rank, list_sort_reverse. fold target.
    split; [apply list_sort_perm|split].
    + eapply StronglySorted_weaken;
        [|apply list_sort_sorted;
          [intros a b; apply tuple_lt_asym
          |intros a b c; apply tuple_lt_negtrans]].
      intros a b. apply not_below_outranks.
    + intros m v. apply list_sort_stable.
      intros a b Ha Hb. eapply same_keys_incomparable; eassumption.
  - intros target c s Hy. unfold year_matches. now rewrite Hy.
  - unfold rank, list_sort_reverse.
    split; [apply list_sort_perm|split].
    + eapply StronglySorted_weaken;
        [|apply list_sort_sorted;
          [intros a b H; apply Z.ltb_lt in H; apply Z.ltb_ge; lia
          |intros a b c H1 H2; apply Z.ltb_ge in H1, H2; apply Z.ltb_ge; lia]].
      intros a b H. unfold not_below in H. now apply Z.ltb_ge in H.
    + intros v. apply list_sort_stable.
      intros a b Ha Hb. apply Z.eqb_eq in Ha, Hb. rewrite Ha, Hb.
      apply Z.ltb_irrefl.
Qed.

(** ** The main loop *)

Lemma main_loop_raise env dry_run folder rest w e w' :
  process_folder env dry_run folder w = (Raise e, w') ->
  main_loop env dry_run (folder :: rest) w = (Raise e, w').
Proof. intros H. simpl. unfold bind. now rewrite H. Qed.

Lemma world_eta w :
  set_world (base_dir w) (stdin w) (requests w) (trace w ++ []) = w.
Proof. destruct w; unfold set_world; simpl. now rewrite app_nil_r. Qed.

Lemma process_folder_skip env dry_run folder w :
  already_properly_named folder = true ->
  exists logs,
    process_folder env dry_run folder w
    = (Return tt,
       set_world (base_dir w) (stdin w) (requests w) (trace w ++ logs))
    /\ Forall is_info_log logs.
Proof.
  intros Hnamed. unfold process_folder, bind, os_path_isdir.
  destruct (existsb _ _); simpl.
  - rewrite Hnamed. eexists. split; [reflexivity|].
    constructor; [|constructor]. eexists. reflexivity.
  - exists []. split; [|constructor]. now rewrite world_eta.
Qed.

(** C10.  A folder whose name already matches the pattern of
    [already_properly_named] is left alone by the loop body: no request
    goes to the catalogue, nothing is read from the operator, the
    directory is unchanged (no rename), and the only events are entries of
    the log at level INFO. *)
Theorem already_named_folder_untouched env dry_run folder w :
  already_properly_named folder = true ->
  exists logs,
    process_folder env dry_run folder w
    = (Return tt,
       set_world (base_dir w) (stdin w) (requests w) (trace w ++ logs))
    /\ Forall is_info_log logs.
Proof. apply process_folder_skip. Qed.

Lemma already_named_folder_untouched_witness :
  exists logs,
    process_folder Sample.catalogue false "Alien (1979) - IMDb- 8.5"
                   Sample.renamed_folder
    = (Return tt,
       set_world (base_dir Sample.renamed_folder) (stdin Sample.renamed_folder)
                 (requests Sample.renamed_folder)
                 (trace Sample.renamed_folder ++ logs))
    /\ Forall is_info_log logs.
Proof.
  apply (already_named_folder_untouched Sample.catalogue false
           "Alien (1979) - IMDb- 8.5" Sample.renamed_folder).
  vm_compute. reflexivity.
Defined.

(** ** The prompt and the rename *)

Lemma only_emits_emit e : only_emits (emit e).
Proof. intros w. exists [e]. reflexivity. Qed.

Lemma only_emits_ret : only_emits (ret tt).
Proof. intros w. exists []. unfold ret. now rewrite world_eta. Qed.

Lemma only_emits_seq c1 c2 :
  only_emits c1 -> only_emits c2 -> only_emits (c1 ;;; c2).
Proof.
  intros H1 H2 w. destruct (H1 w) as [ev1 E1].
  destruct (H2 (set_world (base_dir w) (stdin w) (requests w)
                          (trace w ++ ev1))) as [ev2 E2].
  exists (ev1 ++ ev2). unfold bind. rewrite E1, E2. simpl.
  now rewrite app_assoc.
Qed.

Lemma only_emits_print_choices i choices : only_emits (print_choices i choices).
Proof.
  revert i. induction choices as [|c rest IH]; intros i; simpl.
  - apply only_emits_ret.
  - apply only_emits_seq; [apply only_emits_emit | apply IH].
Qed.

Lemma seq_only_emits {B} (c : M unit) (k : M B) w :
  only_emits c ->
  exists evs,
    (c ;;; k) w
    = k (set_world (base_dir w) (stdin w) (requests w) (trace w ++ evs)).
Proof.
  intros H. destruct (H w) as [evs E]. exists evs.
  unfold bind. now rewrite E.
Qed.

Lemma prompt_user_choice_menu env choices w :
  exists evs,
    prompt_user_choice env choices w
    = prompt_loop env choices (stdin w)
        (set_world (base_dir w) (stdin w) (requests w) (trace w ++ evs)).
Proof.
  unfold prompt_user_choice.
  destruct (seq_only_emits
              (print ("010"%char :: "Please choose one of the following options:") ;;;
               print_choices 1 choices ;;;
               print (str_of_nat (List.length choices + 1)
                      ++ ". Enter a custom name"))
              (fun w0 => prompt_loop env choices (stdin w0) w0) w) as [evs E].
  { repeat apply only_emits_seq; try apply only_emits_emit.
    apply only_emits_print_choices. }
  exists evs. etransitivity; [|exact E]. unfold bind.
  destruct (print _ w) as [[[]|e] w1]; [|reflexivity].
  destruct (print_choices 1 choices w1) as [[[]|e] w2]; reflexivity.
Qed.

Lemma input_line prompt line rest w :
  stdin w = line :: rest ->
  input prompt w
  = (Return line,
     set_world (base_dir w) rest (requests w) (trace w ++ [Input prompt])).
Proof. intros H. unfold input. now rewrite H. Qed.

Lemma prompt_loop_custom env choices typed name rest w :
  selects_custom env choices typed name ->
  stdin w = typed ++ rest ->
  exists evs,
    prompt_loop env choices (typed ++ rest) w
    = (Return (Custom name),
       set_world (base_dir w) rest (requests w) (trace w ++ evs)).
Proof.
  intros Hsel Hin. destruct Hsel as [line Hne Hnum | line line' Hnum Hval Hne].
  - simpl in *. unfold bind. rewrite (input_line _ _ _ _ Hin).
    rewrite Hnum. destruct (Py.strip line) as [|c s]; [congruence|].
    eexists. reflexivity.
  - simpl in *. unfold bind at 1. rewrite (input_line _ _ _ _ Hin).
    rewrite Hnum, Hval.
    replace ((Z.of_nat (List.length choices) + 1
              <=? Z.of_nat (List.length choices))%Z) with false
      by (symmetry; apply Z.leb_gt; lia).
    rewrite andb_false_r, Z.eqb_refl.
    unfold bind. erewrite input_line by reflexivity.
    destruct (Py.strip line') as [|c s]; [congruence|].
    eexists. unfold set_world; simpl. rewrite <- app_assoc. reflexivity.
Qed.

Lemma rename_folder_custom env folder_path name dry_run w :
  rename_folder env folder_path (Custom name) dry_run w
  = (Raise (KeyError "year"), w).
Proof. reflexivity. Qed.

Lemma os_path_isdir_dir folder entries w :
  base_dir w = Some entries -> In (folder, true) entries ->
  os_path_isdir folder w = (Return true, w).
Proof.
  intros Hb Hin. unfold os_path_isdir. rewrite Hb. simpl. do 2 f_equal.
  apply existsb_exists. exists (folder, true). split; [exact Hin|].
  simpl. unfold Py.str_eqb.
  destruct (list_eq_dec ascii_dec folder folder); [reflexivity|congruence].
Qed.

Lemma choose_and_rename_custom env dry_run folder_path choices w name w' :
  prompt_user_choice env choices w = (Return (Custom name), w') ->
  choose_and_rename env dry_run folder_path choices w
  = (Raise (KeyError "year"), w').
Proof.
  intros H. unfold choose_and_rename, bind. rewrite H.
  apply rename_folder_custom.
Qed.

(** *** Computations that show no menu *)

Lemma nm_ret {A} (a : A) : shows_no_menu (ret a).
Proof. intros w. exists []. now rewrite app_nil_r. Qed.

Lemma nm_raise {A} e : shows_no_menu (@raise A e).
Proof. intros w. exists []. now rewrite app_nil_r. Qed.

Lemma nm_bind {A B} (c : M A) (k : A -> M B) :
  shows_no_menu c -> (forall a, shows_no_menu (k a)) ->
  shows_no_menu (bind c k).
Proof.
  intros Hc Hk w. unfold bind. destruct (Hc w) as (l1 & E1 & F1).
  destruct (c w) as [[a|e] w1]; simpl in *; [|now exists l1].
  destruct (Hk a w1) as (l2 & E2 & F2). exists (l1 ++ l2).
  rewrite E2, E1, app_assoc. split; [reflexivity|now apply Forall_app].
Qed.

Lemma nm_try {A} (body : M A) handler :
  shows_no_menu body -> (forall e, shows_no_menu (handler e)) ->
  shows_no_menu (try_except body handler).
Proof.
  intros Hc Hk w. unfold try_except. destruct (Hc w) as (l1 & E1 & F1).
  destruct (body w) as [[a|e] w1]; simpl in *; [now exists l1|].
  destruct (Hk e w1) as (l2 & E2 & F2). exists (l1 ++ l2).
  rewrite E2, E1, app_assoc. split; [reflexivity|now apply Forall_app].
Qed.

Lemma nm_emit e : not_menu e -> shows_no_menu (emit e).
Proof.
  intros He w. exists [e]. split; [reflexivity|]. now constructor.
Qed.

Lemma nm_print msg : shows_no_menu (print msg).
Proof. apply nm_emit. discriminate. Qed.

Lemma nm_logging lvl msg : shows_no_menu (logging lvl msg).
Proof. apply nm_emit. discriminate. Qed.

Lemma nm_sleep n : shows_no_menu (time_sleep n).
Proof. apply nm_emit. discriminate. Qed.

Lemma nm_input prompt : prompt <> menu_prompt -> shows_no_menu (input prompt).
Proof.
  intros Hp w. unfold input. destruct (stdin w).
  - exists []. now rewrite app_nil_r.
  - exists [Input prompt]. split; [reflexivity|].
    constructor; [|constructor]. intros [= H]. now apply Hp.
Qed.

Lemma nm_search_movie env query : shows_no_menu (search_movie env query).
Proof.
  intros w. exists [SearchMovie query]. split; [reflexivity|].
  constructor; [discriminate|constructor].
Qed.

Lemma nm_get_movie env movieID : shows_no_menu (get_movie env movieID).
Proof.
  intros w. exists [GetMovie movieID]. split; [reflexivity|].
  constructor; [discriminate|constructor].
Qed.

Lemma nm_isdir folder : shows_no_menu (os_path_isdir folder).
Proof. intros w. exists []. now rewrite app_nil_r. Qed.

Lemma nm_submit {A} (task : M A) :
  shows_no_menu task -> shows_no_menu (submit task).
Proof.
  intros H w. unfold submit. specialize (H w). now destruct (task w).
Qed.

Ltac nm_step :=
  match goal with
  | |- shows_no_menu (bind _ _) => apply nm_bind; [|intros]
  | |- shows_no_menu (try_except _ _) => apply nm_try; [|intros]
  | |- shows_no_menu (ret _) => apply nm_ret
  | |- shows_no_menu (raise _) => apply nm_raise
  | |- shows_no_menu (print _) => apply nm_print
  | |- shows_no_menu (logging _ _) => apply nm_logging
  | |- shows_no_menu (time_sleep _) => apply nm_sleep
  | |- shows_no_menu (search_movie _ _) => apply nm_search_movie
  | |- shows_no_menu (get_movie _ _) => apply nm_get_movie
  | |- shows_no_menu (os_path_isdir _) => apply nm_isdir
  | |- shows_no_menu (submit _) => apply nm_submit
  | |- shows_no_menu (if ?b then _ else _) => destruct b
  | |- shows_no_menu (match ?x with _ => _ end) => destruct x
  end.

Lemma nm_wrapper_loop {A} max_retries delay name (func : M A) :
  shows_no_menu func ->
  forall remaining attempts,
    shows_no_menu (wrapper_loop max_retries delay name func
                                remaining attempts).
Proof.
  intros Hf. induction remaining as [|remaining IH]; intros attempts; simpl.
  - apply nm_ret.
  - unfold backoff. repeat nm_step; auto.
Qed.

Lemma nm_fetch_movie_details env movieID :
  shows_no_menu (fetch_movie_details env movieID).
Proof.
  unfold fetch_movie_details, retry. apply nm_wrapper_loop.
  unfold fetch_movie_details_body. repeat nm_step.
Qed.

Lemma nm_run_pool env search_results :
  shows_no_menu (run_pool env search_results).
Proof.
  induction search_results as [|result rest IH]; simpl.
  - apply nm_ret.
  - repeat nm_step; auto. apply nm_fetch_movie_details.
Qed.

Lemma nm_collect futures : forall found,
  shows_no_menu (collect futures found).
Proof.
  induction futures as [|[[d|]|e] rest IH]; intros found; simpl; auto.
  - apply nm_ret.
  - apply nm_raise.
Qed.

Lemma nm_get_movie_details env movie_name :
  shows_no_menu (get_movie_details env movie_name).
Proof.
  unfold get_movie_details, retry. apply nm_wrapper_loop.
  unfold get_movie_details_body.
  repeat nm_step; auto using nm_run_pool, nm_collect.
Qed.

Lemma nm_iterate search_results : shows_no_menu (iterate search_results).
Proof. unfold iterate. destruct search_results; [apply nm_ret|apply nm_raise]. Qed.

(** *** The loop body has no handler around the choice and the rename *)

Section NoHandler.

Variables (env : Env) (dry_run : bool) (folder_path : str).

Lemma ends_of_nm (c : M unit) :
  shows_no_menu c -> ends_with_the_choice env dry_run folder_path c.
Proof. intros H w. left. apply H. Qed.

Lemma ends_after {A} (c : M A) (k : A -> M unit) :
  shows_no_menu c ->
  (forall a, ends_with_the_choice env dry_run folder_path (k a)) ->
  ends_with_the_choice env dry_run folder_path (bind c k).
Proof.
  intros Hc Hk w. unfold bind. destruct (Hc w) as (l1 & E1 & F1).
  destruct (c w) as [[a|e] w1]; cbn [fst snd] in *; [|left; now exists l1].
  destruct (Hk a w1) as [(l2 & E2 & F2)|(choices & w2 & l2 & E2 & F2 & E)].
  - left. exists (l1 ++ l2). rewrite E2, E1, app_assoc.
    split; [reflexivity|now apply Forall_app].
  - right. exists choices, w2, (l1 ++ l2). rewrite E2, E1, app_assoc.
    split; [reflexivity|]. split; [now apply Forall_app|exact E].
Qed.

Lemma ends_choose_and_rename choices :
  ends_with_the_choice env dry_run folder_path
    (choose_and_rename env dry_run folder_path choices).
Proof.
  intros w. right. exists choices, w, []. rewrite app_nil_r.
  split; [reflexivity|]. split; [constructor|reflexivity].
Qed.

Lemma stage_of_nm (c : M bool) :
  shows_no_menu c -> (forall w, fst (c w) <> Return true) ->
  stage_ends_with_the_choice env dry_run folder_path c.
Proof. intros H Hf w. left. split; [apply H|apply Hf]. Qed.

Lemma stage_after {A} (c : M A) (k : A -> M bool) :
  shows_no_menu c ->
  (forall a, stage_ends_with_the_choice env dry_run folder_path (k a)) ->
  stage_ends_with_the_choice env dry_run folder_path (bind c k).
Proof.
  intros Hc Hk w. unfold bind. destruct (Hc w) as (l1 & E1 & F1).
  destruct (c w) as [[a|e] w1]; cbn [fst snd] in *.
  - destruct (Hk a w1)
      as [[(l2 & E2 & F2) Hr]|(choices & w2 & l2 & E2 & F2 & E)].
    + left. split; [|exact Hr]. exists (l1 ++ l2). rewrite E2, E1, app_assoc.
      split; [reflexivity|now apply Forall_app].
    + right. exists choices, w2, (l1 ++ l2). rewrite E2, E1, app_assoc.
      split; [reflexivity|]. split; [now apply Forall_app|exact E].
  - left. split; [now exists l1|discriminate].
Qed.

Lemma stage_retry_with query :
  stage_ends_with_the_choice env dry_run folder_path
    (retry_with env dry_run folder_path query).
Proof.
  unfold retry_with.
  apply stage_after; [apply nm_get_movie_details|intros search_results].
  apply stage_after; [apply nm_iterate|intros choices].
  destruct choices as [|c l].
  - apply stage_of_nm; [apply nm_ret|discriminate].
  - intros w. right. exists (c :: l), w, []. rewrite app_nil_r.
    split; [reflexivity|]. split; [constructor|reflexivity].
Qed.

(** A stage and what follows it when the stage has not settled the
    folder. *)
Lemma ends_stage (c : M bool) (next : M unit) :
  stage_ends_with_the_choice env dry_run folder_path c ->
  ends_with_the_choice env dry_run folder_path next ->
  ends_with_the_choice env dry_run folder_path
    (done <- c ;; if done : bool then ret tt else next).
Proof.
  intros Hc Hn w. unfold bind.
  destruct (Hc w)
    as [[(l1 & E1 & F1) Hr]|(choices & w1 & l1 & E1 & F1 & E)].
  - destruct (c w) as [[[|]|e] w2]; cbn [fst snd] in *.
    + congruence.
    + destruct (Hn w2)
        as [(l2 & E2 & F2)|(choices & w3 & l2 & E2 & F2 & E)].
      * left. exists (l1 ++ l2). rewrite E2, E1, app_assoc.
        split; [reflexivity|now apply Forall_app].
      * right. exists choices, w3, (l1 ++ l2). rewrite E2, E1, app_assoc.
        split; [reflexivity|]. split; [now apply Forall_app|exact E].
    + left. now exists l1.
  - right. exists choices, w1, l1. split; [exact E1|]. split; [exact F1|].
    rewrite E. unfold bind.
    now destruct (choose_and_rename env dry_run folder_path choices w1)
      as [[[]|e] w2].
Qed.

Lemma ends_last_stage (c : M bool) :
  stage_ends_with_the_choice env dry_run folder_path c ->
  ends_with_the_choice env dry_run folder_path (c ;;; ret tt).
Proof.
  intros Hc w. unfold bind.
  destruct (Hc w)
    as [[(l1 & E1 & F1) Hr]|(choices & w1 & l1 & E1 & F1 & E)].
  - left. exists l1. split; [|exact F1].
    now destruct (c w) as [[b|e] w2].
  - right. exists choices, w1, l1. split; [exact E1|]. split; [exact F1|].
    rewrite E. unfold bind.
    now destruct (choose_and_rename env dry_run folder_path choices w1)
      as [[[]|e] w2].
Qed.

Lemma stage_if (b : bool) msg1 msg2 query :
  stage_ends_with_the_choice env dry_run folder_path
    (if b then
       print msg1 ;;; logging INFO msg2 ;;;
       retry_with env dry_run folder_path query
     else ret false).
Proof.
  destruct b; [|apply stage_of_nm; [apply nm_ret|discriminate]].
  apply stage_after; [apply nm_print|intros _].
  apply stage_after; [apply nm_logging|intros _].
  apply stage_retry_with.
Qed.

Lemma ends_final_fallback sanitized_name :
  ends_with_the_choice env dry_run folder_path
    (final_fallback env dry_run folder_path sanitized_name).
Proof.
  unfold final_fallback.
  apply ends_after; [apply nm_print|intros _].
  apply ends_after; [apply nm_input; discriminate|intros line].
  destruct (Py.str_eqb _ _); [|apply ends_of_nm, nm_ret].
  apply ends_after; [apply nm_input; discriminate|intros line'].
  destruct (Py.strip line').
  - apply ends_of_nm. repeat nm_step.
  - apply ends_after; [apply nm_print|intros _].
    apply ends_after; [apply nm_logging|intros _].
    apply ends_last_stage, stage_retry_with.
Qed.

Lemma ends_core_title_stage sanitized_name simplified_name :
  ends_with_the_choice env dry_run folder_path
    (core_title_stage env dry_run folder_path sanitized_name simplified_name).
Proof.
  unfold core_title_stage.
  apply ends_stage; [apply stage_if|apply ends_final_fallback].
Qed.

Lemma ends_simplified_stage sanitized_name :
  ends_with_the_choice env dry_run folder_path
    (simplified_stage env dry_run folder_path sanitized_name).
Proof.
  unfold simplified_stage.
  apply ends_stage; [apply stage_if|apply ends_core_title_stage].
Qed.

End NoHandler.

Lemma ends_process_folder env dry_run folder :
  ends_with_the_choice env dry_run
    (os_path_join (BASE_PATH (cfg env)) folder)
    (process_folder env dry_run folder).
Proof.
  unfold process_folder.
  apply ends_after; [apply nm_isdir|intros isdir].
  destruct (negb isdir); [apply ends_of_nm, nm_ret|].
  destruct (already_properly_named folder); [apply ends_of_nm, nm_logging|].
  apply ends_after; [apply nm_print|intros _].
  apply ends_after; [apply nm_logging|intros _].
  apply ends_after; [apply nm_print|intros _].
  apply ends_after; [apply nm_logging|intros _].
  apply ends_after; [apply nm_get_movie_details|intros results].
  apply ends_after; [apply nm_iterate|intros choices].
  destruct (rank _ choices);
    [apply ends_simplified_stage|apply ends_choose_and_rename].
Qed.

(** The loop body up to the first menu. *)
Lemma process_folder_first_menu env dry_run folder w entries l w1 :
  base_dir w = Some entries -> In (folder, true) entries ->
  already_properly_named folder = false ->
  get_movie_details env (sanitized_with_year env folder)
    (set_world (base_dir w) (stdin w) (requests w)
       (trace w ++ announced folder (sanitized_with_year env folder)))
  = (Return (Some l), w1) ->
  l <> [] ->
  process_folder env dry_run folder w
  = choose_and_rename env dry_run (os_path_join (BASE_PATH (cfg env)) folder)
      (rank (extract_year (cfg env) folder) l) w1.
Proof.
  intros Hb Hin Hn Hg Hl.
  unfold process_folder. unfold bind at 1.
  rewrite (os_path_isdir_dir _ _ _ Hb Hin). cbv [negb]. rewrite Hn.
  do 4 (unfold bind at 1; unfold print, logging, emit).
  cbn [base_dir stdin requests trace]. unfold bind at 1.
  match goal with
  | |- context [get_movie_details _ _ ?w0] =>
      replace w0
        with (set_world (base_dir w) (stdin w) (requests w)
                (trace w ++ announced folder (sanitized_with_year env folder)))
        by (unfold set_world, announced; f_equal;
            now rewrite <- !app_assoc)
  end.
  rewrite Hg. unfold bind at 1. unfold iterate, ret at 1.
  assert (Hr : rank (extract_year (cfg env) folder) l <> []).
  { intros E. apply Hl. apply Permutation_nil. rewrite <- E.
    unfold rank, list_sort_reverse.
    destruct (extract_year (cfg env) folder); apply list_sort_perm. }
  destruct (rank (extract_year (cfg env) folder) l); [congruence|reflexivity].
Qed.

Lemma main_raise env dry_run folder folders w entries e w' :
  base_dir w = Some entries -> map fst entries = folder :: folders ->
  process_folder env dry_run folder w = (Raise e, w') ->
  main env dry_run w = (Raise e, w').
Proof.
  intros Hb Hm H. unfold main. rewrite Hb, Hm. now apply main_loop_raise.
Qed.

(** C4.  When the operator picks the custom-name option (by typing a text
    that is not a number, or the number of the extra menu entry followed
    by a name), [prompt_user_choice] returns the dict with the title and
    the custom flag only: subscripting it with "year" or "rating" raises
    [KeyError].  [rename_folder] applied to it raises [KeyError] on the
    year before it does anything, in dry-run mode too, so the choice and
    the rename raise whenever the prompt has returned a custom name.
    Nothing catches the error: a loop body that shows a menu, at any of
    its four prompts, ends as the answer to that menu dictates, with
    [KeyError] for a custom name; and what the loop body raises ends the
    loop and [main].  For a folder whose first search finds
    candidates, the custom selection at the first menu ends the loop body,
    the loop and the run with [KeyError]. *)
Theorem custom_choice_breaks_rename (env : Env) (dry_run : bool) :
  (forall choices typed name rest w,
      selects_custom env choices typed name ->
      stdin w = typed ++ rest ->
      exists w',
        prompt_user_choice env choices w = (Return (Custom name), w')
        /\ stdin w' = rest
        /\ base_dir w' = base_dir w)
  /\ (forall name,
         getitem (Custom name) "year" = Raise (KeyError "year")
         /\ getitem (Custom name) "rating" = Raise (KeyError "rating"))
  /\ (forall folder_path name w,
         rename_folder env folder_path (Custom name) dry_run w
         = (Raise (KeyError "year"), w))
  /\ (forall folder_path choices w name w',
         prompt_user_choice env choices w = (Return (Custom name), w') ->
         choose_and_rename env dry_run folder_path choices w
         = (Raise (KeyError "year"), w'))
  /\ (forall folder w,
         (exists evs,
             trace (snd (process_folder env dry_run folder w))
             = trace w ++ evs
             /\ Forall not_menu evs)
         \/ exists choices w1 evs,
             trace w1 = trace w ++ evs /\ Forall not_menu evs /\
             match prompt_user_choice env choices w1 with
             | (Return (Custom name), w2) =>
                 process_folder env dry_run folder w
                 = (Raise (KeyError "year"), w2)
             | (Return (Candidate c), w2) =>
                 process_folder env dry_run folder w
                 = rename_folder env
                     (os_path_join (BASE_PATH (cfg env)) folder)
                     (Candidate c) dry_run w2
             | (Raise e, w2) =>
                 process_folder env dry_run folder w = (Raise e, w2)
             end)
  /\ (forall folder folders w e w',
         process_folder env dry_run folder w = (Raise e, w') ->
         main_loop env dry_run (folder :: folders) w = (Raise e, w')
         /\ forall entries,
             base_dir w = Some entries ->
             map fst entries = folder :: folders ->
             main env dry_run w = (Raise e, w'))
  /\ (forall folder folders entries w l w1 typed name rest,
         base_dir w = Some entries -> In (folder, true) entries ->
         already_properly_named folder = false ->
         get_movie_details env (sanitized_with_year env folder)
           (set_world (base_dir w) (stdin w) (requests w)
              (trace w ++ announced folder (sanitized_with_year env folder)))
         = (Return (Some l), w1) ->
         l <> [] ->
         selects_custom env (rank (extract_year (cfg env) folder) l)
                        typed name ->
         stdin w1 = typed ++ rest ->
         exists w',
           process_folder env dry_run folder w
           = (Raise (KeyError "year"), w')
           /\ stdin w' = rest
           /\ main_loop env dry_run (folder :: folders) w
              = (Raise (KeyError "year"), w')
           /\ (map fst entries = folder :: folders ->
               main env dry_run w = (Raise (KeyError "year"), w'))).
Proof.
  assert (Hprompt : forall choices typed name rest w,
             selects_custom env choices typed name ->
             stdin w = typed ++ rest ->
             exists w',
               prompt_user_choice env choices w = (Return (Custom name), w')
               /\ stdin w' = rest
               /\ base_dir w' = base_dir w).
  { intros choices typed name rest w Hsel Hin.
    destruct (prompt_user_choice_menu env choices w) as [ev1 E1].
    rewrite Hin in E1.
    destruct (prompt_loop_custom env choices typed name rest
                (set_world (base_dir w) (typed ++ rest) (requests w)
                           (trace w ++ ev1)) Hsel eq_refl) as [ev2 E2].
    rewrite E2 in E1.
    eexists. split; [exact E1|]. split; reflexivity. }
  split; [exact Hprompt|].
  split; [intros name; split; reflexivity|].
  split; [intros; apply rename_folder_custom|].
  split; [intros folder_path choices w name w';
          apply choose_and_rename_custom|].
  split; [|split].
  - intros folder w.
    destruct (ends_process_folder env dry_run folder w)
      as [H|(choices & w1 & evs & E1 & F1 & E)]; [now left|].
    right. exists choices, w1, evs.
    split; [exact E1|]. split; [exact F1|]. rewrite E.
    unfold choose_and_rename, bind.
    destruct (prompt_user_choice env choices w1) as [[[c|name]|e] w2];
      reflexivity.
  - intros folder folders w e w' H.
    split; [now apply main_loop_raise|].
    intros entries Hb Hm. now apply (main_raise env dry_run folder folders w entries).
  - intros folder folders entries w l w1 typed name rest
           Hb Hin Hn Hg Hl Hsel Hstdin.
    destruct (Hprompt _ typed name rest w1 Hsel Hstdin) as (w' & Hp & Hs & _).
    assert (E : process_folder env dry_run folder w
                = (Raise (KeyError "year"), w')).
    { rewrite (process_folder_first_menu env dry_run folder w entries l w1
                 Hb Hin Hn Hg Hl).
      eapply choose_and_rename_custom. exact Hp. }
    exists w'. split; [exact E|]. split; [exact Hs|].
    split; [now apply main_loop_raise|].
    intros Hm. now apply (main_raise env dry_run folder folders w entries).
Qed.

Lemma custom_choice_breaks_rename_witness :
  exists w',
    main Sample.catalogue false
         (Sample.plain_folder [("3" : str); ("My Heat" : str)])
    = (Raise (KeyError "year"), w')
    /\ stdin w' = [].
Proof.
  destruct (custom_choice_breaks_rename Sample.catalogue false)
    as (_ & _ & _ & _ & _ & _ & H).
  destruct (H "Heat.1995.1080p" [] [("Heat.1995.1080p" : str, true)]
              (Sample.plain_folder [("3" : str); ("My Heat" : str)])
              [Sample.heat_1986; Sample.heat_1995]
              (snd (get_movie_details Sample.catalogue
                      (sanitized_with_year Sample.catalogue "Heat.1995.1080p")
                      (set_world
                         (base_dir (Sample.plain_folder
                                      [("3" : str); ("My Heat" : str)]))
                         (stdin (Sample.plain_folder
                                   [("3" : str); ("My Heat" : str)]))
                         (requests (Sample.plain_folder
                                      [("3" : str); ("My Heat" : str)]))
                         (trace (Sample.plain_folder
                                   [("3" : str); ("My Heat" : str)])
                          ++ announced "Heat.1995.1080p"
                               (sanitized_with_year Sample.catalogue
                                                    "Heat.1995.1080p")))))
              [("3" : str); ("My Heat" : str)] ("My Heat" : str) [])
    as (w' & _ & Hs & _ & Hmain).
  - reflexivity.
  - now left.
  - reflexivity.
  - vm_compute. reflexivity.
  - discriminate.
  - apply (custom_by_number Sample.catalogue
             (rank (extract_year (cfg Sample.catalogue) "Heat.1995.1080p")
                   [Sample.heat_1986; Sample.heat_1995])
             ("3" : str) ("My Heat" : str)).
    + reflexivity.
    + vm_compute. reflexivity.
    + vm_compute. discriminate.
  - vm_compute. reflexivity.
  - exists w'. split; [now apply Hmain|exact Hs].
Defined.

(** ** Catalogue failures *)







(** ** The stages after the first *)

Lemma retry_with_as_fetched env dry_run folder_path query w l w' :
  get_movie_details env query w = (Return (Some l), w') ->
  retry_with env dry_run folder_path query w
  = match l with
    | [] => (Return false, w')
    | _ :: _ => (choose_and_rename env dry_run folder_path l ;;; ret true) w'
    end.
Proof.
  intros H. unfold retry_with. unfold bind at 1. rewrite H.
  unfold iterate. unfold bind at 1. unfold ret at 1. now destruct l.
Qed.

(** C2: the code at an input where it departs from the claim.  The block
    that [main] repeats for the simplified name, the core title and the
    custom name hands the candidates to the prompt in the order they were
    fetched, without the sort of the first stage.  Here the folder
    "Heat COMPLETE 1995" finds nothing under its sanitized name and two
    films under the simplified name "Heat 1995"; the ranking for 1995
    would put the film of 1995 first, but the menu lists the film of 1986
    as number 1, and the answer "1" renames the folder after it. *)
Theorem later_stages_skip_the_ranking :
  (forall env dry_run folder_path query w l w',
      get_movie_details env query w = (Return (Some l), w') ->
      retry_with env dry_run folder_path query w
      = match l with
        | [] => (Return false, w')
        | _ :: _ =>
            (choose_and_rename env dry_run folder_path l ;;; ret true) w'
        end)
  /\ extract_year (CONFIG 2026) "Heat COMPLETE 1995" = Some ("1995" : str)
  /\ rank (Some ("1995" : str)) [Sample.heat_1986; Sample.heat_1995]
     = [Sample.heat_1995; Sample.heat_1986]
  /\ main Sample.catalogue false Sample.tagged_folder
     = (Return tt,
        {| base_dir := Some [("Heat (1986) - IMDb- 5.5" : str, true)];
           stdin := [];
           requests := 4;
           trace :=
             [Print ("010"%char :: "Processing folder: Heat COMPLETE 1995");
              Log INFO "Processing folder: Heat COMPLETE 1995";
              Print "Sanitized name: Heat COMPLETE 1995";
              Log INFO "Sanitized name: Heat COMPLETE 1995";
              SearchMovie "Heat COMPLETE 1995";
              Print "No valid options found. Retrying with simplified name: Heat 1995";
              Log INFO "Retrying with simplified name: Heat 1995";
              SearchMovie "Heat 1995";
              GetMovie "tt0091191";
              GetMovie "tt0113277";
              Print ("010"%char :: "Please choose one of the following options:");
              Print "1. Heat (1986) - IMDb- 5.5 (Ranked by 1,200 people)";
              Print "2. Heat (1995) - IMDb- 8.3 (Ranked by 700,000 people)";
              Print "3. Enter a custom name";
              Input "Enter the number of your choice or custom name: ";
              OsRename "D:\Test\Heat COMPLETE 1995"
                       "D:\Test\Heat (1986) - IMDb- 5.5";
              Print "Renamed to: Heat (1986) - IMDb- 5.5";
              Log INFO "Renamed 'D:\Test\Heat COMPLETE 1995' to 'D:\Test\Heat (1986) - IMDb- 5.5'"]
        |}).
Proof.
  split; [intros; now apply retry_with_as_fetched|].
  repeat split; vm_compute; reflexivity.
Qed.

(** ** Simplification *)

Lemma upper_char_idempotent c : Py.upper_char (Py.upper_char c) = Py.upper_char c.
Proof. destruct c as [[] [] [] [] [] [] [] []]; reflexivity. Qed.

Lemma upper_idempotent s : Py.upper (Py.upper s) = Py.upper s.
Proof.
  unfold Py.upper. rewrite map_map. apply map_ext.
  intros c. apply upper_char_idempotent.
Qed.

Lemma upper_never_mixed_case word entry :
  Py.upper entry <> entry -> Py.upper word <> entry.
Proof.
  intros Hmixed Heq. apply Hmixed. rewrite <- Heq. apply upper_idempotent.
Qed.

(** C6: the code at inputs where it departs from the claim.  [simplify_name]
    compares the upper-cased word with the entries of the vocabulary as
    they are written, so an entry that is not all upper case ("BluRay",
    "720p", "x264") never equals an upper-cased word and is never removed,
    however the word is written; only the all-upper-case entries
    ("COMPLETE", "YTS") are removed, and those in any letter case. *)
Theorem simplify_name_keeps_mixed_case_entries (current_year : Z) :
  let c := CONFIG current_year in
  (forall word entry : str, Py.upper entry <> entry -> Py.upper word <> entry)
  /\ In ("BluRay" : str) (EXTRANEOUS_WORDS c)
  /\ In ("720p" : str) (EXTRANEOUS_WORDS c)
  /\ In ("x264" : str) (EXTRANEOUS_WORDS c)
  /\ simplify_name c "Movie BluRay" = ("Movie BluRay" : str)
  /\ simplify_name c "Movie bluray" = ("Movie bluray" : str)
  /\ simplify_name c "Movie BLURAY" = ("Movie BLURAY" : str)
  /\ simplify_name c "Movie 720p x264" = ("Movie 720p x264" : str)
  /\ simplify_name c "Movie COMPLETE yts" = ("Movie" : str).
Proof.
  cbv zeta. split; [exact upper_never_mixed_case|].
  repeat split; try (vm_compute; reflexivity); simpl; tauto.
Qed.

(** ** Searching for the year *)

Lemma search_from_some m s : forall prev i j n,
  Re.search_from m prev i s = Some (j, n) ->
  exists k,
    j = (i + k)%nat
    /\ m (prev_at prev s k) (skipn k s) = Some n
    /\ forall k', (k' < k)%nat -> m (prev_at prev s k') (skipn k' s) = None.
Proof.
  induction s as [|c s IH]; intros prev i j n H; simpl in H.
  - destruct (m prev []) eqn:E; [|discriminate].
    injection H as <- <-. exists 0%nat. simpl.
    repeat split; [lia|exact E|intros; lia].
  - destruct (m prev (c :: s)) eqn:E.
    + injection H as <- <-. exists 0%nat. simpl.
      repeat split; [lia|exact E|intros; lia].
    + destruct (IH _ _ _ _ H) as (k & -> & Hk & Hlt).
      exists (S k). repeat split; [lia| |].
      * destruct k; exact Hk.
      * intros [|k'] Hk'; [exact E|].
        specialize (Hlt k' ltac:(lia)). destruct k'; exact Hlt.
Qed.

Lemma search_from_none m s : forall prev i,
  Re.search_from m prev i s = None ->
  forall k, (k <= List.length s)%nat ->
            m (prev_at prev s k) (skipn k s) = None.
Proof.
  induction s as [|c s IH]; intros prev i H k Hk; simpl in H.
  - destruct (m prev []) eqn:E; [discriminate|].
    simpl in Hk. replace k with 0%nat by lia. exact E.
  - destruct (m prev (c :: s)) eqn:E; [discriminate|].
    destruct k as [|k]; [exact E|].
    specialize (IH _ _ H k ltac:(simpl in Hk; lia)).
    destruct k; exact IH.
Qed.

Lemma is_digit_cases c :
  Py.is_digit c = true ->
  In c ["0"; "1"; "2"; "3"; "4"; "5"; "6"; "7"; "8"; "9"]%char.
Proof.
  destruct c as [[] [] [] [] [] [] [] []]; intros H;
    try discriminate H; simpl; tauto.
Qed.

(** What a match of [\b(19|20)\d{2}\b] is made of. *)
Lemma year_token_chars prev s n :
  Re.year_token prev s = Some n ->
  n = 4%nat
  /\ exists a b c d,
      firstn 4 s = [a; b; c; d]
      /\ ((a = "1"%char /\ b = "9"%char) \/ (a = "2"%char /\ b = "0"%char))
      /\ Py.is_digit c = true /\ Py.is_digit d = true
      /\ Re.word_opt prev = false
      /\ Re.word_opt (hd_error (skipn 4 s)) = false.
Proof.
  unfold Re.year_token.
  destruct s as [|a [|b [|c [|d rest]]]]; try discriminate.
  destruct (Re.word_boundary prev (a :: b :: c :: d :: rest)) eqn:B1;
    [|discriminate].
  simpl andb.
  destruct ((Ascii.eqb a "1" && Ascii.eqb b "9")
            || (Ascii.eqb a "2" && Ascii.eqb b "0")) eqn:Hab; [|discriminate].
  destruct (Py.is_digit c) eqn:Hc; [|discriminate].
  destruct (Py.is_digit d) eqn:Hd; [|discriminate].
  simpl andb.
  destruct (Re.word_boundary (Some d) rest) eqn:B2; [|discriminate].
  intros H. injection H as <-. split; [reflexivity|].
  exists a, b, c, d. split; [reflexivity|].
  assert (Hcases : (a = "1"%char /\ b = "9"%char)
                   \/ (a = "2"%char /\ b = "0"%char)).
  { apply orb_prop in Hab.
    destruct Hab as [H|H]; apply andb_prop in H; destruct H as [Ha Hb];
      apply Ascii.eqb_eq in Ha, Hb; auto. }
  split; [exact Hcases|]. split; [exact Hc|split; [exact Hd|split]].
  - unfold Re.word_boundary in B1. simpl in B1.
    assert (Py.is_word a = true) by
        (destruct Hcases as [[-> _]|[-> _]]; reflexivity).
    rewrite H in B1. now destruct (Re.word_opt prev).
  - unfold Re.word_boundary in B2. simpl in B2.
    assert (Py.is_word d = true) by
        (unfold Py.is_word; now rewrite Hd).
    rewrite H in B2. simpl. now destruct (Re.word_opt (hd_error rest)).
Qed.

Lemma year_digits_roundtrip a b c d :
  (a = "1"%char /\ b = "9"%char) \/ (a = "2"%char /\ b = "0"%char) ->
  Py.is_digit c = true -> Py.is_digit d = true ->
  Py.str_of_int (Py.int_of_digits [a; b; c; d]) = [a; b; c; d].
Proof.
  intros Hab Hc%is_digit_cases Hd%is_digit_cases.
  simpl in Hc, Hd.
  destruct Hab as [[-> ->]|[-> ->]];
    repeat (destruct Hc as [<-|Hc]; [|]); try contradiction;
    repeat (destruct Hd as [<-|Hd]; [|]); try contradiction;
    reflexivity.
Qed.

(** C9.  When [extract_year] returns a value, that value is the text of
    the leftmost match of [\b(19|20)\d{2}\b] in the input: four
    characters, "19" or "20" followed by two digits, not touching a word
    character on either side, and the number they spell lies between 1900
    and the current year.  When every match in the input spells a number
    outside that range, the answer is [None]; so it is for "2999" and
    "1899".  The function is a pure function of its argument. *)
Theorem extract_year_first_token_in_range (c : Config) (s : str) :
  (forall y,
      extract_year c s = Some y ->
      exists i,
        matches_at Re.year_token s i = Some 4%nat
        /\ (forall j, (j < i)%nat -> matches_at Re.year_token s j = None)
        /\ y = firstn 4 (skipn i s)
        /\ (exists a b c' d,
               y = [a; b; c'; d]
               /\ ((a = "1"%char /\ b = "9"%char)
                   \/ (a = "2"%char /\ b = "0"%char))
               /\ Py.is_digit c' = true /\ Py.is_digit d = true)
        /\ (1900 <= Py.int_of_digits y <= CURRENT_YEAR c)%Z)
  /\ ((forall i,
          matches_at Re.year_token s i = Some 4%nat ->
          ~ (1900 <= Py.int_of_digits (firstn 4 (skipn i s))
             <= CURRENT_YEAR c)%Z) ->
      extract_year c s = None)
  /\ extract_year c "2999" = None
  /\ extract_year c "1899" = None.
Proof.
  split; [|split; [|split; reflexivity]].
  - intros y. unfold extract_year, Re.search.
    destruct (Re.search_from Re.year_token None 0 s) as [[j n]|] eqn:E;
      [|discriminate].
    destruct (search_from_some _ _ _ _ _ _ E) as (k & -> & Hk & Hlt).
    cbn [Nat.add] in *. unfold Re.group0. cbn [fst snd].
    destruct (year_token_chars _ _ _ Hk) as (-> & a & b & c' & d & Hf & Hab & Hc & Hd & _).
    rewrite Hf.
    destruct ((1900 <=? Py.int_of_digits [a; b; c'; d])%Z
              && (Py.int_of_digits [a; b; c'; d] <=? CURRENT_YEAR c)%Z) eqn:R;
      [|discriminate].
    intros H. injection H as <-.
    rewrite (year_digits_roundtrip a b c' d Hab Hc Hd).
    exists k. split; [exact Hk|]. split; [exact Hlt|].
    split; [symmetry; exact Hf|].
    split; [exists a, b, c', d; auto|].
    apply andb_prop in R. destruct R as [R1 R2].
    apply Z.leb_le in R1, R2. lia.
  - intros Hout. unfold extract_year, Re.search.
    destruct (Re.search_from Re.year_token None 0 s) as [[j n]|] eqn:E;
      [|reflexivity].
    destruct (search_from_some _ _ _ _ _ _ E) as (k & -> & Hk & Hlt).
    cbn [Nat.add] in *. unfold Re.group0. cbn [fst snd].
    destruct (year_token_chars _ _ _ Hk) as (-> & _).
    specialize (Hout k Hk).
    destruct ((1900 <=? Py.int_of_digits (firstn 4 (skipn k s)))%Z
              && (Py.int_of_digits (firstn 4 (skipn k s)) <=? CURRENT_YEAR c)%Z)
             eqn:R; [|reflexivity].
    exfalso. apply Hout.
    apply andb_prop in R. destruct R as [R1 R2].
    apply Z.leb_le in R1, R2. lia.
Qed.

(** ** The canonical name *)

Lemma sub_one_of p repl s : forall prev,
  Re.sub_from (Re.one_of p) repl prev 0 s
  = flat_map (fun c => if p c then repl else [c]) s.
Proof.
  induction s as [|c s IH]; intros prev; simpl; [reflexivity|].
  destruct (p c); simpl; now rewrite IH.
Qed.

Lemma safe_name_app a b : safe_name (a ++ b) = safe_name a ++ safe_name b.
Proof. unfold safe_name, Re.sub. rewrite !sub_one_of. apply flat_map_app. Qed.

Lemma safe_name_legal s :
  forallb (fun c => negb (is_illegal c)) s = true -> safe_name s = s.
Proof.
  unfold safe_name, Re.sub. rewrite sub_one_of.
  induction s as [|c s IH]; simpl; [reflexivity|].
  intros [Hc Hs]%andb_prop. apply negb_true_iff in Hc. rewrite Hc. simpl.
  f_equal. now apply IH.
Qed.

Lemma safe_name_one_line s :
  forallb Py.is_dot s = true -> forallb Py.is_dot (safe_name s) = true.
Proof.
  unfold safe_name, Re.sub. rewrite sub_one_of.
  induction s as [|c s IH]; simpl; [reflexivity|].
  intros [Hc Hs]%andb_prop. destruct (is_illegal c); simpl.
  - now apply IH.
  - rewrite Hc. now apply IH.
Qed.

Lemma digit_legal c : Py.is_digit c = true -> negb (is_illegal c) = true.
Proof.
  intros H%is_digit_cases. simpl in H.
  repeat (destruct H as [<-|H]; [reflexivity|]). contradiction.
Qed.

Lemma digits_legal s :
  forallb Py.is_digit s = true ->
  forallb (fun c => negb (is_illegal c)) s = true.
Proof.
  induction s as [|c s IH]; simpl; [reflexivity|].
  intros [Hc Hs]%andb_prop. rewrite (digit_legal c Hc). now apply IH.
Qed.

Lemma dot_star_then_app k pre s :
  forallb Py.is_dot pre = true -> k s = true ->
  dot_star_then k (pre ++ s) = true.
Proof.
  intros Hpre Hk. induction pre as [|c pre IH]; simpl.
  - destruct s; simpl; now rewrite Hk.
  - simpl in Hpre. apply andb_prop in Hpre. destruct Hpre as [Hc Hpre].
    rewrite Hc, (IH Hpre). apply orb_true_r.
Qed.

Lemma string_of_uint_digits d :
  forallb Py.is_digit
          (list_ascii_of_string (DecimalString.NilEmpty.string_of_uint d))
  = true.
Proof. induction d; simpl; auto. Qed.

Lemma str_of_int_digits z : (0 <= z)%Z -> digits (Py.str_of_int z).
Proof.
  intros Hz. unfold Py.str_of_int, digits.
  destruct z as [|p|p]; [split; [discriminate|reflexivity]| |lia].
  simpl. generalize (string_of_uint_digits (Pos.to_uint p)).
  unfold DecimalString.NilZero.string_of_uint.
  destruct (Pos.to_uint p); simpl; intros H;
    (split; [discriminate|]); exact H || reflexivity.
Qed.

Lemma run_digits ds rest :
  forallb Py.is_digit ds = true ->
  match rest with c :: _ => Py.is_digit c = false | [] => True end ->
  Re.run Py.is_digit (ds ++ rest) = List.length ds.
Proof.
  intros Hds Hrest. induction ds as [|c ds IH]; simpl.
  - destruct rest as [|c rest]; simpl; [reflexivity|]. now rewrite Hrest.
  - simpl in Hds. apply andb_prop in Hds. destruct Hds as [Hc Hds].
    rewrite Hc. f_equal. now apply IH.
Qed.

Lemma skipn_length_app {A} (a b : list A) : skipn (List.length a) (a ++ b) = b.
Proof. induction a; simpl; auto. Qed.

Lemma rating_suffix_number v :
  nonneg_number v -> rating_suffix (" " ++ format_value v) = true.
Proof.
  intros Hv. unfold rating_suffix.
  change (" " ++ format_value v) with (" "%char :: format_value v).
  cbv beta iota zeta. change (Py.is_space " ") with true. cbv iota.
  destruct v as [z|t|s|b]; simpl in Hv; [| |contradiction|contradiction].
  - simpl format_value. destruct (str_of_int_digits z Hv) as [Hne Hds].
    rewrite <- (app_nil_r (Py.str_of_int z)).
    rewrite (run_digits _ [] Hds I), skipn_length_app.
    rewrite ?app_nil_r.
    destruct (Py.str_of_int z); [congruence|reflexivity].
  - unfold format_value.
    replace (t <? 0)%Z with false by (symmetry; apply Z.ltb_ge; lia).
    rewrite Z.abs_eq by lia. cbn [app].
    destruct (str_of_int_digits (t / 10)) as [Hne1 Hds1];
      [apply Z.div_pos; lia|].
    destruct (str_of_int_digits (t mod 10)) as [Hne2 Hds2];
      [apply Z.mod_pos_bound; lia|].
    change ("." ++ Py.str_of_int (t mod 10))
      with ("."%char :: Py.str_of_int (t mod 10)).
    rewrite (run_digits _ ("."%char :: _) Hds1 eq_refl), skipn_length_app.
    rewrite <- (app_nil_r (Py.str_of_int (t mod 10))).
    rewrite (run_digits _ [] Hds2 I), skipn_length_app.
    rewrite ?app_nil_r.
    destruct (Py.str_of_int (t / 10)); [congruence|].
    destruct (Py.str_of_int (t mod 10)); [congruence|reflexivity].
Qed.

Lemma format_number_legal v :
  nonneg_number v ->
  forallb (fun c => negb (is_illegal c)) (format_value v) = true.
Proof.
  destruct v as [z|t|s|b]; simpl; intros Hv; [| |contradiction|contradiction].
  - apply digits_legal, str_of_int_digits, Hv.
  - replace (t <? 0)%Z with false by (symmetry; apply Z.ltb_ge; lia).
    rewrite Z.abs_eq by lia. cbn [app].
    rewrite forallb_app. apply andb_true_intro. split.
    + apply digits_legal, str_of_int_digits, Z.div_pos; lia.
    + change ("." ++ Py.str_of_int (t mod 10))
        with ("."%char :: Py.str_of_int (t mod 10)).
      cbn [forallb]. change (negb (is_illegal ".")) with true. cbn [andb].
      apply digits_legal, str_of_int_digits, Z.mod_pos_bound. lia.
Qed.

Lemma year_text y :
  (1900 <= y <= 2099)%Z ->
  exists a b c d,
    Py.str_of_int y = [a; b; c; d]
    /\ is_19_or_20 a b = true
    /\ Py.is_digit c = true /\ Py.is_digit d = true.
Proof.
  intros Hy.
  pose (check := fun z =>
          match Py.str_of_int z with
          | [a; b; c; d] => is_19_or_20 a b && Py.is_digit c && Py.is_digit d
          | _ => false
          end).
  assert (Hall : forallb check
                   (map (fun k => (1900 + Z.of_nat k)%Z) (seq 0 200)) = true)
    by (vm_compute; reflexivity).
  rewrite forallb_forall in Hall.
  assert (Hin : In y (map (fun k => (1900 + Z.of_nat k)%Z) (seq 0 200))).
  { apply in_map_iff. exists (Z.to_nat (y - 1900)). split; [lia|].
    apply in_seq. lia. }
  specialize (Hall y Hin). unfold check in Hall.
  destruct (Py.str_of_int y) as [|a [|b [|c [|d [|]]]]]; try discriminate.
  exists a, b, c, d.
  apply andb_prop in Hall. destruct Hall as [Hall Hd].
  apply andb_prop in Hall. destruct Hall as [Hab Hc]. auto.
Qed.

Lemma canonical_suffix_of_year_and_rating y v :
  (1900 <= y <= 2099)%Z -> nonneg_number v ->
  canonical_suffix (" (" ++ format_value (VInt y) ++ ") - IMDb- "
                    ++ format_value v) = true.
Proof.
  intros Hy Hv. simpl format_value at 1.
  destruct (year_text y Hy) as (a & b & c & d & -> & Hab & Hc & Hd).
  change (canonical_suffix
            (" "%char :: "("%char :: a :: b :: c :: d
             :: (") - IMDb-" ++ (" " ++ format_value v))) = true).
  unfold canonical_suffix. rewrite Hab, Hc, Hd.
  change (rating_suffix (" " ++ format_value v) = true).
  now apply rating_suffix_number.
Qed.

Lemma recognised_name t y v :
  forallb Py.is_dot t = true ->
  (1900 <= y <= 2099)%Z -> nonneg_number v ->
  already_properly_named (safe_name (new_name_of (VStr t) (VInt y) v)) = true.
Proof.
  intros Ht Hy Hv. unfold new_name_of. simpl format_value at 1.
  rewrite safe_name_app.
  rewrite (safe_name_legal (" (" ++ _)).
  - apply dot_star_then_app; [now apply safe_name_one_line|].
    now apply canonical_suffix_of_year_and_rating.
  - simpl format_value at 1.
    destruct (year_text y Hy) as (a & b & c & d & -> & Hab & Hc & Hd).
    change (forallb (fun c0 => negb (is_illegal c0))
              (" "%char :: "("%char :: a :: b :: c :: d
               :: (") - IMDb- " ++ format_value v)) = true).
    cbn [forallb].
    assert (Ha : negb (is_illegal a) = true /\ negb (is_illegal b) = true).
    { unfold is_19_or_20 in Hab. apply orb_prop in Hab.
      destruct Hab as [H|H]; apply andb_prop in H; destruct H as [Ha Hb];
        apply Ascii.eqb_eq in Ha, Hb; subst; split; reflexivity. }
    destruct Ha as [Ha Hb].
    rewrite Ha, Hb, (digit_legal c Hc), (digit_legal d Hd).
    rewrite forallb_app, (format_number_legal v Hv). reflexivity.
Qed.

(** C5.  For a candidate whose year is an integer between 1900 and 2099
    and whose rating is an integer or a one-decimal float, the name that
    [rename_folder] computes, the formatted name passed through
    [safe_name], satisfies [already_properly_named]; a folder that carries
    it is skipped by the loop body: no request, no prompt, no rename.  The
    candidate is one the catalogue delivers: its title is in one line and
    its rating is not negative. *)
Theorem renamed_folder_is_recognised (d : details) (y : Z) :
  forallb Py.is_dot (title d) = true ->
  year d = VInt y -> (1900 <= y <= 2099)%Z ->
  nonneg_number (rating d) ->
  let name := safe_name (new_name_of (VStr (title d)) (year d) (rating d)) in
  already_properly_named name = true
  /\ forall env dry_run w,
      exists logs,
        process_folder env dry_run name w
        = (Return tt,
           set_world (base_dir w) (stdin w) (requests w) (trace w ++ logs))
        /\ Forall is_info_log logs.
Proof.
  intros Ht Hyear Hy Hr name.
  assert (Hname : already_properly_named name = true).
  { unfold name. rewrite Hyear. now apply recognised_name. }
  split; [exact Hname|].
  intros env dry_run w. now apply process_folder_skip.
Qed.

Lemma renamed_folder_is_recognised_witness :
  already_properly_named
    (safe_name (new_name_of (VStr (title Sample.heat_1995))
                            (year Sample.heat_1995)
                            (rating Sample.heat_1995))) = true.
Proof.
  apply (renamed_folder_is_recognised Sample.heat_1995 1995).
  - reflexivity.
  - reflexivity.
  - lia.
  - simpl. lia.
Defined.

Lemma extract_year_first_token_in_range_witness :
  exists i,
    matches_at Re.year_token ("Heat.1995.1080p" : str) i = Some 4%nat
    /\ (1900 <= Py.int_of_digits ("1995" : str) <= 2026)%Z.
Proof.
  destruct (proj1 (extract_year_first_token_in_range
                     (CONFIG 2026) "Heat.1995.1080p") ("1995" : str) eq_refl)
    as (i & Hi & _ & _ & _ & Hr).
  exists i. split; [exact Hi | exact Hr].
Defined.

(** * Idempotence of the sanitizer *)

(** ** Scanning *)

Lemma sanitize_steps c x :
  sanitize_folder_name c x
  = normalize_year c (Py.strip (collapse (strip_parens (strip_tags x)))).
Proof. reflexivity. Qed.

Lemma prev_at_cons prev c s k :
  prev_at (Some c) s k = prev_at prev (c :: s) (S k).
Proof. destruct k; reflexivity. Qed.

Lemma sub_from_skip m repl s : forall prev k,
  Re.sub_from m repl prev k s
  = Re.sub_from m repl (prev_at prev s k) 0 (skipn k s).
Proof.
  induction s as [|c s IH]; intros prev k.
  - destruct k; reflexivity.
  - destruct k as [|k]; [reflexivity|].
    simpl Re.sub_from at 1. rewrite IH.
    now rewrite (prev_at_cons prev).
Qed.

Lemma sub_from_copy m repl prev c rest :
  match m prev (c :: rest) with Some (S _) => False | _ => True end ->
  Re.sub_from m repl prev 0 (c :: rest)
  = c :: Re.sub_from m repl (Some c) 0 rest.
Proof.
  intros H. simpl. destruct (m prev (c :: rest)) as [[|k]|];
    [reflexivity|contradiction|reflexivity].
Qed.

Lemma sub_from_jump m repl prev c rest k :
  m prev (c :: rest) = Some (S k) ->
  Re.sub_from m repl prev 0 (c :: rest)
  = repl ++ Re.sub_from m repl (prev_at (Some c) rest k) 0 (skipn k rest).
Proof. intros H. simpl. rewrite H. now rewrite sub_from_skip. Qed.

(** The characters of the output are those of the input and of [repl]. *)
Lemma sub_from_chars m repl x s : forall prev k,
  In x (Re.sub_from m repl prev k s) -> In x s \/ In x repl.
Proof.
  induction s as [|c s IH]; intros prev k H; simpl in H; [contradiction|].
  destruct k as [|k].
  - destruct (m prev (c :: s)) as [[|j]|].
    + destruct H as [<-|H]; [left; now left|].
      destruct (IH _ _ H); [left; now right|now right].
    + apply in_app_or in H. destruct H as [H|H]; [now right|].
      destruct (IH _ _ H); [left; now right|now right].
    + destruct H as [<-|H]; [left; now left|].
      destruct (IH _ _ H); [left; now right|now right].
  - destruct (IH _ _ H); [left; now right|now right].
Qed.

Lemma last_of_cons prev a u : Re.last_of prev (a :: u) = Re.last_of (Some a) u.
Proof.
  unfold Re.last_of. simpl. destruct (rev u) as [|c t] eqn:E; reflexivity.
Qed.

Lemma last_of_app prev u c : Re.last_of prev (u ++ [c]) = Some c.
Proof. unfold Re.last_of. now rewrite rev_app_distr. Qed.

(** A prefix of the output without a space was copied from the input; the
    scan of the rest of the input is the rest of the output. *)
Lemma sub_prefix_copied m u : forall s prev o,
  ~ In " "%char u ->
  Re.sub_from m " " prev 0 s = u ++ o ->
  exists s', s = u ++ s' /\ o = Re.sub_from m " " (Re.last_of prev u) 0 s'.
Proof.
  induction u as [|a u IH]; intros s prev o Hu H.
  - exists s. split; [reflexivity|]. exact (eq_sym H).
  - destruct s as [|c s]; [discriminate H|].
    simpl in H. destruct (m prev (c :: s)) as [[|k]|] eqn:E.
    + injection H as -> H.
      destruct (IH s (Some a) o) as (s' & -> & ->);
        [intros Hin; apply Hu; now right|exact H|].
      exists s'. now rewrite last_of_cons.
    + injection H as <- _. exfalso. apply Hu. now left.
    + injection H as -> H.
      destruct (IH s (Some a) o) as (s' & -> & ->);
        [intros Hin; apply Hu; now right|exact H|].
      exists s'. now rewrite last_of_cons.
Qed.

(** The same for a scan that is known to be in order. *)
Lemma scan_ok_after_copied m u : forall s' prev o,
  ~ In " "%char u ->
  Re.sub_from m " " prev 0 (u ++ s') = u ++ o ->
  scan_ok m prev (u ++ s') ->
  scan_ok m (Re.last_of prev u) s'.
Proof.
  induction u as [|a u IH]; intros s' prev o Hu H Hok; [exact Hok|].
  rewrite last_of_cons. simpl app in *.
  inversion Hok as [|p c rest Hm Ht Hrest|p c rest k Hm Hs He Hrest]; subst.
  - rewrite (sub_from_copy _ _ _ _ _ Hm) in H. injection H as H.
    apply (IH s' (Some a) o); [intros Hin; apply Hu; now right|exact H|exact Hrest].
  - rewrite (sub_from_jump _ _ _ _ _ _ Hm) in H. injection H as <- _.
    exfalso. apply Hu. now left.
Qed.

(** ** The alternatives of the tag pattern *)

Lemma tag_pattern_none prev s :
  tag_pattern prev s = None <->
  Re.group_of "[" "]" prev s = None
  /\ Re.digits_p 1 None (Ascii.eqb "p") prev s = None
  /\ Re.one_of is_sep prev s = None.
Proof.
  unfold tag_pattern, Re.alt.
  destruct (Re.group_of "[" "]" prev s);
    [split; [discriminate|intros [H _]; discriminate]|].
  destruct (Re.digits_p 1 None (Ascii.eqb "p") prev s);
    [split; [discriminate|intros [_ [H _]]; discriminate]|].
  tauto.
Qed.

Lemma lazy_until_in close s n : Re.lazy_until close s = Some n -> In close s.
Proof.
  revert n. induction s as [|c s IH]; intros n H; simpl in H; [discriminate|].
  destruct (Ascii.eqb c close) eqn:E.
  - apply Ascii.eqb_eq in E. now left.
  - destruct (Py.is_dot c); [|discriminate].
    destruct (Re.lazy_until close s); [|discriminate].
    right. eapply IH. reflexivity.
Qed.

Lemma lazy_until_found close s :
  In close s -> ~ In "010"%char s -> Re.lazy_until close s <> None.
Proof.
  induction s as [|c s IH]; intros Hin Hnl; [contradiction|].
  simpl. destruct (Ascii.eqb c close) eqn:E; [discriminate|].
  assert (Hdot : Py.is_dot c = true).
  { unfold Py.is_dot. apply negb_true_iff. apply Ascii.eqb_neq.
    intros ->. apply Hnl. now left. }
  rewrite Hdot.
  destruct Hin as [->|Hin]; [rewrite Ascii.eqb_refl in E; discriminate|].
  destruct (Re.lazy_until close s) eqn:L; [discriminate|].
  exfalso. apply IH; [exact Hin|intros H; apply Hnl; now right|reflexivity].
Qed.

Lemma run_firstn p s : forallb p (firstn (Re.run p s) s) = true.
Proof.
  induction s as [|c s IH]; simpl; [reflexivity|].
  destruct (p c) eqn:E; simpl; [now rewrite E|reflexivity].
Qed.

Lemma run_le p s : (Re.run p s <= List.length s)%nat.
Proof.
  induction s as [|c s IH]; simpl; [lia|]. destruct (p c); simpl; lia.
Qed.

Lemma run_stops p s :
  match skipn (Re.run p s) s with c :: _ => p c = false | [] => True end.
Proof.
  induction s as [|c s IH]; simpl; [exact I|].
  destruct (p c) eqn:E; simpl; [exact IH|exact E].
Qed.

Lemma run_app p ds rest :
  forallb p ds = true ->
  match rest with c :: _ => p c = false | [] => True end ->
  Re.run p (ds ++ rest) = List.length ds.
Proof.
  intros Hds Hrest. induction ds as [|c ds IH]; simpl.
  - destruct rest as [|c rest]; simpl; [reflexivity|]. now rewrite Hrest.
  - simpl in Hds. apply andb_prop in Hds. destruct Hds as [Hc Hds].
    rewrite Hc. f_equal. now apply IH.
Qed.

Lemma digit_is_word c : Py.is_digit c = true -> Py.is_word c = true.
Proof. intros H. unfold Py.is_word. now rewrite H. Qed.

Lemma digit_not_space c : Py.is_digit c = true -> c <> " "%char.
Proof. intros H ->. discriminate H. Qed.

(** What a match of [\b\d+p\b] is made of. *)
Lemma digits_p_some prev s n :
  Re.digits_p 1 None (Ascii.eqb "p") prev s = Some n ->
  exists ds rest,
    s = ds ++ "p"%char :: rest
    /\ ds <> [] /\ forallb Py.is_digit ds = true
    /\ Re.word_opt prev = false
    /\ Re.word_opt (hd_error rest) = false
    /\ n = S (List.length ds).
Proof.
  unfold Re.digits_p.
  destruct (Re.word_boundary prev s) eqn:B; [|discriminate].
  destruct (1 <=? Re.run Py.is_digit s)%nat eqn:N; [|discriminate].
  cbn [andb].
  pose proof (run_firstn Py.is_digit s) as Hds.
  pose proof (firstn_skipn (Re.run Py.is_digit s) s) as Hsplit.
  destruct (skipn (Re.run Py.is_digit s) s) as [|c rest] eqn:K; [discriminate|].
  destruct (Ascii.eqb "p" c) eqn:P; cbn [andb]; [|discriminate].
  destruct (Re.word_boundary (Some c) rest) eqn:B2; [|discriminate].
  intros H. injection H as <-.
  apply Ascii.eqb_eq in P. subst c.
  apply Nat.leb_le in N.
  exists (firstn (Re.run Py.is_digit s) s), rest.
  split; [now rewrite Hsplit|].
  assert (Hlen : List.length (firstn (Re.run Py.is_digit s) s)
                 = Re.run Py.is_digit s).
  { apply firstn_length_le, run_le. }
  split; [intros E; rewrite E in Hlen; simpl in Hlen; lia|].
  split; [exact Hds|].
  split.
  - destruct s as [|d s]; [simpl in N; lia|].
    simpl in N. destruct (Py.is_digit d) eqn:Hd; [|lia].
    unfold Re.word_boundary in B. simpl in B.
    rewrite (digit_is_word d Hd) in B. now destruct (Re.word_opt prev).
  - split; [|now rewrite Hlen].
    unfold Re.word_boundary in B2. simpl in B2.
    now destruct (Re.word_opt (hd_error rest)).
Qed.

Lemma digits_p_intro prev ds rest :
  ds <> [] -> forallb Py.is_digit ds = true ->
  Re.word_opt prev = false -> Re.word_opt (hd_error rest) = false ->
  Re.digits_p 1 None (Ascii.eqb "p") prev (ds ++ "p"%char :: rest)
  = Some (S (List.length ds)).
Proof.
  intros Hne Hds Hp Hr. unfold Re.digits_p.
  rewrite (run_app Py.is_digit ds ("p"%char :: rest) Hds eq_refl).
  rewrite skipn_length_app.
  assert (B : Re.word_boundary prev (ds ++ "p"%char :: rest) = true).
  { unfold Re.word_boundary. rewrite Hp.
    destruct ds as [|d ds]; [congruence|]. simpl in *.
    apply andb_prop in Hds. destruct Hds as [Hd _].
    now rewrite (digit_is_word d Hd). }
  rewrite B.
  assert (N : (1 <=? List.length ds)%nat = true).
  { apply Nat.leb_le. destruct ds; [congruence|simpl; lia]. }
  rewrite N. cbn [andb]. rewrite Ascii.eqb_refl.
  unfold Re.word_boundary. rewrite Hr. reflexivity.
Qed.

(** The pattern reads the character before only as a word character or
    not. *)
Lemma tag_pattern_prev prev prev' s :
  Re.word_opt prev = Re.word_opt prev' ->
  tag_pattern prev s = tag_pattern prev' s.
Proof.
  intros H. unfold tag_pattern, Re.alt, Re.group_of, Re.digits_p, Re.one_of,
              Re.word_boundary.
  now rewrite H.
Qed.

Lemma tag_free_prev prev prev' s :
  Re.word_opt prev = Re.word_opt prev' -> free tag_pattern prev s -> free tag_pattern prev' s.
Proof.
  intros H. destruct s as [|c s]; simpl; [trivial|].
  now rewrite (tag_pattern_prev prev prev').
Qed.

Lemma tag_pattern_space prev s : tag_pattern prev (" "%char :: s) = None.
Proof.
  unfold tag_pattern, Re.alt, Re.group_of, Re.digits_p, Re.one_of. simpl.
  now rewrite andb_false_r.
Qed.

Lemma tag_pattern_nil prev : tag_pattern prev [] = None.
Proof.
  unfold tag_pattern, Re.alt, Re.group_of, Re.digits_p, Re.one_of. simpl.
  now rewrite andb_false_r.
Qed.

(** ** A scan in order leaves no tag *)

Lemma scan_head_not_word m w s :
  Py.is_word w = true ->
  scan_ok m (Some w) s ->
  Re.word_opt (hd_error (Re.sub_from m " " (Some w) 0 s)) = false ->
  Re.word_opt (hd_error s) = false.
Proof.
  intros Hw Hok Hout.
  inversion Hok as [|p c rest Hm Ht Hrest|p c rest k Hm Hs He Hrest]; subst.
  - reflexivity.
  - rewrite (sub_from_copy _ _ _ _ _ Hm) in Hout. exact Hout.
  - simpl. destruct Hs as [Hs|Hs]; [exact Hs|].
    simpl in Hs. congruence.
Qed.

Lemma digits_and_p_no_space ds :
  forallb Py.is_digit ds = true -> ~ In " "%char (ds ++ ["p"%char]).
Proof.
  intros Hds Hin. apply in_app_or in Hin. destruct Hin as [Hin|[Hin|[]]].
  - rewrite forallb_forall in Hds. specialize (Hds _ Hin). discriminate Hds.
  - discriminate Hin.
Qed.

Lemma copied_head_tag_free m prev prev' c rest :
  match m prev (c :: rest) with Some (S _) => False | _ => True end ->
  tag_pattern prev (c :: rest) = None ->
  scan_ok m (Some c) rest ->
  ~ In "010"%char rest ->
  Re.word_opt prev' = Re.word_opt prev \/ Py.is_word c = false ->
  tag_pattern prev' (c :: Re.sub_from m " " (Some c) 0 rest) = None.
Proof.
  intros Hm Ht Hok Hnl Hcompat.
  pose proof Ht as Ht0.
  apply tag_pattern_none in Ht. destruct Ht as (Hg & Hd & Hs).
  apply tag_pattern_none. split; [|split].
  - unfold Re.group_of in *. destruct (Ascii.eqb c "["); [|reflexivity].
    destruct (Re.lazy_until "]" (Re.sub_from m " " (Some c) 0 rest)) eqn:L;
      [|reflexivity].
    exfalso. apply lazy_until_in in L. apply sub_from_chars in L.
    destruct L as [L|[L|[]]]; [|discriminate L].
    apply (lazy_until_found "]" rest L Hnl).
    now destruct (Re.lazy_until "]" rest).
  - destruct (Re.digits_p 1 None (Ascii.eqb "p") prev'
                (c :: Re.sub_from m " " (Some c) 0 rest)) as [n|] eqn:D;
      [|reflexivity].
    exfalso.
    destruct (digits_p_some _ _ _ D)
      as (ds & rest' & Hsplit & Hne & Hds & Hp' & Hr' & _).
    assert (Hsub : Re.sub_from m " " prev 0 (c :: rest)
                   = (ds ++ ["p"%char]) ++ rest').
    { rewrite (sub_from_copy _ _ _ _ _ Hm), Hsplit, <- app_assoc.
      reflexivity. }
    destruct (sub_prefix_copied m _ _ _ _ (digits_and_p_no_space ds Hds) Hsub)
      as (s' & Hin & Hout).
    assert (Hok' : scan_ok m (Some "p"%char) s').
    { rewrite <- (last_of_app prev ds "p").
      apply (scan_ok_after_copied m _ s' prev rest');
        [now apply digits_and_p_no_space|now rewrite <- Hin|].
      rewrite <- Hin. now apply scan_copy. }
    rewrite last_of_app in Hout.
    assert (Hs' : Re.word_opt (hd_error s') = false).
    { apply (scan_head_not_word m "p" s'); [reflexivity|exact Hok'|].
      now rewrite <- Hout. }
    assert (Hc : Py.is_word c = true).
    { destruct ds as [|d ds]; [congruence|].
      simpl in Hin. injection Hin as -> _.
      simpl in Hds. apply andb_prop in Hds. now apply digit_is_word. }
    assert (Hp : Re.word_opt prev = false).
    { destruct Hcompat as [<-|H]; [exact Hp'|congruence]. }
    rewrite Hin, <- app_assoc in Hd. simpl app in Hd.
    rewrite (digits_p_intro prev ds s' Hne Hds Hp Hs') in Hd. discriminate Hd.
  - exact Hs.
Qed.

Lemma not_in_skipn {A} (x : A) k s : ~ In x s -> ~ In x (skipn k s).
Proof.
  intros H Hin. apply H. rewrite <- (firstn_skipn k s).
  apply in_or_app. now right.
Qed.

Theorem scan_ok_tag_free m prev s :
  scan_ok m prev s ->
  ~ In "010"%char s ->
  forall prev',
    Re.word_opt prev' = Re.word_opt prev
    \/ Re.word_opt (hd_error s) = false ->
    free tag_pattern prev' (Re.sub_from m " " prev 0 s).
Proof.
  induction 1 as [p|p c rest Hm Ht Hrest IH|p c rest k Hm Hs He Hrest IH];
    intros Hnl prev' Hcompat.
  - exact I.
  - rewrite (sub_from_copy _ _ _ _ _ Hm). split.
    + apply (copied_head_tag_free m p prev' c rest); try assumption.
      intros H. apply Hnl. now right.
    + apply IH; [intros H; apply Hnl; now right|now left].
  - rewrite (sub_from_jump _ _ _ _ _ _ Hm).
    change (" " ++ ?x) with (" "%char :: x). split.
    + apply tag_pattern_space.
    + apply IH.
      * apply not_in_skipn. intros H. apply Hnl. now right.
      * destruct He as [He|He]; [left; now rewrite He|now right].
Qed.

(** ** The scan of [strip_tags] is in order *)

Lemma lazy_until_last close s k :
  Re.lazy_until close s = Some k ->
  exists j, k = S j /\ nth_error s j = Some close.
Proof.
  revert k. induction s as [|c s IH]; intros k H; simpl in H; [discriminate|].
  destruct (Ascii.eqb c close) eqn:E.
  - injection H as <-. exists 0%nat. apply Ascii.eqb_eq in E. now subst.
  - destruct (Py.is_dot c); [|discriminate].
    destruct (Re.lazy_until close s) as [n|] eqn:L; [|discriminate].
    injection H as <-. destruct (IH n eq_refl) as (j & -> & Hj).
    exists (S j). split; [reflexivity|exact Hj].
Qed.

Lemma is_sep_cases c :
  is_sep c = true -> c = "."%char \/ c = "-"%char \/ c = "_"%char.
Proof.
  unfold is_sep. intros H.
  apply orb_prop in H. destruct H as [H|H];
    [apply orb_prop in H; destruct H as [H|H]|];
    apply Ascii.eqb_eq in H; auto.
Qed.

(** Where the tag pattern matches, the match starts at a character that is
    not a word character or after one, and ends with one or before one. *)
Lemma tag_pattern_match prev c rest n :
  tag_pattern prev (c :: rest) = Some n ->
  c <> "_"%char ->
  exists k,
    n = S k
    /\ (Py.is_word c = false \/ Re.word_opt prev = false)
    /\ (Re.word_opt (prev_at (Some c) rest k) = false
        \/ Re.word_opt (hd_error (skipn k rest)) = false).
Proof.
  intros H Hc. unfold tag_pattern, Re.alt in H.
  destruct (Re.group_of "[" "]" prev (c :: rest)) as [g|] eqn:G.
  - injection H as <-. unfold Re.group_of in G.
    destruct (Ascii.eqb c "[") eqn:E; [|discriminate].
    apply Ascii.eqb_eq in E. subst c.
    destruct (Re.lazy_until "]" rest) as [k|] eqn:L; [|discriminate].
    injection G as <-. destruct (lazy_until_last _ _ _ L) as (j & -> & Hj).
    exists (S j). split; [reflexivity|]. split; [now left|].
    left. simpl. now rewrite Hj.
  - destruct (Re.digits_p 1 None (Ascii.eqb "p") prev (c :: rest))
      as [d|] eqn:D.
    + injection H as <-.
      destruct (digits_p_some _ _ _ D)
        as (ds & rest' & Hsplit & Hne & Hds & Hp & Hr & ->).
      exists (List.length ds). split; [reflexivity|]. split; [now right|].
      right. destruct ds as [|d ds]; [congruence|].
      simpl in Hsplit. injection Hsplit as _ ->.
      simpl List.length.
      replace (skipn (S (List.length ds)) (ds ++ "p"%char :: rest'))
        with rest'; [exact Hr|].
      change ("p"%char :: rest') with (["p"%char] ++ rest').
      rewrite app_assoc.
      replace (S (List.length ds)) with (List.length (ds ++ ["p"%char]))
        by (rewrite length_app; simpl; lia).
      now rewrite skipn_length_app.
    + unfold Re.one_of in H. destruct (is_sep c) eqn:S; [|discriminate].
      injection H as <-. exists 0%nat. split; [reflexivity|].
      assert (Hw : Py.is_word c = false).
      { destruct (is_sep_cases c S) as [ -> | [ -> | -> ] ];
          [reflexivity|reflexivity|congruence]. }
      split; [now left|]. left. exact Hw.
Qed.

Lemma length_skipn_le {A} k (s : list A) :
  (List.length (skipn k s) <= List.length s)%nat.
Proof. rewrite length_skipn. lia. Qed.

Lemma scan_ok_tags n : forall x prev,
  (List.length x <= n)%nat ->
  ~ In "_"%char x ->
  scan_ok tag_pattern prev x.
Proof.
  induction n as [|n IH]; intros x prev Hlen Hu.
  - destruct x; [constructor|simpl in Hlen; lia].
  - destruct x as [|c rest]; [constructor|].
    simpl in Hlen.
    assert (Hrest : ~ In "_"%char rest) by (intros H; apply Hu; now right).
    destruct (tag_pattern prev (c :: rest)) as [m|] eqn:E.
    + destruct (tag_pattern_match _ _ _ _ E) as (k & -> & Hs & He).
      { intros ->. apply Hu. now left. }
      apply (scan_jump _ _ _ _ k E Hs He).
      apply IH; [pose proof (length_skipn_le k rest); lia|].
      now apply not_in_skipn.
    + apply scan_copy; [now rewrite E|exact E|].
      apply IH; [lia|exact Hrest].
Qed.

(** ** The scan of a pattern that matches no word character *)

Lemma tag_free_skipn s : forall prev k,
  free tag_pattern prev s -> free tag_pattern (prev_at prev s k) (skipn k s).
Proof.
  induction s as [|c s IH]; intros prev k H.
  - destruct k; exact I.
  - destruct k as [|k]; [exact H|].
    rewrite <- (prev_at_cons prev). simpl skipn. apply IH. apply H.
Qed.

Lemma firstn_nth_all {A} (f : A -> bool) n s j x :
  forallb f (firstn n s) = true -> (j < n)%nat ->
  nth_error s j = Some x -> f x = true.
Proof.
  revert s j. induction n as [|n IH]; intros s j H Hj Hx; [lia|].
  destruct s as [|c s]; [destruct j; discriminate|].
  simpl in H. apply andb_prop in H. destruct H as [Hc Hs].
  destruct j as [|j]; [simpl in Hx; now injection Hx as <-|].
  simpl in Hx. apply (IH s j Hs); [lia|exact Hx].
Qed.

Lemma scan_ok_blank_pattern m :
  (forall prev s n,
      m prev s = Some n ->
      forallb (fun c => negb (Py.is_word c)) (firstn n s) = true) ->
  forall n s prev,
    (List.length s <= n)%nat -> free tag_pattern prev s -> scan_ok m prev s.
Proof.
  intros Hm n. induction n as [|n IH]; intros s prev Hlen Hfree.
  - destruct s; [constructor|simpl in Hlen; lia].
  - destruct s as [|c rest]; [constructor|].
    simpl in Hlen. destruct Hfree as [Hhead Hrest].
    destruct (m prev (c :: rest)) as [[|k]|] eqn:E.
    + apply scan_copy; [now rewrite E|exact Hhead|]. apply IH; [lia|exact Hrest].
    + specialize (Hm _ _ _ E).
      assert (Hc : Py.is_word c = false).
      { apply negb_true_iff.
        apply (firstn_nth_all _ (S k) (c :: rest) 0 c Hm); [lia|reflexivity]. }
      apply (scan_jump _ _ _ _ k E); [now left| |].
      * left. destruct (prev_at (Some c) rest k) as [x|] eqn:P; [|reflexivity].
        simpl. apply negb_true_iff.
        apply (firstn_nth_all _ (S k) (c :: rest) k x Hm); [lia|].
        destruct k; exact P.
      * apply IH; [pose proof (length_skipn_le k rest); lia|].
        now apply tag_free_skipn.
    + apply scan_copy; [now rewrite E|exact Hhead|]. apply IH; [lia|exact Hrest].
Qed.

Lemma paren_not_word c : is_paren c = true -> Py.is_word c = false.
Proof.
  unfold is_paren. intros H. apply orb_prop in H.
  destruct H as [H|H]; apply Ascii.eqb_eq in H; now subst.
Qed.

Lemma space_not_word c : Py.is_space c = true -> Py.is_word c = false.
Proof.
  destruct c as [[] [] [] [] [] [] [] []]; intros H;
    try discriminate H; reflexivity.
Qed.

Lemma no_line_feed_sub m s :
  ~ In "010"%char s -> ~ In "010"%char (Re.sub m " " s).
Proof.
  intros H Hin. apply sub_from_chars in Hin.
  destruct Hin as [Hin|[Hin|[]]]; [now apply H|discriminate Hin].
Qed.

(** The first three steps leave no tag when the name holds no underscore
    and no line feed. *)
Lemma tag_free_collapse x :
  ~ In "_"%char x -> ~ In "010"%char x ->
  free tag_pattern None (collapse (strip_parens (strip_tags x))).
Proof.
  intros Hu Hnl.
  assert (H1 : free tag_pattern None (strip_tags x)).
  { apply (scan_ok_tag_free tag_pattern None x);
      [now apply (scan_ok_tags (List.length x))|exact Hnl|now left]. }
  assert (H2 : free tag_pattern None (strip_parens (strip_tags x))).
  { apply (scan_ok_tag_free (Re.one_of is_paren) None (strip_tags x));
      [|now apply no_line_feed_sub|now left].
    apply (scan_ok_blank_pattern _) with (n := List.length (strip_tags x));
      [|lia|exact H1].
    intros prev s n H. unfold Re.one_of in H.
    destruct s as [|c s]; [discriminate|].
    destruct (is_paren c) eqn:P; [|discriminate]. injection H as <-.
    simpl. now rewrite (paren_not_word c P). }
  apply (scan_ok_tag_free (Re.plus Py.is_space) None
                          (strip_parens (strip_tags x)));
    [|now apply no_line_feed_sub, no_line_feed_sub|now left].
  apply (scan_ok_blank_pattern _)
    with (n := List.length (strip_parens (strip_tags x)));
    [|lia|exact H2].
  intros prev s n H. unfold Re.plus in H.
  assert (n = Re.run Py.is_space s) as ->
      by (destruct (Re.run Py.is_space s); [discriminate|now injection H]).
  pose proof (run_firstn Py.is_space s) as Hrun.
  rewrite forallb_forall in *. intros c Hc.
  now rewrite (space_not_word c (Hrun c Hc)).
Qed.

(** ** Prefixes, suffixes and extensions of a string without tags *)

Lemma lstrip_split s :
  exists ws, s = ws ++ Py.lstrip s /\ forallb Py.is_space ws = true.
Proof.
  induction s as [|c s (ws & IH & Hws)]; [now exists []|].
  simpl. destruct (Py.is_space c) eqn:E.
  - exists (c :: ws). simpl. rewrite E, Hws. split; [now f_equal|reflexivity].
  - now exists [].
Qed.

Lemma rstrip_split s :
  exists ws, s = Py.rstrip s ++ ws /\ forallb Py.is_space ws = true.
Proof.
  unfold Py.rstrip. destruct (lstrip_split (rev s)) as (ws & Hs & Hws).
  exists (rev ws). split.
  - rewrite <- rev_app_distr, <- Hs. now rewrite rev_involutive.
  - rewrite forallb_forall in *. intros c Hc. apply Hws. now apply in_rev.
Qed.

Lemma lazy_until_app close a b n :
  Re.lazy_until close a = Some n -> Re.lazy_until close (a ++ b) = Some n.
Proof.
  revert n. induction a as [|c a IH]; intros n H; simpl in *; [discriminate|].
  destruct (Ascii.eqb c close); [exact H|].
  destruct (Py.is_dot c); [|discriminate].
  destruct (Re.lazy_until close a) as [k|]; [|discriminate].
  now rewrite (IH k eq_refl).
Qed.

Lemma lazy_until_app_inv close a b n :
  Re.lazy_until close (a ++ b) = Some n -> ~ In close b ->
  Re.lazy_until close a = Some n.
Proof.
  revert n. induction a as [|c a IH]; intros n H Hb; simpl in *.
  - exfalso. apply Hb. eapply lazy_until_in. exact H.
  - destruct (Ascii.eqb c close); [exact H|].
    destruct (Py.is_dot c); [|discriminate].
    destruct (Re.lazy_until close (a ++ b)) as [k|]; [|discriminate].
    now rewrite (IH k eq_refl Hb).
Qed.

(** A match at the head of [u] is a match at the head of [u ++ b], unless
    a word runs from the end of [u] into [b]. *)
Lemma tag_pattern_app prev q u b :
  tag_pattern prev (u ++ b) = None ->
  Re.word_opt (hd_error b) = false \/ Re.word_opt (Re.last_of q u) = false ->
  u <> [] ->
  tag_pattern prev u = None.
Proof.
  intros H Hcond Hne. apply tag_pattern_none in H.
  destruct H as (Hg & Hd & Hs).
  destruct u as [|c u]; [congruence|]. simpl app in *.
  apply tag_pattern_none. split; [|split].
  - unfold Re.group_of in *. destruct (Ascii.eqb c "["); [|reflexivity].
    destruct (Re.lazy_until "]" u) as [n|] eqn:L; [|reflexivity].
    now rewrite (lazy_until_app _ _ b _ L) in Hg.
  - destruct (Re.digits_p 1 None (Ascii.eqb "p") prev (c :: u)) as [n|] eqn:D;
      [|reflexivity].
    exfalso.
    destruct (digits_p_some _ _ _ D)
      as (ds & rest & Hsplit & Hds0 & Hds & Hp & Hr & _).
    assert (Hr' : Re.word_opt (hd_error (rest ++ b)) = false).
    { destruct rest as [|x rest]; [|exact Hr].
      simpl. destruct Hcond as [Hb|Hl]; [exact Hb|].
      rewrite Hsplit, last_of_app in Hl. discriminate Hl. }
    change (c :: u ++ b) with ((c :: u) ++ b) in Hd.
    rewrite Hsplit, <- app_assoc in Hd. simpl app in Hd.
    rewrite (digits_p_intro prev ds (rest ++ b) Hds0 Hds Hp Hr') in Hd.
    discriminate Hd.
  - exact Hs.
Qed.

Section Free.

Variable m : Re.matcher.

Hypothesis m_prev :
  forall prev prev' s,
    Re.word_opt prev = Re.word_opt prev' -> m prev s = m prev' s.

Hypothesis m_app :
  forall prev q u b,
    m prev (u ++ b) = None ->
    Re.word_opt (hd_error b) = false \/ Re.word_opt (Re.last_of q u) = false ->
    u <> [] ->
    m prev u = None.

Lemma free_prev prev prev' s :
  Re.word_opt prev = Re.word_opt prev' -> free m prev s -> free m prev' s.
Proof.
  intros H. destruct s as [|c s]; simpl; [trivial|].
  now rewrite (m_prev prev prev').
Qed.

Lemma free_lstrip s : forall prev,
  Re.word_opt prev = false -> free m prev s -> free m None (Py.lstrip s).
Proof.
  induction s as [|c s IH]; intros prev Hp H; [exact I|].
  simpl Py.lstrip. destruct (Py.is_space c) eqn:E.
  - apply (IH (Some c)); [now apply space_not_word|apply H].
  - now apply (free_prev prev None).
Qed.

Lemma free_in_free a : forall b prev q,
  free_in m prev a b ->
  Re.word_opt (hd_error b) = false \/ Re.word_opt (Re.last_of q a) = false ->
  free m prev a.
Proof.
  induction a as [|c a IH]; intros b prev q H Hcond; [exact I|].
  destruct H as [Hhead Hrest]. split.
  - apply (m_app prev q (c :: a) b Hhead Hcond). discriminate.
  - apply (IH b (Some c) (Some c) Hrest). now rewrite <- (last_of_cons q).
Qed.

Lemma free_free_in a : forall b prev, free m prev (a ++ b) -> free_in m prev a b.
Proof.
  induction a as [|c a IH]; intros b prev H; [exact I|].
  destruct H as [Hhead Hrest]. split; [exact Hhead|now apply IH].
Qed.

Lemma free_app_l a b prev q :
  free m prev (a ++ b) ->
  Re.word_opt (hd_error b) = false \/ Re.word_opt (Re.last_of q a) = false ->
  free m prev a.
Proof. intros H. apply free_in_free. now apply free_free_in. Qed.

Lemma free_strip s : free m None s -> free m None (Py.strip s).
Proof.
  intros H. unfold Py.strip.
  destruct (rstrip_split (Py.lstrip s)) as (ws & Hs & Hws).
  apply (free_app_l _ ws None None).
  - rewrite <- Hs. now apply (free_lstrip s None).
  - left. destruct ws as [|w ws]; [reflexivity|].
    simpl in *. apply andb_prop in Hws. now apply space_not_word.
Qed.

End Free.

Lemma tag_free_digits ds : forall prev,
  forallb Py.is_digit ds = true -> free tag_pattern prev ds.
Proof.
  induction ds as [|d ds IH]; intros prev H; [exact I|].
  pose proof H as Hall.
  simpl in H. apply andb_prop in H. destruct H as [Hd Hds].
  split; [|now apply IH].
  apply tag_pattern_none. split; [|split].
  - unfold Re.group_of.
    destruct (Ascii.eqb d "[") eqn:E; [|reflexivity].
    apply Ascii.eqb_eq in E. subst d. discriminate Hd.
  - destruct (Re.digits_p 1 None (Ascii.eqb "p") prev (d :: ds)) eqn:D;
      [|reflexivity].
    exfalso. destruct (digits_p_some _ _ _ D) as (ds' & rest & Hsplit & _).
    rewrite forallb_forall in Hall.
    assert (Hp : In "p"%char (d :: ds))
      by (rewrite Hsplit; apply in_or_app; right; now left).
    specialize (Hall _ Hp). discriminate Hall.
  - unfold Re.one_of.
    destruct (is_sep d) eqn:E; [|reflexivity].
    destruct (is_sep_cases d E) as [ -> | [ -> | -> ] ]; discriminate Hd.
Qed.

Lemma app_split_no_space w : forall u v rest,
  u ++ " "%char :: v = w ++ rest -> ~ In " "%char w ->
  exists rest0, u = w ++ rest0 /\ rest = rest0 ++ " "%char :: v.
Proof.
  induction w as [|x w IH]; intros u v rest H Hw.
  - exists u. split; [reflexivity|]. symmetry. exact H.
  - destruct u as [|y u].
    + simpl in H. injection H as <- _. exfalso. apply Hw. now left.
    + simpl in H. injection H as -> H.
      destruct (IH u v rest H) as (rest0 & -> & ->);
        [intros Hin; apply Hw; now right|].
      now exists rest0.
Qed.

(** Appending a space and digits adds no tag. *)
Lemma tag_free_extend a : forall prev ds,
  free tag_pattern prev a -> forallb Py.is_digit ds = true ->
  free tag_pattern prev (a ++ " "%char :: ds).
Proof.
  induction a as [|c a IH]; intros prev ds H Hds.
  - split; [apply tag_pattern_space|now apply tag_free_digits].
  - destruct H as [Hhead Hrest]. split; [|now apply IH].
    apply tag_pattern_none in Hhead. destruct Hhead as (Hg & Hd & Hs).
    assert (Hno : ~ In "]"%char (" "%char :: ds)).
    { intros [Hin|Hin]; [discriminate Hin|].
      rewrite forallb_forall in Hds. specialize (Hds _ Hin).
      discriminate Hds. }
    apply tag_pattern_none. split; [|split].
    + simpl app. unfold Re.group_of in *.
      destruct (Ascii.eqb c "["); [|reflexivity].
      destruct (Re.lazy_until "]" (a ++ " "%char :: ds)) as [n|] eqn:L;
        [|reflexivity].
      now rewrite (lazy_until_app_inv _ _ _ _ L Hno) in Hg.
    + destruct (Re.digits_p 1 None (Ascii.eqb "p") prev
                  ((c :: a) ++ " "%char :: ds)) as [n|] eqn:D; [|exact D].
      exfalso.
      destruct (digits_p_some _ _ _ D)
        as (ds' & rest & Hsplit & Hne & Hds' & Hp & Hr & _).
      change (ds' ++ "p"%char :: rest) with (ds' ++ ["p"%char] ++ rest)
        in Hsplit.
      rewrite app_assoc in Hsplit.
      destruct (app_split_no_space _ _ _ _ Hsplit
                  (digits_and_p_no_space ds' Hds'))
        as (rest0 & Hu & Hrest0).
      assert (Hr0 : Re.word_opt (hd_error rest0) = false).
      { destruct rest0 as [|x rest0]; [reflexivity|].
        rewrite Hrest0 in Hr. exact Hr. }
      rewrite Hu, <- app_assoc in Hd. simpl app in Hd.
      rewrite (digits_p_intro prev ds' rest0 Hne Hds' Hp Hr0) in Hd.
      discriminate Hd.
    + exact Hs.
Qed.

Lemma tag_free_fixed s : forall prev,
  free tag_pattern prev s -> Re.sub_from tag_pattern " " prev 0 s = s.
Proof.
  induction s as [|c s IH]; intros prev H; [reflexivity|].
  destruct H as [Hhead Hrest].
  rewrite sub_from_copy by now rewrite Hhead.
  f_equal. now apply IH.
Qed.

(** ** The year token *)

Lemma year_token_prev prev prev' s :
  Re.word_opt prev = Re.word_opt prev' ->
  Re.year_token prev s = Re.year_token prev' s.
Proof.
  intros H. unfold Re.year_token, Re.word_boundary. now rewrite H.
Qed.

Lemma year_token_intro prev a b c d rest :
  is_19_or_20 a b = true ->
  Py.is_digit c = true -> Py.is_digit d = true ->
  Re.word_opt prev = false -> Re.word_opt (hd_error rest) = false ->
  Re.year_token prev (a :: b :: c :: d :: rest) = Some 4%nat.
Proof.
  intros Hab Hc Hd Hp Hr. unfold Re.year_token, Re.word_boundary.
  rewrite Hp, Hr, Hc, Hd. simpl hd_error. simpl Re.word_opt.
  rewrite (digit_is_word d Hd).
  assert (Ha : Py.is_word a = true).
  { unfold is_19_or_20 in Hab. apply orb_prop in Hab.
    destruct Hab as [H|H]; apply andb_prop in H; destruct H as [H _];
      apply Ascii.eqb_eq in H; now subst. }
  rewrite Ha. unfold is_19_or_20 in Hab. rewrite Hab. reflexivity.
Qed.

Lemma year_token_split prev s n :
  Re.year_token prev s = Some n ->
  exists a b c d rest,
    s = a :: b :: c :: d :: rest
    /\ is_19_or_20 a b = true
    /\ Py.is_digit c = true /\ Py.is_digit d = true
    /\ Re.word_opt prev = false
    /\ Re.word_opt (hd_error rest) = false
    /\ n = 4%nat.
Proof.
  intros H. destruct (year_token_chars _ _ _ H)
    as (-> & a & b & c & d & Hf & Hab & Hc & Hd & Hp & Hr).
  destruct s as [|a' [|b' [|c' [|d' rest]]]]; try discriminate Hf.
  injection Hf as -> -> -> ->.
  exists a, b, c, d, rest. repeat split; try assumption.
  unfold is_19_or_20.
  destruct Hab as [[-> ->]|[-> ->]]; reflexivity.
Qed.

Lemma year_token_app prev q u b :
  Re.year_token prev (u ++ b) = None ->
  Re.word_opt (hd_error b) = false \/ Re.word_opt (Re.last_of q u) = false ->
  u <> [] ->
  Re.year_token prev u = None.
Proof.
  intros H Hcond _.
  destruct (Re.year_token prev u) as [n|] eqn:E; [|reflexivity].
  exfalso.
  destruct (year_token_split _ _ _ E)
    as (a & b0 & c & d & rest & -> & Hab & Hc & Hd & Hp & Hr & _).
  assert (Hr' : Re.word_opt (hd_error (rest ++ b)) = false).
  { destruct rest as [|x rest]; [|exact Hr].
    simpl. destruct Hcond as [Hb|Hl]; [exact Hb|].
    unfold Re.last_of in Hl. simpl in Hl.
    rewrite (digit_is_word d Hd) in Hl. discriminate Hl. }
  simpl app in H.
  rewrite (year_token_intro prev a b0 c d (rest ++ b) Hab Hc Hd Hp Hr') in H.
  discriminate H.
Qed.

(** A match in [u] followed by a space is a match in [u]. *)
Lemma year_token_before_space prev u v :
  Re.year_token prev u = None ->
  Re.year_token prev (u ++ " "%char :: v) = None.
Proof.
  intros H.
  destruct (Re.year_token prev (u ++ " "%char :: v)) as [n|] eqn:E;
    [|reflexivity].
  exfalso.
  destruct (year_token_split _ _ _ E)
    as (a & b & c & d & rest & Hs & Hab & Hc & Hd & Hp & Hr & _).
  assert (Ha : Py.is_digit a = true /\ Py.is_digit b = true).
  { unfold is_19_or_20 in Hab. apply orb_prop in Hab.
    destruct Hab as [H0|H0]; apply andb_prop in H0; destruct H0 as [Ha Hb];
      apply Ascii.eqb_eq in Ha, Hb; subst; split; reflexivity. }
  destruct Ha as [Ha Hb].
  destruct (app_split_no_space [a; b; c; d] u v rest) as (rest0 & -> & ->).
  - exact Hs.
  - intros [ -> | [ -> | [ -> | [ -> | [] ] ] ] ]; discriminate.
  - assert (Hr0 : Re.word_opt (hd_error rest0) = false)
      by (destruct rest0; [reflexivity|exact Hr]).
    simpl app in H.
    rewrite (year_token_intro prev a b c d rest0 Hab Hc Hd Hp Hr0) in H.
    discriminate H.
Qed.

Lemma free_extend_year a : forall prev v,
  free Re.year_token prev a -> free_in Re.year_token prev a (" "%char :: v).
Proof.
  induction a as [|c a IH]; intros prev v H; [exact I|].
  destruct H as [Hhead Hrest]. split; [|now apply IH].
  now apply year_token_before_space.
Qed.

(** ** Searching *)

Lemma free_in_snoc m a : forall prev x b,
  free_in m prev a (x :: b) ->
  m (Re.last_of prev a) (x :: b) = None ->
  free_in m prev (a ++ [x]) b.
Proof.
  induction a as [|c a IH]; intros prev x b H Hx.
  - simpl. split; [exact Hx|exact I].
  - destruct H as [Hhead Hrest]. simpl. split.
    + now rewrite <- app_assoc.
    + apply IH; [exact Hrest|now rewrite <- (last_of_cons prev)].
Qed.

Lemma search_from_found m a : forall prev k b n,
  free_in m prev a b ->
  m (Re.last_of prev a) b = Some n ->
  Re.search_from m prev k (a ++ b) = Some ((k + List.length a)%nat, n).
Proof.
  induction a as [|c a IH]; intros prev k b n H Hm.
  - simpl app. unfold Re.last_of in Hm. simpl in Hm.
    destruct b; simpl; rewrite Hm; do 2 f_equal; simpl; lia.
  - destruct H as [Hhead Hrest]. simpl app in *. simpl Re.search_from.
    rewrite Hhead. rewrite (IH (Some c) (S k) b n Hrest).
    + do 2 f_equal. simpl. lia.
    + now rewrite <- (last_of_cons prev).
Qed.

Lemma search_from_split m s : forall prev k i n,
  Re.search_from m prev k s = Some (i, n) ->
  exists a b,
    s = a ++ b /\ i = (k + List.length a)%nat
    /\ free_in m prev a b /\ m (Re.last_of prev a) b = Some n.
Proof.
  induction s as [|c s IH]; intros prev k i n H; simpl in H.
  - exists [], []. destruct (m prev []) eqn:E; [|discriminate].
    injection H as <- <-. repeat split; [simpl; lia|exact E].
  - destruct (m prev (c :: s)) eqn:E.
    + injection H as <- <-. exists [], (c :: s).
      repeat split; [simpl; lia|exact E].
    + destruct (IH _ _ _ _ H) as (a & b & -> & -> & Hfree & Hm).
      exists (c :: a), b. repeat split.
      * simpl. lia.
      * exact E.
      * exact Hfree.
      * now rewrite last_of_cons.
Qed.

(** ** Blanks *)

Lemma sub_plus_prev p repl s prev prev' k :
  Re.sub_from (Re.plus p) repl prev k s
  = Re.sub_from (Re.plus p) repl prev' k s.
Proof. destruct s, k; reflexivity. Qed.

Lemma skipn_run_lstrip s : skipn (Re.run Py.is_space s) s = Py.lstrip s.
Proof.
  induction s as [|c s IH]; simpl; [reflexivity|].
  destruct (Py.is_space c); simpl; [exact IH|reflexivity].
Qed.

Lemma collapse_cons c rest :
  collapse (c :: rest)
  = if Py.is_space c then " "%char :: collapse (Py.lstrip rest)
    else c :: collapse rest.
Proof.
  unfold collapse, Re.sub. simpl Re.sub_from. unfold Re.plus at 1.
  simpl Re.run. destruct (Py.is_space c).
  - rewrite sub_from_skip, skipn_run_lstrip.
    now rewrite (sub_plus_prev _ _ _ _ None).
  - now rewrite (sub_plus_prev _ _ _ _ None).
Qed.

Lemma lstrip_length s : (List.length (Py.lstrip s) <= List.length s)%nat.
Proof.
  induction s as [|c s IH]; simpl; [lia|].
  destruct (Py.is_space c); simpl; lia.
Qed.

Lemma lstrip_fixed_head s :
  Py.lstrip s = s ->
  match s with c :: _ => Py.is_space c = false | [] => True end.
Proof.
  destruct s as [|c s]; [trivial|]. simpl.
  destruct (Py.is_space c); [|reflexivity].
  intros H. pose proof (lstrip_length s) as L. rewrite H in L.
  simpl in L. lia.
Qed.

Lemma lstrip_idempotent s : Py.lstrip (Py.lstrip s) = Py.lstrip s.
Proof.
  induction s as [|c s IH]; simpl; [reflexivity|].
  destruct (Py.is_space c) eqn:E; [exact IH|]. simpl. now rewrite E.
Qed.

Lemma lstrip_head s :
  match s with c :: _ => Py.is_space c = false | [] => True end ->
  Py.lstrip s = s.
Proof. destruct s as [|c s]; [reflexivity|]. simpl. now intros ->. Qed.

Lemma collapsed_collapse n : forall s b,
  (List.length s <= n)%nat ->
  b = false \/ Py.lstrip s = s ->
  collapsed b (collapse s) = true.
Proof.
  induction n as [|n IH]; intros s b Hlen Hb.
  - destruct s; [reflexivity|simpl in Hlen; lia].
  - destruct s as [|c rest]; [reflexivity|]. simpl in Hlen.
    rewrite collapse_cons. destruct (Py.is_space c) eqn:E.
    + assert (b = false) as ->.
      { destruct Hb as [Hb|Hb]; [exact Hb|].
        apply lstrip_fixed_head in Hb. congruence. }
      simpl. apply IH; [pose proof (lstrip_length rest); lia|].
      right. apply lstrip_idempotent.
    + simpl. rewrite E. apply IH; [lia|now left].
Qed.

Lemma collapsed_true_head s :
  collapsed true s = true ->
  match s with c :: _ => Py.is_space c = false | [] => True end.
Proof.
  destruct s as [|c s]; [trivial|]. simpl.
  destruct (Py.is_space c); [discriminate|reflexivity].
Qed.

Lemma collapsed_lstrip s :
  collapsed false s = true -> collapsed true (Py.lstrip s) = true.
Proof.
  destruct s as [|c s]; [reflexivity|]. simpl.
  destruct (Py.is_space c) eqn:E.
  - intros H. apply andb_prop in H. destruct H as [_ H].
    now rewrite (lstrip_head s (collapsed_true_head s H)).
  - simpl. now rewrite E.
Qed.

Lemma lstrip_all_space s : forallb Py.is_space s = true -> Py.lstrip s = [].
Proof.
  induction s as [|c s IH]; simpl; [reflexivity|].
  intros H. apply andb_prop in H. destruct H as [-> H]. now apply IH.
Qed.

Lemma lstrip_app a b :
  Py.lstrip (a ++ b)
  = if forallb Py.is_space a then Py.lstrip b else Py.lstrip a ++ b.
Proof.
  induction a as [|c a IH]; simpl; [reflexivity|].
  destruct (Py.is_space c); simpl; [exact IH|reflexivity].
Qed.

Lemma forallb_rev {A} (f : A -> bool) l : forallb f (rev l) = forallb f l.
Proof.
  induction l as [|x l IH]; simpl; [reflexivity|].
  rewrite forallb_app, IH. simpl. rewrite andb_true_r. apply andb_comm.
Qed.

Lemma rstrip_cons c rest :
  Py.rstrip (c :: rest)
  = if forallb Py.is_space (c :: rest) then [] else c :: Py.rstrip rest.
Proof.
  unfold Py.rstrip. simpl rev. rewrite lstrip_app, forallb_rev.
  simpl forallb. destruct (forallb Py.is_space rest) eqn:E.
  - rewrite andb_true_r. simpl.
    rewrite <- forallb_rev in E. rewrite (lstrip_all_space _ E).
    now destruct (Py.is_space c).
  - rewrite andb_false_r. rewrite rev_app_distr. reflexivity.
Qed.

Lemma rstrip_nil s : Py.rstrip s = [] -> forallb Py.is_space s = true.
Proof.
  destruct s as [|c s]; [reflexivity|]. rewrite rstrip_cons.
  destruct (forallb Py.is_space (c :: s)); [reflexivity|discriminate].
Qed.

Lemma collapsed_rstrip s : forall b,
  collapsed b s = true ->
  Py.rstrip s = [] \/ spaced b (Py.rstrip s) = true.
Proof.
  induction s as [|c s IH]; intros b H; [now left|].
  rewrite rstrip_cons.
  destruct (forallb Py.is_space (c :: s)) eqn:A; [now left|].
  right. simpl in *. destruct (Py.is_space c) eqn:E.
  - apply andb_prop in H. destruct H as [H1 H2]. rewrite H1. simpl.
    destruct (IH true H2) as [H|H]; [|exact H].
    apply rstrip_nil in H. rewrite H in A. discriminate A.
  - destruct (IH false H) as [->|H0]; [reflexivity|exact H0].
Qed.

Lemma strip_spaced s :
  collapsed false s = true ->
  Py.strip s = [] \/ spaced true (Py.strip s) = true.
Proof.
  intros H. unfold Py.strip. now apply collapsed_rstrip, collapsed_lstrip.
Qed.

Lemma spaced_collapsed s : forall b, spaced b s = true -> collapsed b s = true.
Proof.
  induction s as [|c s IH]; intros b H; [reflexivity|]. simpl in *.
  destruct (Py.is_space c).
  - apply andb_prop in H. destruct H as [-> H]. now apply IH.
  - now apply IH.
Qed.

Lemma collapse_spaced s : forall b, spaced b s = true -> collapse s = s.
Proof.
  induction s as [|c s IH]; intros b H; [reflexivity|].
  rewrite collapse_cons. simpl in H. destruct (Py.is_space c).
  - apply andb_prop in H. destruct H as [H1 H2].
    apply andb_prop in H1. destruct H1 as [_ Hc]. apply Ascii.eqb_eq in Hc.
    subst c.
    rewrite (lstrip_head s (collapsed_true_head s (spaced_collapsed _ _ H2))).
    f_equal. now apply (IH true).
  - f_equal. now apply (IH false).
Qed.

Lemma rstrip_spaced s : forall b, spaced b s = true -> Py.rstrip s = s.
Proof.
  induction s as [|c s IH]; intros b H; [reflexivity|].
  rewrite rstrip_cons. simpl in H. simpl forallb.
  destruct (Py.is_space c) eqn:E.
  - apply andb_prop in H. destruct H as [_ H2].
    destruct s as [|x s]; [discriminate H2|].
    pose proof (collapsed_true_head _ (spaced_collapsed _ _ H2)) as Hx.
    simpl in Hx. simpl forallb. rewrite Hx. simpl. f_equal. now apply (IH true).
  - simpl. f_equal. now apply (IH false).
Qed.

Lemma strip_fixed s : spaced true s = true -> Py.strip s = s.
Proof.
  intros H. unfold Py.strip.
  rewrite (lstrip_head s (collapsed_true_head s (spaced_collapsed _ _ H))).
  now apply (rstrip_spaced s true).
Qed.

Lemma collapsed_firstn i : forall s b,
  collapsed b s = true -> collapsed b (firstn i s) = true.
Proof.
  induction i as [|i IH]; intros s b H; [reflexivity|].
  destruct s as [|c s]; [reflexivity|]. simpl in *.
  destruct (Py.is_space c).
  - apply andb_prop in H. destruct H as [-> H]. now apply IH.
  - now apply IH.
Qed.

Lemma collapsed_weaken s : collapsed true s = true -> collapsed false s = true.
Proof.
  destruct s as [|c s]; [reflexivity|]. simpl.
  destruct (Py.is_space c); [discriminate|trivial].
Qed.

Lemma digit_not_blank d : Py.is_digit d = true -> Py.is_space d = false.
Proof.
  intros Hd. apply is_digit_cases in Hd. simpl in Hd.
  repeat (destruct Hd as [<-|Hd]; [reflexivity|]). contradiction.
Qed.

Lemma spaced_digits ds :
  forallb Py.is_digit ds = true -> spaced false ds = true.
Proof.
  induction ds as [|d ds IH]; intros H; [reflexivity|].
  simpl in *. apply andb_prop in H. destruct H as [Hd Hds].
  rewrite (digit_not_blank d Hd). now apply IH.
Qed.

Lemma spaced_true_digits d ds :
  forallb Py.is_digit (d :: ds) = true -> spaced true (d :: ds) = true.
Proof.
  intros H. simpl in H. apply andb_prop in H. destruct H as [Hd Hds].
  simpl. rewrite (digit_not_blank d Hd). now apply spaced_digits.
Qed.

Lemma spaced_extend s : forall b d ds,
  spaced b s = true ->
  forallb Py.is_digit (d :: ds) = true ->
  spaced b (s ++ " "%char :: d :: ds) = true.
Proof.
  induction s as [|c s IH]; intros b d ds H Hds.
  - simpl in H. apply negb_true_iff in H. subst b.
    simpl in Hds. apply andb_prop in Hds. destruct Hds as [Hd Hds].
    simpl. rewrite (digit_not_blank d Hd). now apply spaced_digits.
  - simpl in *. destruct (Py.is_space c).
    + apply andb_prop in H. destruct H as [-> H]. now apply IH.
    + now apply IH.
Qed.

Lemma rstrip_snoc_space u x :
  Py.is_space x = true -> Py.rstrip (u ++ [x]) = Py.rstrip u.
Proof.
  intros Hx. unfold Py.rstrip. rewrite rev_app_distr. simpl.
  now rewrite Hx.
Qed.

Lemma strip_snoc_space s :
  spaced true s = true -> Py.strip (s ++ [" "%char]) = s.
Proof.
  intros H. unfold Py.strip.
  pose proof (collapsed_true_head s (spaced_collapsed _ _ H)) as Hh.
  destruct s as [|c s]; [discriminate H|].
  simpl app. simpl Py.lstrip. rewrite Hh.
  change (c :: s ++ [" "%char]) with ((c :: s) ++ [" "%char]).
  rewrite rstrip_snoc_space by reflexivity.
  now apply (rstrip_spaced _ true).
Qed.

(** ** Parentheses *)

Lemma sub_one_of_fixed p repl s :
  (forall c, In c s -> p c = false) -> Re.sub (Re.one_of p) repl s = s.
Proof.
  unfold Re.sub. rewrite sub_one_of.
  induction s as [|c s IH]; intros H; simpl; [reflexivity|].
  rewrite (H c) by now left. simpl. f_equal. apply IH.
  intros x Hx. apply H. now right.
Qed.

Lemma strip_parens_chars s c : In c (strip_parens s) -> is_paren c = false.
Proof.
  unfold strip_parens, Re.sub. rewrite sub_one_of.
  induction s as [|x s IH]; simpl; [contradiction|].
  destruct (is_paren x) eqn:E; simpl.
  - intros [<-|H]; [reflexivity|now apply IH].
  - intros [<-|H]; [exact E|now apply IH].
Qed.

Lemma lstrip_chars s c : In c (Py.lstrip s) -> In c s.
Proof.
  destruct (lstrip_split s) as (ws & Hs & _). intros H.
  rewrite Hs. apply in_or_app. now right.
Qed.

Lemma strip_chars s c : In c (Py.strip s) -> In c s.
Proof.
  unfold Py.strip. intros H. apply lstrip_chars.
  destruct (rstrip_split (Py.lstrip s)) as (ws & Hs & _).
  rewrite Hs. apply in_or_app. now left.
Qed.

(** ** The steps of [sanitize_folder_name] on its own output *)

Lemma free_tags_strip s :
  free tag_pattern None s -> free tag_pattern None (Py.strip s).
Proof.
  apply free_strip.
  - exact tag_pattern_prev.
  - exact tag_pattern_app.
Qed.

Lemma free_year_strip s :
  free Re.year_token None s -> free Re.year_token None (Py.strip s).
Proof.
  apply free_strip.
  - exact year_token_prev.
  - exact year_token_app.
Qed.

(** A string that the first three steps leave as it is. *)
Lemma steps_fixed s :
  free tag_pattern None s ->
  (forall c, In c s -> is_paren c = false) ->
  s = [] \/ spaced true s = true ->
  Py.strip (collapse (strip_parens (strip_tags s))) = s.
Proof.
  intros Hfree Hparen Hsp.
  unfold strip_tags, Re.sub. rewrite (tag_free_fixed s None Hfree).
  unfold strip_parens. rewrite (sub_one_of_fixed _ _ s Hparen).
  destruct Hsp as [->|Hsp]; [reflexivity|].
  rewrite (collapse_spaced s true Hsp). now apply strip_fixed.
Qed.

(** What the first three steps produce. *)
Lemma steps_output x :
  ~ In "_"%char x -> ~ In "010"%char x ->
  let c := Py.strip (collapse (strip_parens (strip_tags x))) in
  free tag_pattern None c
  /\ (forall ch, In ch c -> is_paren ch = false)
  /\ (c = [] \/ spaced true c = true).
Proof.
  intros Hu Hnl c. split; [|split].
  - apply free_tags_strip. now apply tag_free_collapse.
  - intros ch Hin. apply strip_chars in Hin.
    unfold collapse, Re.sub in Hin. apply sub_from_chars in Hin.
    destruct Hin as [Hin|[<-|[]]]; [|reflexivity].
    now apply (strip_parens_chars (strip_tags x)).
  - apply strip_spaced.
    apply (collapsed_collapse (List.length (strip_parens (strip_tags x))));
      [lia|now left].
Qed.

Lemma year_token_space prev s : Re.year_token prev (" "%char :: s) = None.
Proof.
  unfold Re.year_token. destruct s as [|a [|b [|c rest]]]; try reflexivity.
  simpl. now rewrite andb_false_r.
Qed.

Lemma is_19_or_20_cases a b :
  is_19_or_20 a b = true ->
  (a = "1"%char /\ b = "9"%char) \/ (a = "2"%char /\ b = "0"%char).
Proof.
  unfold is_19_or_20. intros H. apply orb_prop in H.
  destruct H as [H|H]; apply andb_prop in H; destruct H as [Ha Hb];
    apply Ascii.eqb_eq in Ha, Hb; auto.
Qed.

Lemma firstn_length_app {A} (a b : list A) :
  firstn (List.length a) (a ++ b) = a.
Proof. induction a; simpl; [reflexivity|now f_equal]. Qed.

(** The year step on a string that ends with its first year token. *)
Lemma normalize_year_at_end cfg u a b c d :
  free_in Re.year_token None u [a; b; c; d] ->
  Re.word_opt (Re.last_of None u) = false ->
  is_19_or_20 a b = true -> Py.is_digit c = true -> Py.is_digit d = true ->
  (1900 <=? Py.int_of_digits [a; b; c; d])%Z
  && (Py.int_of_digits [a; b; c; d] <=? CURRENT_YEAR cfg)%Z = true ->
  normalize_year cfg (u ++ [a; b; c; d]) = Py.strip u ++ " " ++ [a; b; c; d].
Proof.
  intros Hfree Hlast Hab Hc Hd Hrange. unfold normalize_year, Re.search.
  rewrite (search_from_found Re.year_token u None 0 [a; b; c; d] 4 Hfree)
    by now apply year_token_intro.
  unfold Re.group0. cbn [fst snd Nat.add].
  rewrite skipn_length_app. cbn [firstn]. rewrite Hrange.
  rewrite (year_digits_roundtrip a b c d (is_19_or_20_cases a b Hab) Hc Hd).
  now rewrite firstn_length_app.
Qed.

Lemma normalize_year_cases cfg s :
  normalize_year cfg s = s
  \/ exists pre a b c d post,
      s = pre ++ [a; b; c; d] ++ post
      /\ free_in Re.year_token None pre ([a; b; c; d] ++ post)
      /\ Re.word_opt (Re.last_of None pre) = false
      /\ is_19_or_20 a b = true
      /\ Py.is_digit c = true /\ Py.is_digit d = true
      /\ (1900 <=? Py.int_of_digits [a; b; c; d])%Z
         && (Py.int_of_digits [a; b; c; d] <=? CURRENT_YEAR cfg)%Z = true
      /\ normalize_year cfg s = Py.strip pre ++ " " ++ [a; b; c; d].
Proof.
  unfold normalize_year, Re.search.
  destruct (Re.search_from Re.year_token None 0 s) as [[i n]|] eqn:E;
    [|now left].
  destruct (search_from_split _ _ _ _ _ _ E) as (pre & rest & -> & -> & Hfree & Hm).
  destruct (year_token_split _ _ _ Hm)
    as (a & b & c & d & post & -> & Hab & Hc & Hd & Hp & Hr & ->).
  unfold Re.group0. cbn [fst snd Nat.add].
  rewrite skipn_length_app, firstn_length_app. cbn [firstn].
  destruct ((1900 <=? Py.int_of_digits [a; b; c; d])%Z
            && (Py.int_of_digits [a; b; c; d] <=? CURRENT_YEAR cfg)%Z) eqn:R;
    [|now left].
  right. exists pre, a, b, c, d, post.
  rewrite (year_digits_roundtrip a b c d (is_19_or_20_cases a b Hab) Hc Hd).
  repeat split; assumption.
Qed.

Lemma digits_not_paren a b c d ch :
  is_19_or_20 a b = true -> Py.is_digit c = true -> Py.is_digit d = true ->
  In ch (" "%char :: [a; b; c; d]) -> is_paren ch = false.
Proof.
  intros Hab Hc Hd Hin.
  destruct (is_19_or_20_cases a b Hab) as [[-> ->]|[-> ->]];
    apply is_digit_cases in Hc, Hd; simpl in Hc, Hd, Hin;
    repeat (destruct Hin as [<-|Hin]; [| ]); try contradiction;
    try reflexivity;
    repeat (destruct Hc as [<-|Hc]; [reflexivity|]); try contradiction;
    repeat (destruct Hd as [<-|Hd]; [reflexivity|]); contradiction.
Qed.

Lemma year_digits a b c d :
  is_19_or_20 a b = true -> Py.is_digit c = true -> Py.is_digit d = true ->
  forallb Py.is_digit [a; b; c; d] = true.
Proof.
  intros Hab Hc Hd. simpl. rewrite Hc, Hd.
  destruct (is_19_or_20_cases a b Hab) as [[-> ->]|[-> ->]]; reflexivity.
Qed.

(** X24.  On a folder name that holds no underscore and no line feed
    [sanitize_folder_name] is idempotent: sanitizing the sanitized name
    gives it back. *)
Theorem sanitize_idempotent (cfg : Config) (x : str) :
  ~ In "_"%char x -> ~ In "010"%char x ->
  sanitize_folder_name cfg (sanitize_folder_name cfg x)
  = sanitize_folder_name cfg x.
Proof.
  intros Hu Hnl. rewrite (sanitize_steps cfg x).
  destruct (steps_output x Hu Hnl) as (F1 & F2 & F3).
  set (s := Py.strip (collapse (strip_parens (strip_tags x)))) in *.
  rewrite sanitize_steps.
  destruct (normalize_year_cases cfg s)
    as [Hy|(pre & a & b & c & d & post & Hs & Hfree & Hlast & Hab & Hc & Hd
            & Hrange & Hy)].
  - rewrite Hy. rewrite (steps_fixed s F1 F2 F3). exact Hy.
  - rewrite Hy.
    pose proof (year_digits a b c d Hab Hc Hd) as Hds.
    (* the title part *)
    assert (T1 : free tag_pattern None (Py.strip pre)).
    { apply free_tags_strip.
      apply (free_app_l tag_pattern tag_pattern_app pre
               ([a; b; c; d] ++ post) None None);
        [now rewrite <- Hs|now right]. }
    assert (T2 : free Re.year_token None (Py.strip pre)).
    { apply free_year_strip.
      apply (free_in_free Re.year_token year_token_app pre
               ([a; b; c; d] ++ post) None None Hfree).
      now right. }
    assert (T3 : forall ch, In ch (Py.strip pre) -> is_paren ch = false).
    { intros ch Hin. apply F2. apply strip_chars in Hin.
      rewrite Hs. apply in_or_app. now left. }
    assert (T4 : Py.strip pre = [] \/ spaced true (Py.strip pre) = true).
    { apply strip_spaced. destruct F3 as [F3|F3].
      - rewrite Hs in F3. destruct pre; [reflexivity|discriminate F3].
      - apply collapsed_weaken.
        rewrite <- (firstn_length_app pre ([a; b; c; d] ++ post)).
        rewrite <- Hs. apply collapsed_firstn. now apply spaced_collapsed. }
    set (tp := Py.strip pre) in *.
    change (tp ++ " " ++ [a; b; c; d]) with (tp ++ " "%char :: [a; b; c; d]).
    assert (Hfixed : strip_parens
                       (strip_tags (tp ++ " "%char :: [a; b; c; d]))
                     = tp ++ " "%char :: [a; b; c; d]).
    { unfold strip_tags, Re.sub.
      rewrite (tag_free_fixed _ None
                 (tag_free_extend tp None [a; b; c; d] T1 Hds)).
      apply sub_one_of_fixed. intros ch Hin.
      apply in_app_or in Hin. destruct Hin as [Hin|Hin]; [now apply T3|].
      now apply (digits_not_paren a b c d). }
    rewrite Hfixed.
    destruct T4 as [T4|T4].
    + rewrite T4. simpl app.
      rewrite collapse_cons. change (Py.is_space " ") with true. cbv iota.
      pose proof Hds as Hds'. cbn [forallb] in Hds'.
      apply andb_prop in Hds'. destruct Hds' as [Ha Hbcd].
      pose proof (spaced_true_digits a [b; c; d] Hds) as Hsp.
      rewrite (lstrip_head [a; b; c; d]
                 (collapsed_true_head _ (spaced_collapsed _ _ Hsp))).
      rewrite (collapse_spaced _ true Hsp).
      replace (Py.strip (" "%char :: [a; b; c; d])) with [a; b; c; d].
      * apply (normalize_year_at_end cfg [] a b c d); try assumption;
          [exact I|reflexivity].
      * unfold Py.strip. cbn [Py.lstrip].
        change (Py.is_space " ") with true. cbv iota.
        rewrite (digit_not_blank a Ha).
        symmetry. now apply (rstrip_spaced _ true).
    + pose proof (spaced_extend tp true a [b; c; d] T4 Hds) as Hsp.
      rewrite (collapse_spaced _ true Hsp), (strip_fixed _ Hsp).
      change (tp ++ " "%char :: a :: [b; c; d])
        with (tp ++ [" "%char] ++ [a; b; c; d]).
      rewrite app_assoc.
      rewrite (normalize_year_at_end cfg (tp ++ [" "%char]) a b c d);
        try assumption.
      * rewrite (strip_snoc_space tp T4), <- app_assoc. reflexivity.
      * apply free_in_snoc; [now apply free_extend_year|].
        apply year_token_space.
      * now rewrite last_of_app.
Qed.

Lemma sanitize_idempotent_witness :
  sanitize_folder_name (CONFIG 2026)
    (sanitize_folder_name (CONFIG 2026) "The.Matrix.1999.1080p.BluRay")
  = sanitize_folder_name (CONFIG 2026) "The.Matrix.1999.1080p.BluRay".
Proof.
  apply (sanitize_idempotent (CONFIG 2026) "The.Matrix.1999.1080p.BluRay").
  - intros H. vm_compute in H.
    repeat (destruct H as [H|H]; [discriminate H|]). exact H.
  - intros H. vm_compute in H.
    repeat (destruct H as [H|H]; [discriminate H|]). exact H.
Defined.

(** No tag starts at a digit that follows an underscore: the underscore is
    a word character, so [\b] fails before the digits of [\d+p]. *)
Lemma no_tag_after_underscore d rest :
  Py.is_digit d = true -> tag_pattern (Some "_"%char) (d :: rest) = None.
Proof.
  intros Hd. apply tag_pattern_none. split; [|split].
  - unfold Re.group_of.
    destruct (Ascii.eqb d "[") eqn:E; [|reflexivity].
    apply Ascii.eqb_eq in E. subst d. discriminate Hd.
  - unfold Re.digits_p, Re.word_boundary. cbn [hd_error Re.word_opt].
    rewrite (digit_is_word d Hd). reflexivity.
  - unfold Re.one_of.
    destruct (is_sep d) eqn:E; [|reflexivity].
    apply is_digit_cases in Hd. simpl in Hd.
    repeat (destruct Hd as [ <- |Hd]; [discriminate E|]). contradiction.
Qed.

(** C8: the code at an input where it departs from the claim.  The first
    pass replaces the underscores of "Movie_720p_1999" by spaces but
    leaves the resolution marker, which [\b\d+p\b] does not match after an
    underscore; the sanitized form "Movie 720p 1999" holds the year token
    1999, and sanitizing it again removes the marker, now between spaces:
    the second result, "Movie 1999", differs from the first.  Written with
    dots, the same name loses the marker in the first pass. *)
Theorem sanitize_keeps_marker_after_underscore :
  (forall d rest,
      Py.is_digit d = true -> tag_pattern (Some "_"%char) (d :: rest) = None)
  /\ has_normalized_year (CONFIG 2026)
       (sanitize_folder_name (CONFIG 2026) "Movie_720p_1999")
  /\ sanitize_folder_name (CONFIG 2026) "Movie_720p_1999"
     = ("Movie 720p 1999" : str)
  /\ sanitize_folder_name (CONFIG 2026)
       (sanitize_folder_name (CONFIG 2026) "Movie_720p_1999")
     = ("Movie 1999" : str)
  /\ sanitize_folder_name (CONFIG 2026)
       (sanitize_folder_name (CONFIG 2026) "Movie_720p_1999")
     <> sanitize_folder_name (CONFIG 2026) "Movie_720p_1999"
  /\ sanitize_folder_name (CONFIG 2026) "Movie.720p.1999"
     = ("Movie 1999" : str).
Proof.
  split; [exact no_tag_after_underscore|].
  split; [|split; [|split; [|split]]].
  - exists 11%nat. split; [vm_compute; reflexivity|].
    split; vm_compute; discriminate.
  - vm_compute. reflexivity.
  - vm_compute. reflexivity.
  - vm_compute. discriminate.
  - vm_compute. reflexivity.
Qed.

(** * Further properties of the normalisers *)

(** ** [safe_name] *)

Lemma safe_name_map name :
  safe_name name = map (fun c => if is_illegal c then "-"%char else c) name.
Proof.
  unfold safe_name, Re.sub. rewrite sub_one_of.
  induction name as [|c s IH]; [reflexivity|].
  cbn [flat_map map]. rewrite IH. now destruct (is_illegal c).
Qed.

(** X1.  [safe_name] works character by character: the result has the
    length of the name, holds none of the nine illegal characters, keeps
    every legal character in place, and is left unchanged by a second
    pass. *)
Theorem safe_name_legal_and_stable (name : str) :
  List.length (safe_name name) = List.length name
  /\ (forall c, In c (safe_name name) -> is_illegal c = false)
  /\ (forall i c,
         nth_error name i = Some c -> is_illegal c = false ->
         nth_error (safe_name name) i = Some c)
  /\ safe_name (safe_name name) = safe_name name.
Proof.
  assert (Hlegal : forall c, In c (safe_name name) -> is_illegal c = false).
  { rewrite safe_name_map. intros c Hin. apply in_map_iff in Hin.
    destruct Hin as (x & <- & _). now destruct (is_illegal x) eqn:E. }
  split; [rewrite safe_name_map; apply length_map|].
  split; [exact Hlegal|]. split.
  - intros i c Hi Hc. rewrite safe_name_map.
    rewrite nth_error_map, Hi. simpl. now rewrite Hc.
  - apply safe_name_legal. apply forallb_forall.
    intros c Hin. now rewrite (Hlegal c Hin).
Qed.

(** ** The characters of a sanitized name *)

Lemma tag_pattern_positive prev s : tag_pattern prev s <> Some 0%nat.
Proof.
  unfold tag_pattern, Re.alt, Re.group_of, Re.digits_p, Re.one_of.
  destruct s as [|c rest]; simpl.
  - rewrite andb_false_r. discriminate.
  - destruct (Ascii.eqb c "[").
    + destruct (Re.lazy_until "]" rest); simpl; [discriminate|].
      repeat match goal with
             | |- context [if ?b then _ else _] => destruct b
             | |- context [match ?l with [] => _ | _ :: _ => _ end] =>
                 destruct l
             end; discriminate.
    + repeat match goal with
             | |- context [if ?b then _ else _] => destruct b
             | |- context [match ?l with [] => _ | _ :: _ => _ end] =>
                 destruct l
             end; discriminate.
Qed.

Lemma strip_tags_chars s : forall prev k x,
  In x (Re.sub_from tag_pattern " " prev k s) -> is_sep x = false.
Proof.
  induction s as [|c s IH]; intros prev k x H; simpl in H; [contradiction|].
  destruct k as [|k]; [|now apply (IH _ _ _ H)].
  destruct (tag_pattern prev (c :: s)) as [[|j]|] eqn:E.
  - now destruct (tag_pattern_positive prev (c :: s)).
  - destruct H as [ <- | H]; [reflexivity|now apply (IH _ _ _ H)].
  - destruct H as [ <- | H]; [|now apply (IH _ _ _ H)].
    apply tag_pattern_none in E. destruct E as (_ & _ & E).
    unfold Re.one_of in E. now destruct (is_sep c).
Qed.

Lemma normalize_year_chars cfg s x :
  In x (normalize_year cfg s) -> In x s \/ x = " "%char.
Proof.
  destruct (normalize_year_cases cfg s)
    as [ -> | (pre & a & b & c & d & post & Hs & _ & _ & _ & _ & _ & _ & ->)];
    [now left|].
  intros H. apply in_app_or in H. destruct H as [H|H].
  - left. apply strip_chars in H. rewrite Hs. apply in_or_app. now left.
  - change (" " ++ [a; b; c; d]) with (" "%char :: [a; b; c; d]) in H.
    destruct H as [ <- | H]; [now right|].
    left. rewrite Hs. apply in_or_app. right. apply in_or_app. now left.
Qed.

Lemma sanitize_chars cfg folder_name c :
  In c (sanitize_folder_name cfg folder_name) ->
  is_sep c = false /\ is_paren c = false.
Proof.
  intros H. rewrite sanitize_steps in H.
  apply normalize_year_chars in H.
  destruct H as [H | -> ]; [|split; reflexivity].
  apply strip_chars in H. unfold collapse, Re.sub in H.
  apply sub_from_chars in H. destruct H as [H|[ <- | []]]; [|split; reflexivity].
  split; [|now apply (strip_parens_chars (strip_tags folder_name))].
  unfold strip_parens, Re.sub in H. apply sub_from_chars in H.
  destruct H as [H|[ <- | []]]; [|reflexivity].
  now apply (strip_tags_chars folder_name None 0).
Qed.

Lemma extract_year_digits cfg folder_name y :
  extract_year cfg folder_name = Some y -> forallb Py.is_digit y = true.
Proof.
  unfold extract_year.
  destruct (Re.search Re.year_token folder_name) as [mt|]; [|discriminate].
  cbv zeta.
  destruct ((1900 <=? Py.int_of_digits (Re.group0 folder_name mt))%Z
            && (Py.int_of_digits (Re.group0 folder_name mt)
                <=? CURRENT_YEAR cfg)%Z) eqn:E; [|discriminate].
  intros [= <-]. apply andb_prop in E. destruct E as [E _].
  apply Z.leb_le in E. apply str_of_int_digits. lia.
Qed.

(** X2.  A sanitized name holds no dot, hyphen, underscore or parenthesis,
    whatever the folder name was; and so does the query that [main] sends
    first, the sanitized name with the year of the folder appended when it
    lost it. *)
Theorem sanitized_name_has_no_separator (env : Env) (folder_name : str) :
  forall c,
    In c (sanitize_folder_name (cfg env) folder_name)
    \/ In c (sanitized_with_year env folder_name) ->
    is_sep c = false /\ is_paren c = false.
Proof.
  intros c [H|H]; [now apply (sanitize_chars (cfg env) folder_name)|].
  unfold sanitized_with_year in H.
  destruct (extract_year (cfg env) folder_name) as [y|] eqn:Y;
    [|now apply (sanitize_chars (cfg env) folder_name)].
  destruct (negb (Py.contains y (sanitize_folder_name (cfg env) folder_name)));
    [|now apply (sanitize_chars (cfg env) folder_name)].
  apply in_app_or in H.
  destruct H as [H|H]; [now apply (sanitize_chars (cfg env) folder_name)|].
  change (" " ++ y) with (" "%char :: y) in H.
  destruct H as [ <- |H]; [split; reflexivity|].
  pose proof (extract_year_digits _ _ _ Y) as D.
  rewrite forallb_forall in D. specialize (D c H).
  apply is_digit_cases in D. simpl in D.
  repeat (destruct D as [ <- |D]; [split; reflexivity|]). contradiction.
Qed.

Lemma sanitized_name_has_no_separator_witness :
  is_sep "H" = false /\ is_paren "H" = false.
Proof.
  apply (sanitized_name_has_no_separator Sample.catalogue "Heat.1995.1080p"
           "H"%char).
  left. vm_compute. now left.
Defined.

(** ** The blanks of a sanitized name *)

Lemma strip_collapse_spaced s :
  Py.strip (collapse s) = [] \/ spaced true (Py.strip (collapse s)) = true.
Proof.
  apply strip_spaced.
  apply (collapsed_collapse (List.length s)); [lia|now left].
Qed.

(** X3.  The blanks of a sanitized name are single spaces between its
    parts, none at either end, with one exception: when the year token
    comes first, the result is one space followed by the four digits of
    the year. *)
Theorem sanitized_name_blanks (cfg : Config) (folder_name : str) :
  let name := sanitize_folder_name cfg folder_name in
  name = []
  \/ spaced true name = true
  \/ exists a b c d,
      name = " "%char :: [a; b; c; d]
      /\ forallb Py.is_digit [a; b; c; d] = true
      /\ extract_year cfg [a; b; c; d] = Some [a; b; c; d].
Proof.
  intros name. unfold name. rewrite sanitize_steps.
  set (s := Py.strip (collapse (strip_parens (strip_tags folder_name)))).
  assert (F : s = [] \/ spaced true s = true) by apply strip_collapse_spaced.
  destruct (normalize_year_cases cfg s)
    as [ -> | (pre & a & b & c & d & post & Hs & Hfree & Hlast & Hab & Hc & Hd
            & Hrange & ->)]; [tauto|].
  right.
  pose proof (year_digits a b c d Hab Hc Hd) as Hds.
  assert (T : Py.strip pre = [] \/ spaced true (Py.strip pre) = true).
  { apply strip_spaced. destruct F as [F|F].
    - rewrite Hs in F. destruct pre; [reflexivity|discriminate F].
    - apply collapsed_weaken.
      rewrite <- (firstn_length_app pre ([a; b; c; d] ++ post)).
      rewrite <- Hs. apply collapsed_firstn. now apply spaced_collapsed. }
  destruct T as [ -> | T].
  - right. exists a, b, c, d. split; [reflexivity|]. split; [exact Hds|].
    unfold extract_year, Re.search.
    pose proof (search_from_found Re.year_token [] None 0 [a; b; c; d] 4 I
                  (year_token_intro None a b c d [] Hab Hc Hd
                     eq_refl eq_refl)) as S.
    cbn [app List.length Nat.add] in S. rewrite S.
    unfold Re.group0. cbn [fst snd Nat.add List.length skipn firstn].
    rewrite Hrange.
    now rewrite (year_digits_roundtrip a b c d
                   (is_19_or_20_cases a b Hab) Hc Hd).
  - left. now apply (spaced_extend (Py.strip pre) true a [b; c; d]).
Qed.

Lemma sub_deletes_chars m s x : forall prev k,
  In x (Re.sub_from m "" prev k s) -> In x s.
Proof.
  intros prev k H. apply sub_from_chars in H. now destruct H as [H|[]].
Qed.

(** X4.  [extract_core_title] only deletes: every character of the core
    title is a character of the name or a space.  The core title has no
    blank at either end, and its blanks are single spaces. *)
Theorem core_title_blanks (sanitized_name : str) :
  (extract_core_title sanitized_name = []
   \/ spaced true (extract_core_title sanitized_name) = true)
  /\ forall c,
      In c (extract_core_title sanitized_name) ->
      In c sanitized_name \/ c = " "%char.
Proof.
  split; [unfold extract_core_title; apply strip_collapse_spaced|].
  intros c H. unfold extract_core_title in H.
  apply strip_chars in H. unfold Re.sub in H.
  apply sub_from_chars in H. destruct H as [H|[H|[]]]; [|now right].
  left. do 5 apply sub_deletes_chars in H. exact H.
Qed.

(** * Further properties of the retry wrapper *)

Lemma slept_app a b : slept (a ++ b) = (slept a + slept b)%nat.
Proof.
  induction a as [|e a IH]; [reflexivity|].
  destruct e; simpl; rewrite IH; lia.
Qed.

Section RetryInGeneral.

Context {A : Type}.
Variables (max_retries delay : nat) (name : str) (func : M A).

Lemma wrapper_loop_step remaining attempts w e w' :
  func w = (Raise e, w') ->
  (max_retries <=? S attempts)%nat = false ->
  wrapper_loop max_retries delay name func (S remaining) attempts w
  = wrapper_loop max_retries delay name func remaining (S attempts)
      (snd (backoff max_retries delay name e (S attempts) w')).
Proof.
  intros Hf Hlt. simpl. unfold try_except. unfold bind at 1.
  rewrite Hf, Hlt. reflexivity.
Qed.

Lemma wrapper_loop_not_none : forall remaining attempts w,
  (1 <= remaining)%nat -> (attempts + remaining = max_retries)%nat ->
  fst (wrapper_loop max_retries delay name func remaining attempts w)
  <> Return None.
Proof.
  induction remaining as [|remaining IH]; intros attempts w H1 Hsum; [lia|].
  destruct (func w) as [[a|e] w'] eqn:Hf.
  - rewrite (wrapper_loop_success _ _ _ _ _ _ _ _ _ Hf). discriminate.
  - destruct (max_retries <=? S attempts)%nat eqn:E.
    + apply Nat.leb_le in E.
      rewrite (wrapper_loop_last _ _ _ _ _ _ _ _ _ Hf E). discriminate.
    + rewrite (wrapper_loop_step _ _ _ _ _ Hf E).
      apply Nat.leb_gt in E. apply IH; lia.
Qed.

Lemma wrapper_loop_some : forall remaining attempts w a,
  fst (wrapper_loop max_retries delay name func remaining attempts w)
  = Return (Some a) ->
  exists w0, fst (func w0) = Return a.
Proof.
  induction remaining as [|remaining IH]; intros attempts w a H;
    [discriminate H|].
  simpl in H. unfold try_except in H. unfold bind at 1 in H.
  destruct (func w) as [[b|e] w1] eqn:Hf.
  - simpl in H. exists w. rewrite Hf. simpl. congruence.
  - destruct (max_retries <=? S attempts)%nat; [discriminate H|].
    apply (IH _ _ _ H).
Qed.

Lemma wrapper_loop_raised : forall remaining attempts w e,
  fst (wrapper_loop max_retries delay name func remaining attempts w)
  = Raise e ->
  exists w0, fst (func w0) = Raise e.
Proof.
  induction remaining as [|remaining IH]; intros attempts w e H;
    [discriminate H|].
  simpl in H. unfold try_except in H. unfold bind at 1 in H.
  destruct (func w) as [[b|e0] w1] eqn:Hf.
  - discriminate H.
  - destruct (max_retries <=? S attempts)%nat.
    + exists w. rewrite Hf. simpl in *. congruence.
    + apply (IH _ _ _ H).
Qed.

Lemma wrapper_loop_exhausted :
  (forall w, exists e, fst (func w) = Raise e) ->
  (forall w, requests (snd (func w)) = S (requests w)) ->
  (forall w, slept (trace (snd (func w))) = slept (trace w)) ->
  forall remaining attempts w,
    (1 <= remaining)%nat -> (attempts + remaining = max_retries)%nat ->
    exists e w',
      wrapper_loop max_retries delay name func remaining attempts w
      = (Raise e, w')
      /\ requests w' = (requests w + remaining)%nat
      /\ slept (trace w') = (slept (trace w) + (remaining - 1) * delay)%nat.
Proof.
  intros Hfail Hreq Hsleep.
  induction remaining as [|remaining IH]; intros attempts w H1 Hsum; [lia|].
  destruct (Hfail w) as [e He].
  specialize (Hreq w). specialize (Hsleep w).
  destruct (func w) as [r w1] eqn:Hf. simpl in He, Hreq, Hsleep. subst r.
  destruct (max_retries <=? S attempts)%nat eqn:E.
  - apply Nat.leb_le in E.
    rewrite (wrapper_loop_last _ _ _ _ _ _ _ _ _ Hf E).
    exists e, w1. split; [reflexivity|]. split; [|]; lia.
  - rewrite (wrapper_loop_step _ _ _ _ _ Hf E).
    apply Nat.leb_gt in E.
    destruct (IH (S attempts)
                 (snd (backoff max_retries delay name e (S attempts) w1)))
      as (e' & w' & -> & Hr & Hs); [lia|lia|].
    exists e', w'. split; [reflexivity|].
    rewrite requests_backoff in Hr.
    unfold backoff, logging, time_sleep, emit, bind in Hs.
    cbn [snd trace] in Hs. rewrite !slept_app in Hs. cbn [slept] in Hs.
    split; [lia|]. rewrite Hs, Hsleep.
    destruct remaining as [|k]; [lia|]. simpl. lia.
Qed.

End RetryInGeneral.

(** X5.  With [max_retries] zero the wrapper falls through its loop: it
    returns [None] without having called the operation.  With one or more
    attempts allowed it never falls through: whatever it returns was
    returned by a call of the operation (a [None] of the operation
    included, which the wrapper hands on after that one call), and
    whatever it raises was raised by a call of the operation. *)
Theorem retry_hands_on_the_operation {A : Type} (max_retries delay : nat)
        (name : str) (func : M A) (w : World) :
  (max_retries = 0%nat ->
   retry max_retries delay name func w = (Return None, w))
  /\ ((1 <= max_retries)%nat ->
      (forall r,
          fst (retry max_retries delay name func w) = Return r ->
          exists a w0, r = Some a /\ fst (func w0) = Return a)
      /\ (forall e,
             fst (retry max_retries delay name func w) = Raise e ->
             exists w0, fst (func w0) = Raise e)
      /\ (forall a w',
             func w = (Return a, w') ->
             retry max_retries delay name func w = (Return (Some a), w'))).
Proof.
  split; [intros ->; reflexivity|].
  intros Hmax. split; [|split].
  - intros [a|] H.
    + apply wrapper_loop_some in H. destruct H as [w0 H]. now exists a, w0.
    + unfold retry in H.
      now destruct (wrapper_loop_not_none max_retries delay name func
                      max_retries 0 w Hmax eq_refl).
  - intros e. apply wrapper_loop_raised.
  - intros a w' H. unfold retry.
    destruct max_retries as [|n]; [lia|].
    now apply wrapper_loop_success.
Qed.

(** X6.  An operation that fails on every attempt, each attempt sending
    one request and not sleeping itself, is tried exactly [max_retries]
    times: the wrapper raises, [max_retries] requests have been sent, and
    the wrapper has slept [delay] seconds between two attempts and not
    after the last. *)
Theorem retry_exhausted {A : Type} (max_retries delay : nat) (name : str)
        (func : M A) (w : World) :
  (1 <= max_retries)%nat ->
  (forall w0, exists e, fst (func w0) = Raise e) ->
  (forall w0, requests (snd (func w0)) = S (requests w0)) ->
  (forall w0, slept (trace (snd (func w0))) = slept (trace w0)) ->
  exists e w',
    retry max_retries delay name func w = (Raise e, w')
    /\ requests w' = (requests w + max_retries)%nat
    /\ slept (trace w') = (slept (trace w) + (max_retries - 1) * delay)%nat.
Proof.
  intros Hmax Hfail Hreq Hsleep. unfold retry.
  apply wrapper_loop_exhausted; auto.
Qed.

Lemma retry_exhausted_witness :
  exists e w',
    retry 3 10 "search_movie" (search_movie Sample.unreachable "Heat")
          (Sample.plain_folder [])
    = (Raise e, w')
    /\ requests w' = (requests (Sample.plain_folder []) + 3)%nat
    /\ slept (trace w')
       = (slept (trace (Sample.plain_folder [])) + (3 - 1) * 10)%nat.
Proof.
  apply (retry_exhausted 3 10 "search_movie"
           (search_movie Sample.unreachable "Heat") (Sample.plain_folder [])).
  - lia.
  - intros w0. eexists. reflexivity.
  - intros w0. reflexivity.
  - intros w0. simpl. rewrite slept_app. simpl. lia.
Defined.

(** * Further properties of the prompt *)

Lemma rstrip_idempotent s : Py.rstrip (Py.rstrip s) = Py.rstrip s.
Proof.
  unfold Py.rstrip. now rewrite rev_involutive, lstrip_idempotent.
Qed.

Lemma rstrip_head s :
  match s with c :: _ => Py.is_space c = false | [] => True end ->
  match Py.rstrip s with c :: _ => Py.is_space c = false | [] => True end.
Proof.
  destruct s as [|c s]; [trivial|]. intros Hc. rewrite rstrip_cons.
  now destruct (forallb Py.is_space (c :: s)).
Qed.

Lemma strip_idempotent s : Py.strip (Py.strip s) = Py.strip s.
Proof.
  unfold Py.strip.
  rewrite (lstrip_head (Py.rstrip (Py.lstrip s))).
  - apply rstrip_idempotent.
  - apply rstrip_head, lstrip_fixed_head, lstrip_idempotent.
Qed.

(** What a turn of the prompt leaves: a candidate of the list, a name that
    is not empty and has no blank at either end, or the end of the input;
    the lines read are a prefix of the lines that were waiting. *)
Lemma renames_snoc t e :
  match e with OsRename _ _ => False | _ => True end ->
  renames (t ++ [e]) = renames t.
Proof.
  intros He. induction t as [|x t IH]; simpl.
  - now destruct e.
  - destruct x; now rewrite IH.
Qed.

Lemma prompt_loop_outcome env choices : forall n lines w r,
  (List.length lines <= n)%nat -> stdin w = lines ->
  prompt_loop env choices lines w = r ->
  match fst r with
  | Return (Candidate c) => In c choices
  | Return (Custom name) => name <> [] /\ Py.strip name = name
  | Raise e => e = EOFError /\ stdin (snd r) = []
  end
  /\ base_dir (snd r) = base_dir w
  /\ requests (snd r) = requests w
  /\ renames (trace (snd r)) = renames (trace w)
  /\ exists read, lines = read ++ stdin (snd r).
Proof.
  induction n as [|n IH]; intros lines w r Hlen Hin Hr.
  - destruct lines; [|simpl in Hlen; lia].
    simpl in Hr. unfold bind, input in Hr. rewrite Hin in Hr. subst r.
    cbn [fst snd].
    split; [now split|]. split; [reflexivity|]. split; [reflexivity|].
    split; [reflexivity|]. now exists [].
  - destruct lines as [|l lines'].
    { simpl in Hr. unfold bind, input in Hr. rewrite Hin in Hr. subst r.
      cbn [fst snd].
      split; [now split|]. split; [reflexivity|]. split; [reflexivity|].
      split; [reflexivity|]. now exists []. }
    simpl in Hlen. simpl prompt_loop in Hr. unfold bind at 1 in Hr.
    rewrite (input_line _ _ _ _ Hin) in Hr. cbv beta iota zeta in Hr.
    set (w1 := set_world (base_dir w) lines' (requests w) _) in Hr.
    assert (Hw1 : renames (trace w1) = renames (trace w)).
    { unfold w1. cbn [trace set_world]. now apply renames_snoc. }
    assert (Again : forall msg r0,
      (print msg ;;; prompt_loop env choices lines') w1 = r0 ->
      match fst r0 with
      | Return (Candidate c) => In c choices
      | Return (Custom name) => name <> [] /\ Py.strip name = name
      | Raise e => e = EOFError /\ stdin (snd r0) = []
      end
      /\ base_dir (snd r0) = base_dir w
      /\ requests (snd r0) = requests w
      /\ renames (trace (snd r0)) = renames (trace w)
      /\ exists read, l :: lines' = read ++ stdin (snd r0)).
    { intros msg r0 Hr0. unfold bind, print, emit in Hr0.
      cbv beta iota zeta in Hr0.
      apply IH in Hr0; [|lia|reflexivity].
      destruct Hr0 as (H1 & H2 & H3 & H4 & read & H5).
      split; [exact H1|]. split; [exact H2|]. split; [exact H3|].
      split.
      - rewrite H4. cbn [trace]. rewrite renames_snoc by exact I. exact Hw1.
      - exists (l :: read). simpl. now f_equal. }
    destruct (Py.isdigit (Py.strip l)) eqn:D.
    + destruct (Py.int (int_max_str_digits env) (Py.strip l))
        as [number|] eqn:V; [|now apply Again in Hr].
      destruct ((1 <=? number)%Z
                && (number <=? Z.of_nat (List.length choices))%Z) eqn:R.
      * apply andb_prop in R. destruct R as [R1 R2].
        apply Z.leb_le in R1, R2.
        destruct (nth_error choices (Z.to_nat (number - 1))) eqn:N.
        -- unfold ret in Hr. subst r. cbn [fst snd].
           split; [now apply nth_error_In in N|].
           split; [reflexivity|]. split; [reflexivity|].
           split; [exact Hw1|]. now exists [l].
        -- apply nth_error_None in N. lia.
      * destruct (number =? Z.of_nat (List.length choices) + 1)%Z.
        -- unfold bind at 1 in Hr.
           destruct lines' as [|l2 lines''].
           { unfold input in Hr. cbn [stdin w1 set_world] in Hr. subst r.
             cbn [fst snd].
             split; [now split|]. split; [reflexivity|].
             split; [reflexivity|]. split; [exact Hw1|]. now exists [l]. }
           rewrite (input_line _ l2 lines'' w1 eq_refl) in Hr.
           cbv beta iota zeta in Hr.
           destruct (Py.strip l2) as [|c s] eqn:S2.
           ++ unfold bind, print, emit in Hr. cbv beta iota zeta in Hr.
              apply IH in Hr; [|simpl in Hlen; lia|reflexivity].
              destruct Hr as (H1 & H2 & H3 & H4 & read & H5).
              split; [exact H1|]. split; [exact H2|]. split; [exact H3|].
              split.
              ** rewrite H4. cbn [trace set_world].
                 rewrite !renames_snoc by exact I. exact Hw1.
              ** exists (l :: l2 :: read). simpl. now do 2 f_equal.
           ++ unfold ret in Hr. subst r. cbn [fst snd]. rewrite <- S2.
              split; [split; [rewrite S2; discriminate
                             |apply strip_idempotent]|].
              split; [reflexivity|]. split; [reflexivity|].
              split; [|now exists [l; l2]].
              cbn [trace set_world]. rewrite renames_snoc by exact I.
              exact Hw1.
        -- now apply Again in Hr.
    + destruct (Py.strip l) as [|c s] eqn:S1.
      * now apply Again in Hr.
      * unfold ret in Hr. subst r. cbn [fst snd]. rewrite <- S1.
        split; [split; [rewrite S1; discriminate|apply strip_idempotent]|].
        split; [reflexivity|]. split; [reflexivity|].
        split; [exact Hw1|]. now exists [l].
Qed.

(** X7.  [prompt_user_choice] ends in one of three ways: with a candidate
    of the list it was given, with a custom name that is not empty and has
    no blank at either end, or with [EOFError] once the input is used up
    (never with an index out of range).  It reads the waiting lines from
    the front and touches neither the directory nor the catalogue. *)
Theorem prompt_user_choice_outcome (env : Env) (choices : list details)
        (w : World) :
  let r := prompt_user_choice env choices w in
  match fst r with
  | Return (Candidate c) => In c choices
  | Return (Custom name) => name <> [] /\ Py.strip name = name
  | Raise e => e = EOFError /\ stdin (snd r) = []
  end
  /\ base_dir (snd r) = base_dir w
  /\ requests (snd r) = requests w
  /\ exists read, stdin w = read ++ stdin (snd r).
Proof.
  cbv zeta. destruct (prompt_user_choice_menu env choices w) as [evs ->].
  destruct (prompt_loop_outcome env choices (List.length (stdin w)) (stdin w)
              (set_world (base_dir w) (stdin w) (requests w)
                         (trace w ++ evs)) _ (le_n _) eq_refl eq_refl)
    as (H1 & H2 & H3 & _ & H5).
  auto.
Qed.

(** X8.  A line of digits that the interpreter converts to a number
    between one and the number of candidates selects the candidate at that
    position of the list shown, and that line is the only one read.  A
    line of digits that [int] rejects with [ValueError] selects nothing:
    the prompt prints its complaint and goes on with the next line. *)
Theorem prompt_user_choice_by_number (env : Env) (choices : list details)
        (w : World) (line : str) (rest : list str) :
  stdin w = line :: rest ->
  Py.isdigit (Py.strip line) = true ->
  match Py.int (int_max_str_digits env) (Py.strip line) with
  | Some number =>
      (1 <= number <= Z.of_nat (List.length choices))%Z ->
      exists c w',
        nth_error choices (Z.to_nat (number - 1)) = Some c
        /\ prompt_user_choice env choices w = (Return (Candidate c), w')
        /\ stdin w' = rest
  | None =>
      exists evs,
        prompt_user_choice env choices w
        = (print "Invalid input. Please enter a valid number or name." ;;;
           prompt_loop env choices rest)
            (set_world (base_dir w) rest (requests w)
                       (trace w ++ evs ++ [Input menu_prompt]))
  end.
Proof.
  intros Hin Hd.
  destruct (prompt_user_choice_menu env choices w) as [evs E].
  rewrite Hin in E. simpl prompt_loop in E. unfold bind at 1 in E.
  erewrite input_line in E by reflexivity. cbv beta iota zeta in E.
  rewrite Hd in E.
  destruct (Py.int (int_max_str_digits env) (Py.strip line)) as [number|].
  - intros Hrange.
    replace ((1 <=? number)%Z) with true in E
      by (symmetry; apply Z.leb_le; lia).
    replace ((number <=? Z.of_nat (List.length choices))%Z) with true in E
      by (symmetry; apply Z.leb_le; lia).
    cbn [andb] in E.
    destruct (nth_error choices (Z.to_nat (number - 1))) as [c|] eqn:N.
    + exists c. eexists. split; [reflexivity|]. split; [exact E|reflexivity].
    + apply nth_error_None in N. lia.
  - exists evs. rewrite E, app_assoc. reflexivity.
Qed.

Lemma prompt_user_choice_by_number_witness :
  exists c w',
    nth_error [Sample.heat_1995; Sample.heat_1986] (Z.to_nat (2 - 1)) = Some c
    /\ prompt_user_choice Sample.catalogue
         [Sample.heat_1995; Sample.heat_1986]
         (Sample.plain_folder [(" 2 " : str); ("x" : str)])
       = (Return (Candidate c), w')
    /\ stdin w' = [("x" : str)].
Proof.
  pose proof (prompt_user_choice_by_number Sample.catalogue
                [Sample.heat_1995; Sample.heat_1986]
                (Sample.plain_folder [(" 2 " : str); ("x" : str)])
                (" 2 " : str) [("x" : str)] eq_refl eq_refl) as H.
  change (Py.int (int_max_str_digits Sample.catalogue) (Py.strip " 2 "))
    with (Some 2%Z) in H.
  cbv iota in H. apply H. simpl. lia.
Defined.

(** * Further properties of the rename and of the run *)

Lemma renames_app a b : renames (a ++ b) = renames a ++ renames b.
Proof.
  induction a as [|e a IH]; [reflexivity|].
  destruct e; simpl; now rewrite IH.
Qed.

Lemma take_while_app p a b :
  forallb p a = true ->
  match b with c :: _ => p c = false | [] => True end ->
  take_while p (a ++ b) = a.
Proof.
  intros Ha Hb. induction a as [|c a IH]; simpl.
  - destruct b as [|c b]; [reflexivity|]. simpl. now rewrite Hb.
  - simpl in Ha. apply andb_prop in Ha. destruct Ha as [Hc Ha].
    rewrite Hc. f_equal. now apply IH.
Qed.

(** A name without a path separator, joined to any directory, is the last
    component of the path. *)
Lemma basename_join parent name :
  forallb (fun c => negb (is_pathsep c)) name = true ->
  os_path_basename (os_path_join parent name) = name.
Proof.
  intros Hn.
  assert (Hr : forallb (fun c => negb (is_pathsep c)) (rev name) = true)
    by now rewrite forallb_rev.
  unfold os_path_basename, os_path_join.
  destruct (rev parent) as [|c p] eqn:E.
  - rewrite <- (app_nil_r (rev name)).
    rewrite (take_while_app _ (rev name) [] Hr I).
    apply rev_involutive.
  - destruct (is_pathsep c) eqn:S.
    + rewrite rev_app_distr, E.
      rewrite (take_while_app _ (rev name) (c :: p) Hr);
        [apply rev_involutive|].
      now rewrite S.
    + change ("\" ++ name) with (["\"%char] ++ name).
      rewrite app_assoc, rev_app_distr, rev_app_distr.
      change (rev ["\"%char]) with ["\"%char]. cbn [app].
      rewrite (take_while_app _ (rev name) ("\"%char :: rev parent) Hr);
        [apply rev_involutive|reflexivity].
Qed.

Lemma safe_name_no_pathsep name :
  forallb (fun c => negb (is_pathsep c)) (safe_name name) = true.
Proof.
  apply forallb_forall. intros c Hc. rewrite safe_name_map in Hc.
  apply in_map_iff in Hc. destruct Hc as (x & <- & _).
  destruct (is_illegal x) eqn:E; [reflexivity|].
  unfold is_illegal in E. cbn [existsb] in E.
  unfold is_pathsep.
  destruct (Ascii.eqb x "\") eqn:E1; [now rewrite ?orb_true_r in E|].
  destruct (Ascii.eqb x "/") eqn:E2; [now rewrite ?orb_true_r in E|].
  reflexivity.
Qed.

(** The renames [rename_folder] asks for: none, or the one of the folder
    to the safe name in its parent directory. *)
Lemma rename_folder_renames env folder_path d dry_run w :
  renames (trace (snd (rename_folder env folder_path (Candidate d) dry_run w)))
  = renames (trace w)
  \/ renames (trace (snd (rename_folder env folder_path (Candidate d)
                                         dry_run w)))
     = renames (trace w)
       ++ [(folder_path,
            os_path_join (os_path_dirname folder_path)
              (safe_name (new_name_of (VStr (title d)) (year d)
                                      (rating d))))].
Proof.
  destruct dry_run.
  - left. unfold rename_folder, lift, bind, print, logging, emit.
    simpl getitem. cbn [snd trace]. now rewrite !renames_snoc.
  - right. unfold rename_folder, lift, bind, try_except, os_rename.
    simpl getitem. cbv beta iota.
    destruct (os_rename_refused env _ _ _);
      unfold print, logging, emit; cbn [snd trace set_world];
      rewrite !renames_snoc by exact I; rewrite renames_app; reflexivity.
Qed.

(** X9.  For a candidate of the catalogue [rename_folder] always returns
    normally and reads nothing.  In dry-run mode the operating system is
    not asked; otherwise it is asked once, for the path that joins the
    parent directory and the safe name, and when it refuses, the error is
    caught: the directory is as before and the failure is in the log at
    level ERROR. *)
Theorem rename_folder_candidate (env : Env) (folder_path : str) (d : details)
        (dry_run : bool) (w : World) :
  let new_name := new_name_of (VStr (title d)) (year d) (rating d) in
  let target :=
    os_path_join (os_path_dirname folder_path) (safe_name new_name) in
  let r := rename_folder env folder_path (Candidate d) dry_run w in
  fst r = Return tt
  /\ stdin (snd r) = stdin w /\ requests (snd r) = requests w
  /\ (dry_run = true ->
      base_dir (snd r) = base_dir w
      /\ renames (trace (snd r)) = renames (trace w))
  /\ (dry_run = false ->
      renames (trace (snd r)) = renames (trace w) ++ [(folder_path, target)]
      /\ forall msg,
          os_rename_refused env (get (base_dir w) []) folder_path target
          = Some msg ->
          base_dir (snd r) = base_dir w
          /\ In (Log ERROR ("Failed to rename '" ++ folder_path ++ "' to '"
                            ++ target ++ "': " ++ msg))
                (trace (snd r))).
Proof.
  cbv zeta.
  split; [|split; [|split; [|split]]].
  - destruct dry_run; [reflexivity|].
    unfold rename_folder, lift, bind, try_except, os_rename. simpl getitem.
    cbv beta iota.
    destruct (os_rename_refused env _ _ _); reflexivity.
  - destruct dry_run; [reflexivity|].
    unfold rename_folder, lift, bind, try_except, os_rename. simpl getitem.
    cbv beta iota.
    destruct (os_rename_refused env _ _ _); reflexivity.
  - destruct dry_run; [reflexivity|].
    unfold rename_folder, lift, bind, try_except, os_rename. simpl getitem.
    cbv beta iota.
    destruct (os_rename_refused env _ _ _); reflexivity.
  - intros ->. split; [reflexivity|].
    unfold rename_folder, lift, bind, print, logging, emit. simpl getitem.
    cbn [snd trace]. now rewrite !renames_snoc.
  - intros ->.
    unfold rename_folder, lift, bind, try_except, os_rename. simpl getitem.
    cbv beta iota.
    destruct (os_rename_refused env _ _ _) as [m|] eqn:E.
    + split.
      * unfold print, logging, emit. cbn [snd trace set_world].
        rewrite !renames_snoc by exact I. rewrite renames_app. reflexivity.
      * intros msg [= <-]. split; [reflexivity|].
        unfold print, logging, emit. cbn [snd trace set_world].
        apply in_or_app. right. now left.
    + split; [|discriminate].
      unfold print, logging, emit. cbn [snd trace set_world].
      rewrite !renames_snoc by exact I. rewrite renames_app. reflexivity.
Qed.

(** ** A dry run *)

Lemma kd_ret {A} (a : A) : keeps_directory (ret a).
Proof. intros w. now split. Qed.

Lemma kd_raise {A} e : keeps_directory (@raise A e).
Proof. intros w. now split. Qed.

Lemma kd_lift {A} (r : outcome A) : keeps_directory (lift r).
Proof. intros w. now split. Qed.

Lemma kd_bind {A B} (c : M A) (k : A -> M B) :
  keeps_directory c -> (forall a, keeps_directory (k a)) ->
  keeps_directory (bind c k).
Proof.
  intros Hc Hk w. unfold bind. destruct (Hc w) as [H1 H2].
  destruct (c w) as [[a|e] w1]; simpl in *; [|now split].
  destruct (Hk a w1) as [H3 H4]. split; congruence.
Qed.

Lemma kd_try {A} (body : M A) handler :
  keeps_directory body -> (forall e, keeps_directory (handler e)) ->
  keeps_directory (try_except body handler).
Proof.
  intros Hc Hk w. unfold try_except. destruct (Hc w) as [H1 H2].
  destruct (body w) as [[a|e] w1]; simpl in *; [now split|].
  destruct (Hk e w1) as [H3 H4]. split; congruence.
Qed.

Lemma kd_emit e :
  match e with OsRename _ _ => False | _ => True end ->
  keeps_directory (emit e).
Proof.
  intros He w. split; [reflexivity|]. simpl. now apply renames_snoc.
Qed.

Lemma kd_print msg : keeps_directory (print msg).
Proof. now apply kd_emit. Qed.

Lemma kd_logging lvl msg : keeps_directory (logging lvl msg).
Proof. now apply kd_emit. Qed.

Lemma kd_sleep n : keeps_directory (time_sleep n).
Proof. now apply kd_emit. Qed.

Lemma kd_input prompt : keeps_directory (input prompt).
Proof.
  intros w. unfold input. destruct (stdin w); [now split|].
  split; [reflexivity|]. simpl. now apply renames_snoc.
Qed.

Lemma kd_search_movie env query : keeps_directory (search_movie env query).
Proof. intros w. split; [reflexivity|]. simpl. now apply renames_snoc. Qed.

Lemma kd_get_movie env movieID : keeps_directory (get_movie env movieID).
Proof. intros w. split; [reflexivity|]. simpl. now apply renames_snoc. Qed.

Lemma kd_isdir folder : keeps_directory (os_path_isdir folder).
Proof. intros w. now split. Qed.

Lemma kd_submit {A} (task : M A) :
  keeps_directory task -> keeps_directory (submit task).
Proof.
  intros H w. unfold submit. specialize (H w). now destruct (task w).
Qed.

Ltac kd_step :=
  match goal with
  | |- keeps_directory (bind _ _) => apply kd_bind; [|intros]
  | |- keeps_directory (try_except _ _) => apply kd_try; [|intros]
  | |- keeps_directory (ret _) => apply kd_ret
  | |- keeps_directory (raise _) => apply kd_raise
  | |- keeps_directory (lift _) => apply kd_lift
  | |- keeps_directory (print _) => apply kd_print
  | |- keeps_directory (logging _ _) => apply kd_logging
  | |- keeps_directory (time_sleep _) => apply kd_sleep
  | |- keeps_directory (input _) => apply kd_input
  | |- keeps_directory (search_movie _ _) => apply kd_search_movie
  | |- keeps_directory (get_movie _ _) => apply kd_get_movie
  | |- keeps_directory (os_path_isdir _) => apply kd_isdir
  | |- keeps_directory (submit _) => apply kd_submit
  | |- keeps_directory (if ?b then _ else _) => destruct b
  | |- keeps_directory (match ?x with _ => _ end) => destruct x
  end.

Lemma kd_wrapper_loop {A} max_retries delay name (func : M A) :
  keeps_directory func ->
  forall remaining attempts,
    keeps_directory (wrapper_loop max_retries delay name func
                                  remaining attempts).
Proof.
  intros Hf. induction remaining as [|remaining IH]; intros attempts; simpl.
  - apply kd_ret.
  - unfold backoff. repeat kd_step; auto.
Qed.

Lemma kd_fetch_movie_details env movieID :
  keeps_directory (fetch_movie_details env movieID).
Proof.
  unfold fetch_movie_details, retry. apply kd_wrapper_loop.
  unfold fetch_movie_details_body. repeat kd_step.
Qed.

Lemma kd_run_pool env search_results :
  keeps_directory (run_pool env search_results).
Proof.
  induction search_results as [|result rest IH]; simpl.
  - apply kd_ret.
  - repeat kd_step; auto. apply kd_fetch_movie_details.
Qed.

Lemma kd_collect futures : forall found,
  keeps_directory (collect futures found).
Proof.
  induction futures as [|[[d|]|e] rest IH]; intros found; simpl; auto.
  - apply kd_ret.
  - apply kd_raise.
Qed.

Lemma kd_get_movie_details env movie_name :
  keeps_directory (get_movie_details env movie_name).
Proof.
  unfold get_movie_details, retry. apply kd_wrapper_loop.
  unfold get_movie_details_body.
  repeat kd_step; auto using kd_run_pool, kd_collect.
Qed.

Lemma kd_print_choices choices : forall i,
  keeps_directory (print_choices i choices).
Proof.
  induction choices as [|c rest IH]; intros i; simpl; repeat kd_step; auto.
Qed.

Lemma kd_prompt_user_choice env choices :
  keeps_directory (prompt_user_choice env choices).
Proof.
  unfold prompt_user_choice. repeat kd_step; auto using kd_print_choices.
  intros w.
  destruct (prompt_loop_outcome env choices (List.length (stdin w)) (stdin w) w
              _ (le_n _) eq_refl eq_refl) as (_ & H1 & _ & H2 & _).
  now split.
Qed.

Lemma kd_rename_folder_dry env folder_path c :
  keeps_directory (rename_folder env folder_path c true).
Proof. unfold rename_folder. repeat kd_step. Qed.

Section DryRun.

Variable env : Env.

Lemma kd_retry_with folder_path query :
  keeps_directory (retry_with env true folder_path query).
Proof.
  unfold retry_with, choose_and_rename, iterate.
  repeat kd_step;
    auto using kd_get_movie_details, kd_prompt_user_choice,
               kd_rename_folder_dry.
Qed.

Lemma kd_final_fallback folder_path sanitized_name :
  keeps_directory (final_fallback env true folder_path sanitized_name).
Proof.
  unfold final_fallback. repeat kd_step; auto using kd_retry_with.
Qed.

Lemma kd_process_folder folder :
  keeps_directory (process_folder env true folder).
Proof.
  unfold process_folder, simplified_stage, core_title_stage,
    choose_and_rename, iterate.
  repeat kd_step;
    auto using kd_get_movie_details, kd_prompt_user_choice,
               kd_rename_folder_dry, kd_retry_with, kd_final_fallback.
Qed.

Lemma kd_main_loop folders : keeps_directory (main_loop env true folders).
Proof.
  induction folders as [|folder rest IH]; simpl; repeat kd_step; auto.
  apply kd_process_folder.
Qed.

End DryRun.

(** X10.  A dry run renames nothing: whatever the catalogue answers and
    whatever the operator types, and also when the run ends with an
    exception, the base directory is as it was and the operating system
    has been asked for no rename. *)
Theorem dry_run_never_renames (env : Env) (w : World) :
  base_dir (snd (main env true w)) = base_dir w
  /\ renames (trace (snd (main env true w))) = renames (trace w).
Proof.
  unfold main. destruct (base_dir w) as [entries|] eqn:E.
  - rewrite <- E. apply kd_main_loop.
  - rewrite <- E.
    apply (kd_bind (print _) (fun _ => logging ERROR _));
      [apply kd_print|intros; apply kd_logging].
Qed.

(** ** A directory that is already in order *)

Lemma str_eqb_eq a b : Py.str_eqb a b = true -> a = b.
Proof. unfold Py.str_eqb. now destruct (list_eq_dec ascii_dec a b). Qed.

Lemma process_folder_settled env dry_run folder w :
  (forall name isdir,
      In (name, isdir) (get (base_dir w) []) ->
      isdir = false \/ already_properly_named name = true) ->
  exists logs,
    process_folder env dry_run folder w
    = (Return tt,
       set_world (base_dir w) (stdin w) (requests w) (trace w ++ logs))
    /\ Forall is_info_log logs.
Proof.
  intros Hall.
  destruct (existsb (fun e => Py.str_eqb (fst e) folder && snd e)
                    (get (base_dir w) [])) eqn:E.
  - apply existsb_exists in E. destruct E as ([name isdir] & Hin & Hb).
    simpl in Hb. apply andb_prop in Hb. destruct Hb as [Hn ->].
    apply str_eqb_eq in Hn. subst name.
    destruct (Hall _ _ Hin) as [H|H]; [discriminate H|].
    now apply process_folder_skip.
  - exists []. split; [|constructor].
    unfold process_folder, bind, os_path_isdir. rewrite E. simpl.
    unfold ret. now rewrite world_eta.
Qed.

Lemma main_loop_settled env dry_run folders : forall w,
  (forall name isdir,
      In (name, isdir) (get (base_dir w) []) ->
      isdir = false \/ already_properly_named name = true) ->
  exists logs,
    main_loop env dry_run folders w
    = (Return tt,
       set_world (base_dir w) (stdin w) (requests w) (trace w ++ logs))
    /\ Forall is_info_log logs.
Proof.
  induction folders as [|folder rest IH]; intros w Hall.
  - exists []. split; [|constructor]. simpl. unfold ret.
    now rewrite world_eta.
  - destruct (process_folder_settled env dry_run folder w Hall)
      as (l1 & E1 & F1).
    destruct (IH (set_world (base_dir w) (stdin w) (requests w)
                            (trace w ++ l1)) Hall) as (l2 & E2 & F2).
    exists (l1 ++ l2). split; [|now apply Forall_app].
    simpl. unfold bind. rewrite E1, E2.
    unfold set_world. cbn [base_dir stdin requests trace].
    now rewrite app_assoc.
Qed.

(** X11.  When every entry of the base directory is a file or a folder
    whose name is already in the canonical form, the whole run does
    nothing: it returns normally, sends no request to the catalogue, reads
    nothing from the operator, leaves the directory as it is, and adds
    only entries of level INFO to the log. *)
Theorem settled_directory_is_left_alone (env : Env) (dry_run : bool)
        (w : World) (entries : list (str * bool)) :
  base_dir w = Some entries ->
  (forall name isdir,
      In (name, isdir) entries ->
      isdir = false \/ already_properly_named name = true) ->
  exists logs,
    main env dry_run w
    = (Return tt,
       set_world (base_dir w) (stdin w) (requests w) (trace w ++ logs))
    /\ Forall is_info_log logs.
Proof.
  intros Hb Hall. unfold main. rewrite Hb.
  rewrite <- Hb. apply main_loop_settled. now rewrite Hb.
Qed.

Lemma settled_directory_is_left_alone_witness :
  exists logs,
    main Sample.catalogue false
         (Sample.world [("Alien (1979) - IMDb- 8.5" : str, true);
                        ("notes.txt" : str, false);
                        ("Heat (1995) - IMDb: 8.3" : str, true)]
                       [("1" : str)])
    = (Return tt,
       set_world
         (Some [("Alien (1979) - IMDb- 8.5" : str, true);
                ("notes.txt" : str, false);
                ("Heat (1995) - IMDb: 8.3" : str, true)])
         [("1" : str)] 0 ([] ++ logs))
    /\ Forall is_info_log logs.
Proof.
  apply (settled_directory_is_left_alone Sample.catalogue false
           (Sample.world [("Alien (1979) - IMDb- 8.5" : str, true);
                          ("notes.txt" : str, false);
                          ("Heat (1995) - IMDb: 8.3" : str, true)]
                         [("1" : str)])
           [("Alien (1979) - IMDb- 8.5" : str, true);
            ("notes.txt" : str, false);
            ("Heat (1995) - IMDb: 8.3" : str, true)]).
  - reflexivity.
  - intros name isdir [H|[H|[H|[]]]]; inversion H; subst;
      [right; reflexivity|left; reflexivity|right; reflexivity].
Defined.

(** * Further properties of the catalogue access *)

Section RetryBounds.

Context {A : Type}.
Variables (max_retries delay : nat) (name : str) (func : M A).

(** The loop sends at most [remaining] times what one attempt sends. *)
Lemma wrapper_loop_requests_le k :
  (forall w, (requests (snd (func w)) <= requests w + k)%nat) ->
  forall remaining attempts w,
    (requests (snd (wrapper_loop max_retries delay name func
                                 remaining attempts w))
     <= requests w + remaining * k)%nat.
Proof.
  intros Hk. induction remaining as [|remaining IH]; intros attempts w.
  - simpl. lia.
  - specialize (Hk w). destruct (func w) as [[a|e] w1] eqn:Hf; simpl in Hk.
    + rewrite (wrapper_loop_success _ _ _ _ _ _ _ _ _ Hf). simpl. lia.
    + destruct (max_retries <=? S attempts)%nat eqn:E.
      * apply Nat.leb_le in E.
        rewrite (wrapper_loop_last _ _ _ _ _ _ _ _ _ Hf E). simpl. lia.
      * rewrite (wrapper_loop_step _ _ _ _ _ _ _ _ _ Hf E).
        etransitivity; [apply IH|]. rewrite requests_backoff. simpl. lia.
Qed.

Lemma retry_always_fails :
  (1 <= max_retries)%nat ->
  (forall w, exists e, fst (func w) = Raise e) ->
  forall w, exists e, fst (retry max_retries delay name func w) = Raise e.
Proof.
  intros Hmax Hfail w.
  destruct (fst (retry max_retries delay name func w)) as [[a|]|e] eqn:E.
  - apply wrapper_loop_some in E. destruct E as [w0 E].
    destruct (Hfail w0) as [e He]. congruence.
  - unfold retry in E.
    now destruct (wrapper_loop_not_none max_retries delay name func
                    max_retries 0 w Hmax eq_refl).
  - now exists e.
Qed.

End RetryBounds.

Section Catalogue.

Variable env : Env.

Lemma fetch_body_requests movieID w :
  requests (snd (fetch_movie_details_body env movieID w)) = S (requests w).
Proof.
  unfold fetch_movie_details_body, try_except, bind, get_movie.
  destruct (ia_get_movie env (requests w) movieID); reflexivity.
Qed.

Lemma fetch_requests movieID w :
  (requests (snd (fetch_movie_details env movieID w))
   <= requests w + MAX_RETRIES (cfg env))%nat.
Proof.
  unfold fetch_movie_details, retry. apply wrapper_loop_requests.
  apply fetch_body_requests.
Qed.

(** The pool always hands back one future per task. *)
Lemma run_pool_returns search_results : forall w,
  exists futures w',
    run_pool env search_results w = (Return futures, w')
    /\ List.length futures = List.length search_results
    /\ (requests w'
        <= requests w
           + List.length search_results * MAX_RETRIES (cfg env))%nat
    /\ forall movieID,
        In movieID search_results ->
        exists w0,
          In (fst (fetch_movie_details env movieID w0)) futures.
Proof.
  induction search_results as [|result rest IH]; intros w.
  - exists [], w. simpl. split; [reflexivity|]. split; [reflexivity|].
    split; [lia|]. intros movieID [].
  - simpl. unfold bind at 1. unfold submit.
    pose proof (fetch_requests result w) as Hr.
    destruct (fetch_movie_details env result w) as [r w1] eqn:Hf.
    simpl in Hr.
    destruct (IH w1) as (futures & w' & E & Hl & Hq & Hin).
    exists (r :: futures), w'. unfold bind. rewrite E.
    split; [reflexivity|]. split; [simpl; now f_equal|].
    split; [lia|].
    intros movieID [<-|H].
    + exists w. rewrite Hf. now left.
    + destruct (Hin movieID H) as [w0 H0]. exists w0. now right.
Qed.

Lemma collect_world futures : forall found w,
  snd (collect futures found w) = w.
Proof.
  induction futures as [|[[d|]|e] rest IH]; intros found w; simpl; auto.
Qed.

Lemma collect_length futures : forall found w l,
  fst (collect futures found w) = Return l ->
  (List.length l <= List.length found + List.length futures)%nat.
Proof.
  induction futures as [|[[d|]|e] rest IH]; intros found w l H; simpl in *.
  - injection H as <-. lia.
  - apply IH in H. rewrite length_app in H. simpl in H. lia.
  - apply IH in H. lia.
  - discriminate H.
Qed.

Lemma collect_raises futures e :
  In (Raise e) futures ->
  forall found w, exists e', collect futures found w = (Raise e', w).
Proof.
  induction futures as [|[[d|]|e0] rest IH]; intros Hin found w; simpl.
  - destruct Hin.
  - destruct Hin as [H|H]; [discriminate H|]. now apply IH.
  - destruct Hin as [H|H]; [discriminate H|]. now apply IH.
  - now exists e0.
Qed.

Lemma body_requests movie_name w :
  (requests (snd (get_movie_details_body env movie_name w))
   <= requests w
      + (1 + MAX_SEARCH_RESULTS (cfg env) * MAX_RETRIES (cfg env)))%nat.
Proof.
  unfold get_movie_details_body, try_except. unfold bind at 1.
  unfold search_movie.
  destruct (ia_search_movie env (requests w) movie_name) as [ids|e];
    [|simpl; lia].
  cbv beta iota zeta.
  pose proof (firstn_le_length (MAX_SEARCH_RESULTS (cfg env)) ids) as Hn.
  destruct (firstn (MAX_SEARCH_RESULTS (cfg env)) ids) as [|x r] eqn:F.
  - simpl. lia.
  - destruct (run_pool_returns (x :: r)
                (set_world (base_dir w) (stdin w) (S (requests w))
                           (trace w ++ [SearchMovie movie_name])))
      as (futures & w' & E & _ & Hq & _).
    unfold bind. rewrite E.
    pose proof (collect_world (as_completed env futures) [] w') as Hc.
    destruct (collect (as_completed env futures) [] w') as [[l|e] w2];
      simpl in Hc; subst w2; simpl in *; nia.
Qed.

Lemma body_length movie_name w l :
  (forall futures, Permutation (as_completed env futures) futures) ->
  fst (get_movie_details_body env movie_name w) = Return l ->
  (List.length l <= MAX_SEARCH_RESULTS (cfg env))%nat.
Proof.
  intros Hperm.
  unfold get_movie_details_body, try_except. unfold bind at 1.
  unfold search_movie.
  destruct (ia_search_movie env (requests w) movie_name) as [ids|e];
    [|discriminate].
  cbv beta iota zeta.
  pose proof (firstn_le_length (MAX_SEARCH_RESULTS (cfg env)) ids) as Hn.
  destruct (firstn (MAX_SEARCH_RESULTS (cfg env)) ids) as [|x r] eqn:F.
  - simpl. intros [= <-]. simpl. lia.
  - destruct (run_pool_returns (x :: r)
                (set_world (base_dir w) (stdin w) (S (requests w))
                           (trace w ++ [SearchMovie movie_name])))
      as (futures & w' & E & Hl & _ & _).
    unfold bind. rewrite E.
    destruct (collect (as_completed env futures) [] w') as [[l0|e] w2] eqn:C;
      [|discriminate].
    simpl. intros [= <-].
    pose proof (collect_length (as_completed env futures) [] w' l0) as Hc.
    rewrite C in Hc. specialize (Hc eq_refl).
    rewrite (Permutation_length (Hperm futures)) in Hc. simpl in Hc. lia.
Qed.

End Catalogue.

(** X12.  One call of [get_movie_details] sends at most
    [MAX_RETRIES * (1 + MAX_SEARCH_RESULTS * MAX_RETRIES)] requests to the
    catalogue (93 with the values of [CONFIG]), and when the pool hands
    back the futures it was given, the list it returns holds at most
    [MAX_SEARCH_RESULTS] candidates. *)
Theorem get_movie_details_bounds (env : Env) (movie_name : str) (w : World) :
  (requests (snd (get_movie_details env movie_name w))
   <= requests w
      + MAX_RETRIES (cfg env)
        * (1 + MAX_SEARCH_RESULTS (cfg env) * MAX_RETRIES (cfg env)))%nat
  /\ ((forall futures, Permutation (as_completed env futures) futures) ->
      forall l,
        fst (get_movie_details env movie_name w) = Return (Some l) ->
        (List.length l <= MAX_SEARCH_RESULTS (cfg env))%nat).
Proof.
  split.
  - unfold get_movie_details, retry. apply wrapper_loop_requests_le.
    apply body_requests.
  - intros Hperm l H. unfold get_movie_details in H.
    apply wrapper_loop_some in H. destruct H as [w0 H].
    now apply (body_length env movie_name w0).
Qed.

Lemma get_movie_details_bounds_witness :
  (requests (snd (get_movie_details Sample.catalogue "Heat 1995"
                                    (Sample.plain_folder [])))
   <= 93)%nat
  /\ (List.length [Sample.heat_1986; Sample.heat_1995] <= 10)%nat.
Proof.
  destruct (get_movie_details_bounds Sample.catalogue "Heat 1995"
              (Sample.plain_folder [])) as [Hq Hl].
  split.
  - exact Hq.
  - apply Hl.
    + intros futures. apply Permutation_refl.
    + reflexivity.
Defined.

(** X13.  One candidate whose record cannot be fetched sinks the whole
    search: when the first results of every search hold a film for which
    [ia.get_movie] fails on every request, [get_movie_details] raises,
    however many other candidates could be fetched. *)
Theorem dead_candidate_sinks_search (env : Env) (movie_name movieID : str)
        (w : World) :
  (1 <= MAX_RETRIES (cfg env))%nat ->
  (forall futures, Permutation (as_completed env futures) futures) ->
  (forall n, exists e, ia_get_movie env n movieID = Raise e) ->
  (forall n,
      match ia_search_movie env n movie_name with
      | Return ids => In movieID (firstn (MAX_SEARCH_RESULTS (cfg env)) ids)
      | Raise _ => True
      end) ->
  exists e w', get_movie_details env movie_name w = (Raise e, w').
Proof.
  intros Hmax Hperm Hdead Hlisted.
  assert (Hfetch : forall w0, exists e,
             fst (fetch_movie_details env movieID w0) = Raise e).
  { apply retry_always_fails; [exact Hmax|].
    intros w0. unfold fetch_movie_details_body, try_except, bind, get_movie.
    destruct (Hdead (requests w0)) as [e ->]. now exists e. }
  assert (Hbody : forall w0, exists e,
             fst (get_movie_details_body env movie_name w0) = Raise e).
  { intros w0. unfold get_movie_details_body, try_except. unfold bind at 1.
    unfold search_movie. specialize (Hlisted (requests w0)).
    destruct (ia_search_movie env (requests w0) movie_name) as [ids|e];
      [|now exists e].
    cbv beta iota zeta.
    destruct (firstn (MAX_SEARCH_RESULTS (cfg env)) ids) as [|x r] eqn:F;
      [destruct Hlisted|].
    destruct (run_pool_returns env (x :: r)
                (set_world (base_dir w0) (stdin w0) (S (requests w0))
                           (trace w0 ++ [SearchMovie movie_name])))
      as (futures & w' & E & _ & _ & Hin).
    unfold bind at 1. rewrite E.
    destruct (Hin movieID Hlisted) as [w1 H1].
    destruct (Hfetch w1) as [e He]. rewrite He in H1.
    apply (Permutation_in _ (Permutation_sym (Hperm futures))) in H1.
    destruct (collect_raises _ e H1 [] w') as [e' ->].
    now exists e'. }
  destruct (retry_always_fails (MAX_RETRIES (cfg env)) (RETRY_DELAY (cfg env))
              "get_movie_details" (get_movie_details_body env movie_name)
              Hmax Hbody w) as [e He].
  unfold get_movie_details.
  destruct (retry _ _ _ _ w) as [r w']. simpl in He. subst r.
  now exists e, w'.
Qed.

Lemma dead_candidate_sinks_search_witness :
  exists e w',
    get_movie_details one_dead_candidate "Heat 1995" (Sample.plain_folder [])
    = (Raise e, w').
Proof.
  apply (dead_candidate_sinks_search one_dead_candidate "Heat 1995"
           "tt0091191" (Sample.plain_folder [])).
  - simpl. lia.
  - intros futures. apply Permutation_refl.
  - intros n. eexists. reflexivity.
  - intros n. simpl. right. now left.
Defined.

(** * Further properties of the names *)

(** ** The query of the first search *)

Lemma starts_with_app p rest : Py.starts_with p (p ++ rest) = true.
Proof.
  induction p as [|c p IH]; [reflexivity|].
  simpl. now rewrite Ascii.eqb_refl, IH.
Qed.

Lemma contains_app_r sub a : Py.contains sub (a ++ sub) = true.
Proof.
  induction a as [|c a IH]; simpl.
  - pose proof (starts_with_app sub []) as H. rewrite app_nil_r in H.
    destruct sub; simpl in *; [reflexivity|now rewrite H].
  - rewrite IH. apply orb_true_r.
Qed.

(** X14.  The query of the first search of a folder holds the year that
    [extract_year] finds in the folder name, also when sanitizing the name
    has removed it. *)
Theorem first_query_holds_the_year (env : Env) (folder y : str) :
  extract_year (cfg env) folder = Some y ->
  Py.contains y (sanitized_with_year env folder) = true.
Proof.
  intros Hy. unfold sanitized_with_year. rewrite Hy.
  destruct (Py.contains y (sanitize_folder_name (cfg env) folder)) eqn:E;
    cbn [negb]; [exact E|].
  rewrite app_assoc. apply contains_app_r.
Qed.

Lemma first_query_holds_the_year_witness :
  Py.contains "1995" (sanitized_with_year Sample.catalogue "[1995] Heat")
  = true.
Proof.
  apply (first_query_holds_the_year Sample.catalogue "[1995] Heat" "1995").
  reflexivity.
Defined.

(** ** The names [already_properly_named] accepts *)

Lemma dot_star_then_inv k s :
  dot_star_then k s = true ->
  exists pre suf,
    s = pre ++ suf /\ forallb Py.is_dot pre = true /\ k suf = true.
Proof.
  induction s as [|c s IH]; simpl; intros H.
  - rewrite orb_false_r in H. now exists [], [].
  - apply orb_prop in H. destruct H as [H|H]; [now exists [], (c :: s)|].
    apply andb_prop in H. destruct H as [Hc H].
    destruct (IH H) as (pre & suf & -> & Hpre & Hk).
    exists (c :: pre), suf. simpl. now rewrite Hc, Hpre.
Qed.

Lemma starts_with_inv p : forall s,
  Py.starts_with p s = true -> s = p ++ skipn (List.length p) s.
Proof.
  induction p as [|c p IH]; intros s H; [reflexivity|].
  destruct s as [|x s]; [discriminate H|]. simpl in H.
  apply andb_prop in H. destruct H as [Hc H].
  apply Ascii.eqb_eq in Hc. subst x. simpl. f_equal. now apply IH.
Qed.

Lemma at_end_inv s : at_end s = true -> s = [] \/ s = ["010"%char].
Proof.
  destruct s as [|c [|]]; simpl; intros H; [now left| |discriminate H].
  apply Ascii.eqb_eq in H. subst c. now right.
Qed.

Lemma run_split p s :
  s = firstn (Re.run p s) s ++ skipn (Re.run p s) s.
Proof. symmetry. apply firstn_skipn. Qed.

Lemma run_positive p s :
  (0 <? Re.run p s)%nat = true -> firstn (Re.run p s) s <> [].
Proof.
  destruct s as [|c s]; simpl; [discriminate|].
  destruct (p c); simpl; [discriminate|discriminate].
Qed.

Lemma rating_suffix_inv s :
  rating_suffix s = true ->
  exists blank whole frac nl,
    s = blank ++ whole ++ frac ++ nl
    /\ (blank = [] \/ exists x, blank = [x] /\ Py.is_space x = true)
    /\ digits whole
    /\ (frac = [] \/ exists ds, frac = "."%char :: ds /\ digits ds)
    /\ (nl = [] \/ nl = ["010"%char]).
Proof.
  unfold rating_suffix.
  set (s1 := match s with
             | c :: rest => if Py.is_space c then rest else s
             | [] => s
             end).
  assert (Hs : exists blank,
             s = blank ++ s1
             /\ (blank = [] \/ exists x, blank = [x] /\ Py.is_space x = true)).
  { unfold s1. destruct s as [|c rest]; [exists []; auto|].
    destruct (Py.is_space c) eqn:E; [|exists []; auto].
    exists [c]. split; [reflexivity|]. right. now exists c. }
  destruct Hs as (blank & Hs & Hblank).
  cbv zeta. intros H. apply andb_prop in H. destruct H as [Hn H].
  set (n := Re.run Py.is_digit s1) in *.
  assert (Hwhole : digits (firstn n s1)).
  { split; [now apply run_positive|apply run_firstn]. }
  pose proof (run_split Py.is_digit s1) as Hsplit. fold n in Hsplit.
  apply orb_prop in H. destruct H as [H|H].
  - destruct (skipn n s1) as [|c rest] eqn:S2; [discriminate H|].
    apply andb_prop in H. destruct H as [Hc H].
    apply Ascii.eqb_eq in Hc. subst c.
    apply andb_prop in H. destruct H as [Hk Hend].
    set (k := Re.run Py.is_digit rest) in *.
    pose proof (run_split Py.is_digit rest) as Hrest. fold k in Hrest.
    exists blank, (firstn n s1), ("."%char :: firstn k rest), (skipn k rest).
    split.
    + rewrite Hs at 1. f_equal. rewrite Hsplit at 1. f_equal.
      simpl. f_equal. exact Hrest.
    + split; [exact Hblank|]. split; [exact Hwhole|].
      split; [|now apply at_end_inv].
      right. exists (firstn k rest). split; [reflexivity|].
      split; [now apply run_positive|apply run_firstn].
  - exists blank, (firstn n s1), [], (skipn n s1).
    split; [rewrite Hs at 1; f_equal; exact Hsplit|].
    split; [exact Hblank|]. split; [exact Hwhole|].
    split; [now left|now apply at_end_inv].
Qed.

Lemma rating_suffix_intro blank whole frac nl :
  (blank = [] \/ exists x, blank = [x] /\ Py.is_space x = true) ->
  digits whole ->
  (frac = [] \/ exists ds, frac = "."%char :: ds /\ digits ds) ->
  (nl = [] \/ nl = ["010"%char]) ->
  rating_suffix (blank ++ whole ++ frac ++ nl) = true.
Proof.
  intros Hblank [Hne Hwhole] Hfrac Hnl.
  assert (Hhead : match whole ++ frac ++ nl with
                  | c :: _ => Py.is_space c = false
                  | [] => True
                  end).
  { destruct whole as [|c whole]; [congruence|]. simpl in *.
    apply andb_prop in Hwhole. now apply digit_not_blank. }
  assert (Hnext : match frac ++ nl with
                  | c :: _ => Py.is_digit c = false
                  | [] => True
                  end).
  { destruct Hfrac as [->|(ds & -> & _)]; [|reflexivity].
    destruct Hnl as [->| ->]; [exact I|reflexivity]. }
  unfold rating_suffix.
  match goal with
  | |- context [Re.run Py.is_digit ?m] =>
      assert (Hs1 : m = whole ++ frac ++ nl)
  end.
  { destruct Hblank as [->|(x & -> & Hx)].
    - simpl. destruct (whole ++ frac ++ nl) as [|c rest]; [reflexivity|].
      now rewrite Hhead.
    - simpl. now rewrite Hx. }
  rewrite !Hs1.
  rewrite (run_app Py.is_digit whole (frac ++ nl) Hwhole Hnext).
  rewrite skipn_length_app.
  replace (0 <? List.length whole)%nat with true
    by (destruct whole; [congruence|reflexivity]).
  cbn [andb].
  destruct Hfrac as [->|(ds & -> & Hds1 & Hds2)].
  - simpl app. destruct Hnl as [->| ->]; reflexivity.
  - cbn [app]. rewrite Ascii.eqb_refl. cbn [andb].
    assert (Hn2 : match nl with
                  | c :: _ => Py.is_digit c = false
                  | [] => True
                  end) by (destruct Hnl as [->| ->]; [exact I|reflexivity]).
    rewrite (run_app Py.is_digit ds nl Hds2 Hn2), skipn_length_app.
    replace (0 <? List.length ds)%nat with true
      by (destruct ds; [congruence|reflexivity]).
    destruct Hnl as [->| ->]; reflexivity.
Qed.

Lemma canonical_suffix_inv s :
  canonical_suffix s = true ->
  exists a b c d sep rest,
    s = " (" ++ [a; b; c; d] ++ ") - IMDb" ++ [sep] ++ rest
    /\ is_19_or_20 a b = true /\ Py.is_digit c = true /\ Py.is_digit d = true
    /\ (sep = "-"%char \/ sep = ":"%char)
    /\ rating_suffix rest = true.
Proof.
  destruct s as [|sp [|lp [|a [|b [|c [|d rest]]]]]]; try discriminate.
  unfold canonical_suffix. intros H.
  repeat match type of H with
         | (_ && _) = true =>
             let H1 := fresh "H" in
             apply andb_prop in H; destruct H as [H H1]
         end.
  apply Ascii.eqb_eq in H. subst sp. apply Ascii.eqb_eq in H5. subst lp.
  apply starts_with_inv in H1. simpl List.length in H1.
  destruct (skipn 8 rest) as [|e rest'] eqn:S; [discriminate|].
  apply andb_prop in H0. destruct H0 as [He Hr].
  exists a, b, c, d, e, rest'. split.
  - simpl. do 6 f_equal. rewrite H1 at 1. reflexivity.
  - repeat split; auto.
    apply orb_prop in He. destruct He as [He|He];
      apply Ascii.eqb_eq in He; auto.
Qed.

Lemma already_properly_named_inv s :
  already_properly_named s = true -> canonical_form s.
Proof.
  intros H. apply dot_star_then_inv in H.
  destruct H as (pre & suf & -> & Hpre & H).
  apply canonical_suffix_inv in H.
  destruct H as (a & b & c & d & sep & rest & -> & Hab & Hc & Hd & Hsep & H).
  apply rating_suffix_inv in H.
  destruct H as (blank & whole & frac & nl & -> & Hb & Hw & Hf & Hnl).
  exists pre, a, b, c, d, sep, blank, whole, frac, nl.
  repeat split; auto; apply Hw.
Qed.

(** X15.  [already_properly_named] accepts exactly the names the regular
    expression describes: a prefix in one line, a blank, a four-digit year
    in parentheses that starts with 19 or 20, [ - IMDb], a hyphen or a
    colon, at most one blank, digits with an optional fraction, and at
    most one line feed at the very end. *)
Theorem already_properly_named_accepts (folder_name : str) :
  already_properly_named folder_name = true <-> canonical_form folder_name.
Proof.
  split; [apply already_properly_named_inv|].
  intros (pre & a & b & c & d & sep & blank & whole & frac & nl
          & -> & Hpre & Hab & Hc & Hd & Hsep & Hb & Hw & Hf & Hnl).
  apply dot_star_then_app; [exact Hpre|].
  change (canonical_suffix
            (" "%char :: "("%char :: a :: b :: c :: d
             :: ") - IMDb" ++ sep :: blank ++ whole ++ frac ++ nl) = true).
  unfold canonical_suffix. rewrite Hab, Hc, Hd, !Ascii.eqb_refl.
  rewrite starts_with_app. cbn [andb].
  change (skipn 8 (") - IMDb" ++ sep :: blank ++ whole ++ frac ++ nl))
    with (sep :: blank ++ whole ++ frac ++ nl).
  cbv iota. rewrite (rating_suffix_intro blank whole frac nl Hb Hw Hf Hnl).
  destruct Hsep as [->| ->]; reflexivity.
Qed.

(** ** A name built without a year *)








(** ** [simplify_name] on a name without parentheses *)

Lemma split_from_good s : forall cur,
  forallb (fun c => negb (Py.is_space c)) cur = true ->
  Forall (fun w => w <> []
                   /\ forallb (fun c => negb (Py.is_space c)) w = true)
         (Py.split_from cur s).
Proof.
  assert (Hword : forall cur,
             cur <> [] ->
             forallb (fun c => negb (Py.is_space c)) cur = true ->
             rev cur <> []
             /\ forallb (fun c => negb (Py.is_space c)) (rev cur) = true).
  { intros cur Hne Hcur. split; [|now rewrite forallb_rev].
    intros H. apply Hne. rewrite <- (rev_involutive cur), H. reflexivity. }
  induction s as [|c s IH]; intros cur Hcur; simpl.
  - destruct cur as [|x cur]; [constructor|].
    constructor; [|constructor]. now apply Hword.
  - destruct (Py.is_space c) eqn:E.
    + destruct cur as [|x cur]; [now apply IH|].
      constructor; [now apply Hword|now apply IH].
    + apply IH. simpl. now rewrite E.
Qed.

Lemma split_from_chars s : forall cur w ch,
  In w (Py.split_from cur s) -> In ch w -> In ch cur \/ In ch s.
Proof.
  induction s as [|c s IH]; intros cur w ch Hw Hch; simpl in Hw.
  - destruct cur as [|x cur]; [destruct Hw|].
    destruct Hw as [<-|[]]. left. now apply in_rev.
  - destruct (Py.is_space c).
    + destruct cur as [|x cur].
      * destruct (IH _ _ _ Hw Hch) as [[]|H]. right. now right.
      * destruct Hw as [<-|Hw]; [left; now apply in_rev|].
        destruct (IH _ _ _ Hw Hch) as [[]|H]. right. now right.
    + destruct (IH _ _ _ Hw Hch) as [[<-|H]|H].
      * right. now left.
      * now left.
      * right. now right.
Qed.

Lemma split_from_word w : forall cur rest,
  forallb (fun c => negb (Py.is_space c)) w = true ->
  Py.split_from cur (w ++ rest) = Py.split_from (rev w ++ cur) rest.
Proof.
  induction w as [|c w IH]; intros cur rest H; [reflexivity|].
  simpl in H. apply andb_prop in H. destruct H as [Hc H].
  apply negb_true_iff in Hc. simpl. rewrite Hc, (IH _ _ H).
  now rewrite <- app_assoc.
Qed.

Lemma split_join ws :
  Forall (fun w => w <> []
                   /\ forallb (fun c => negb (Py.is_space c)) w = true) ws ->
  Py.split (Py.join " " ws) = ws.
Proof.
  unfold Py.split. induction 1 as [|w ws [Hne Hw] Hws IH]; [reflexivity|].
  assert (Hrev : rev w ++ [] <> []).
  { rewrite app_nil_r. intros H. apply Hne.
    rewrite <- (rev_involutive w), H. reflexivity. }
  destruct ws as [|w2 ws].
  - simpl Py.join. rewrite <- (app_nil_r w) at 1.
    rewrite (split_from_word w [] [] Hw). simpl.
    destruct (rev w ++ []) eqn:E; [congruence|].
    rewrite <- E, app_nil_r, rev_involutive. reflexivity.
  - change (Py.join " " (w :: w2 :: ws))
      with (w ++ " "%char :: Py.join " " (w2 :: ws)).
    rewrite (split_from_word w [] _ Hw).
    cbn [Py.split_from]. change (Py.is_space " ") with true. cbv iota.
    destruct (rev w ++ []) eqn:E; [congruence|].
    rewrite <- E, app_nil_r, rev_involutive. now rewrite IH.
Qed.

Lemma spaced_word w : forall b rest,
  w <> [] -> forallb (fun c => negb (Py.is_space c)) w = true ->
  spaced b (w ++ rest) = spaced false rest.
Proof.
  induction w as [|c w IH]; intros b rest Hne H; [congruence|].
  simpl in H. apply andb_prop in H. destruct H as [Hc H].
  apply negb_true_iff in Hc. simpl. rewrite Hc.
  destruct w as [|x w]; [reflexivity|]. now apply IH.
Qed.

Lemma spaced_join ws :
  Forall (fun w => w <> []
                   /\ forallb (fun c => negb (Py.is_space c)) w = true) ws ->
  ws <> [] -> spaced true (Py.join " " ws) = true.
Proof.
  induction 1 as [|w ws [Hne Hw] Hws IH]; [congruence|]. intros _.
  destruct ws as [|w2 ws].
  - simpl Py.join. rewrite <- (app_nil_r w).
    now rewrite (spaced_word w true [] Hne Hw).
  - change (Py.join " " (w :: w2 :: ws))
      with (w ++ " "%char :: Py.join " " (w2 :: ws)).
    rewrite (spaced_word w true _ Hne Hw).
    cbn [spaced]. change (Py.is_space " ") with true. cbv iota.
    rewrite Ascii.eqb_refl. cbn [negb andb]. apply IH. discriminate.
Qed.

Lemma join_chars ws ch :
  In ch (Py.join " " ws) ->
  ch = " "%char \/ exists w, In w ws /\ In ch w.
Proof.
  induction ws as [|w ws IH]; [intros []|].
  destruct ws as [|w2 ws].
  - simpl. intros H. right. exists w. split; [now left|exact H].
  - change (Py.join " " (w :: w2 :: ws))
      with (w ++ " "%char :: Py.join " " (w2 :: ws)).
    intros H. apply in_app_or in H. destruct H as [H|[H|H]].
    + right. exists w. split; [now left|exact H].
    + now left.
    + destruct (IH H) as [->|(x & Hx & Hch)]; [now left|].
      right. exists x. split; [now right|exact Hch].
Qed.

Lemma sub_group_none repl s : forall prev,
  ~ In "("%char s ->
  Re.sub_from (Re.group_of "(" ")") repl prev 0 s = s.
Proof.
  induction s as [|c s IH]; intros prev H; [reflexivity|].
  simpl. destruct (Ascii.eqb c "(") eqn:E.
  - apply Ascii.eqb_eq in E. subst c. destruct H. now left.
  - f_equal. apply IH. intros Hin. apply H. now right.
Qed.

Lemma filter_idempotent {A} (f : A -> bool) l :
  filter f (filter f l) = filter f l.
Proof.
  induction l as [|x l IH]; [reflexivity|]. simpl.
  destruct (f x) eqn:E; [|exact IH]. simpl. now rewrite E, IH.
Qed.

Section Simplify.

Variable c : Config.

Lemma kept_words_good s :
  Forall (fun w => w <> []
                   /\ forallb (fun x => negb (Py.is_space x)) w = true)
         (filter (fun word =>
                    negb (str_in (Py.upper word) (EXTRANEOUS_WORDS c)))
                 (Py.split s)).
Proof.
  apply Forall_forall. intros w Hw. apply filter_In in Hw.
  destruct Hw as [Hw _].
  pose proof (split_from_good s [] eq_refl) as H.
  rewrite Forall_forall in H. now apply H.
Qed.

Lemma kept_words_no_paren s :
  ~ In "("%char s ->
  ~ In "("%char
       (Py.join " "
          (filter (fun word =>
                     negb (str_in (Py.upper word) (EXTRANEOUS_WORDS c)))
                  (Py.split s))).
Proof.
  intros Hs H. apply join_chars in H.
  destruct H as [H|(w & Hw & Hch)]; [discriminate H|].
  apply filter_In in Hw. destruct Hw as [Hw _].
  destruct (split_from_chars s [] w _ Hw Hch) as [[]|H]. now apply Hs.
Qed.

Lemma simplify_name_plain s :
  ~ In "("%char s ->
  simplify_name c s
  = Py.join " "
      (filter (fun word => negb (str_in (Py.upper word) (EXTRANEOUS_WORDS c)))
              (Py.split s)).
Proof.
  intros Hs. unfold simplify_name, Re.sub.
  rewrite sub_group_none by now apply kept_words_no_paren.
  pose proof (kept_words_good s) as Hgood.
  destruct (filter _ (Py.split s)) as [|w ws] eqn:F; [reflexivity|].
  apply strip_fixed, spaced_join; [exact Hgood|discriminate].
Qed.

End Simplify.

(** X17.  On a name without an opening parenthesis (every name [main]
    passes is one) [simplify_name] returns the words it keeps, joined by
    single spaces, and a second pass changes nothing. *)
Theorem simplify_name_on_plain_names (c : Config) (sanitized_name : str) :
  ~ In "("%char sanitized_name ->
  simplify_name c sanitized_name
  = Py.join " "
      (filter (fun word => negb (str_in (Py.upper word) (EXTRANEOUS_WORDS c)))
              (Py.split sanitized_name))
  /\ simplify_name c (simplify_name c sanitized_name)
     = simplify_name c sanitized_name.
Proof.
  intros Hs. split; [now apply simplify_name_plain|].
  rewrite (simplify_name_plain c sanitized_name Hs).
  rewrite simplify_name_plain by now apply kept_words_no_paren.
  rewrite split_join by apply kept_words_good.
  now rewrite filter_idempotent.
Qed.

Lemma simplify_name_on_plain_names_witness :
  simplify_name (CONFIG 2026) "Heat  COMPLETE 1995"
  = Py.join " "
      (filter (fun word =>
                 negb (str_in (Py.upper word)
                              (EXTRANEOUS_WORDS (CONFIG 2026))))
              (Py.split "Heat  COMPLETE 1995"))
  /\ simplify_name (CONFIG 2026)
       (simplify_name (CONFIG 2026) "Heat  COMPLETE 1995")
     = simplify_name (CONFIG 2026) "Heat  COMPLETE 1995".
Proof.
  apply (simplify_name_on_plain_names (CONFIG 2026) "Heat  COMPLETE 1995").
  simpl. intros H.
  repeat (destruct H as [H|H]; [discriminate H|]). exact H.
Defined.

(** ** A folder the catalogue does not know *)

Lemma str_eqb_neq a b : a <> b -> Py.str_eqb a b = false.
Proof.
  intros H. unfold Py.str_eqb.
  now destruct (list_eq_dec ascii_dec a b).
Qed.

Section Unmatched.

Variables (env : Env) (dry_run : bool).

Hypothesis some_attempt : (1 <= MAX_RETRIES (cfg env))%nat.
Hypothesis nothing_found : forall n query, ia_search_movie env n query = Return [].

Lemma get_movie_details_empty query w :
  get_movie_details env query w
  = (Return (Some []),
     set_world (base_dir w) (stdin w) (S (requests w))
               (trace w ++ [SearchMovie query])).
Proof.
  unfold get_movie_details, retry.
  destruct (MAX_RETRIES (cfg env)) as [|n] eqn:E; [lia|].
  apply wrapper_loop_success.
  unfold get_movie_details_body, try_except, bind, search_movie.
  rewrite nothing_found, firstn_nil. reflexivity.
Qed.

Lemma retry_with_empty folder_path query w :
  retry_with env dry_run folder_path query w
  = (Return false,
     set_world (base_dir w) (stdin w) (S (requests w))
               (trace w ++ [SearchMovie query])).
Proof.
  now rewrite (retry_with_as_fetched _ _ _ _ _ _ _
                 (get_movie_details_empty query w)).
Qed.

Lemma final_fallback_declined folder_path sanitized_name w line rest :
  stdin w = line :: rest ->
  Py.lower (Py.strip line) <> ("yes" : str) ->
  exists evs,
    final_fallback env dry_run folder_path sanitized_name w
    = (Return tt,
       set_world (base_dir w) rest (requests w) (trace w ++ evs))
    /\ renames evs = [].
Proof.
  intros Hin Hno. unfold final_fallback.
  unfold bind at 1. unfold print, emit. unfold bind at 1.
  erewrite input_line by exact Hin. cbv beta iota zeta.
  rewrite (str_eqb_neq _ _ Hno). eexists. split.
  - unfold ret, set_world. cbn [base_dir stdin requests trace].
    rewrite <- app_assoc. reflexivity.
  - reflexivity.
Qed.

Lemma core_title_stage_declined folder_path sanitized_name simplified_name
      w line rest :
  stdin w = line :: rest ->
  Py.lower (Py.strip line) <> ("yes" : str) ->
  exists evs k,
    core_title_stage env dry_run folder_path sanitized_name simplified_name w
    = (Return tt,
       set_world (base_dir w) rest (requests w + k) (trace w ++ evs))
    /\ renames evs = [] /\ (k <= 1)%nat.
Proof.
  intros Hin Hno. unfold core_title_stage. unfold bind at 1.
  destruct (negb (Py.str_eqb (extract_core_title simplified_name)
                             simplified_name)).
  - unfold bind at 1. unfold print, emit. unfold bind at 1.
    unfold logging, emit. rewrite retry_with_empty.
    cbn [base_dir stdin requests trace].
    match goal with
    | |- context [final_fallback _ _ _ _ ?w1] =>
        destruct (final_fallback_declined folder_path sanitized_name w1
                    line rest Hin Hno) as (evs & -> & Hevs)
    end.
    eexists. exists 1%nat. split; [|split; [|lia]].
    + unfold set_world. cbn [base_dir stdin requests trace].
      f_equal. f_equal; [lia|]. rewrite <- !app_assoc. reflexivity.
    + cbn [app renames]. exact Hevs.
  - unfold ret at 1.
    destruct (final_fallback_declined folder_path sanitized_name w
                line rest Hin Hno) as (evs & -> & Hevs).
    exists evs, 0%nat. split; [|split; [exact Hevs|lia]].
    now rewrite Nat.add_0_r.
Qed.

Lemma simplified_stage_declined folder_path sanitized_name w line rest :
  stdin w = line :: rest ->
  Py.lower (Py.strip line) <> ("yes" : str) ->
  exists evs k,
    simplified_stage env dry_run folder_path sanitized_name w
    = (Return tt,
       set_world (base_dir w) rest (requests w + k) (trace w ++ evs))
    /\ renames evs = [] /\ (k <= 2)%nat.
Proof.
  intros Hin Hno. unfold simplified_stage. unfold bind at 1.
  destruct (negb (Py.str_eqb (simplify_name (cfg env) sanitized_name)
                             sanitized_name)).
  - unfold bind at 1. unfold print, emit. unfold bind at 1.
    unfold logging, emit. rewrite retry_with_empty.
    cbn [base_dir stdin requests trace].
    match goal with
    | |- context [core_title_stage _ _ _ _ ?s ?w1] =>
        destruct (core_title_stage_declined folder_path sanitized_name s w1
                    line rest Hin Hno) as (evs & k & -> & Hevs & Hk)
    end.
    eexists. exists (S k). split; [|split; [|lia]].
    + unfold set_world. cbn [base_dir stdin requests trace].
      f_equal. f_equal; [lia|]. rewrite <- !app_assoc. reflexivity.
    + cbn [app renames]. exact Hevs.
  - unfold ret at 1.
    destruct (core_title_stage_declined folder_path sanitized_name
                (simplify_name (cfg env) sanitized_name) w
                line rest Hin Hno) as (evs & k & -> & Hevs & Hk).
    exists evs, k. split; [reflexivity|split; [exact Hevs|lia]].
Qed.

End Unmatched.

(** X18.  A folder that no search finds in the catalogue is left alone:
    when every search comes back empty and the operator does not answer
    [yes] to the offer of a custom name, the loop body returns normally
    after one to three searches, having read that one line and renamed
    nothing. *)
Theorem unmatched_folder_is_left_alone (env : Env) (dry_run : bool)
        (folder : str) (w : World) (entries : list (str * bool))
        (line : str) (rest : list str) :
  (1 <= MAX_RETRIES (cfg env))%nat ->
  (forall n query, ia_search_movie env n query = Return []) ->
  base_dir w = Some entries -> In (folder, true) entries ->
  already_properly_named folder = false ->
  stdin w = line :: rest ->
  Py.lower (Py.strip line) <> ("yes" : str) ->
  exists w',
    process_folder env dry_run folder w = (Return tt, w')
    /\ base_dir w' = base_dir w
    /\ stdin w' = rest
    /\ renames (trace w') = renames (trace w)
    /\ (requests w < requests w' <= requests w + 3)%nat.
Proof.
  intros Hmax Hnone Hb Hin Hn Hline Hno.
  unfold process_folder. unfold bind at 1.
  rewrite (os_path_isdir_dir _ _ _ Hb Hin). cbv [negb]. rewrite Hn.
  do 4 (unfold bind at 1; unfold print, logging, emit).
  unfold bind at 1. rewrite (get_movie_details_empty env Hmax Hnone).
  unfold bind at 1. unfold iterate, ret at 1.
  replace (rank (extract_year (cfg env) folder) []) with (@nil details)
    by now destruct (extract_year (cfg env) folder).
  cbn [base_dir stdin requests trace set_world].
  match goal with
  | |- context [simplified_stage _ _ ?p ?s ?w1] =>
      destruct (simplified_stage_declined env dry_run Hmax Hnone p s w1
                  line rest Hline Hno) as (evs & k & -> & Hevs & Hk)
  end.
  eexists. split; [reflexivity|].
  cbn [base_dir stdin requests trace set_world].
  split; [reflexivity|]. split; [reflexivity|]. split; [|lia].
  rewrite !renames_app, Hevs. cbn [renames]. now rewrite !app_nil_r.
Qed.

Lemma unmatched_folder_is_left_alone_witness :
  exists w',
    process_folder empty_catalogue false "Alien.1979"
                   (Sample.world [("Alien.1979" : str, true)] [("no" : str)])
    = (Return tt, w')
    /\ base_dir w' = Some [("Alien.1979" : str, true)]
    /\ stdin w' = []
    /\ renames (trace w') = renames []
    /\ (0 < requests w' <= 0 + 3)%nat.
Proof.
  apply (unmatched_folder_is_left_alone empty_catalogue false "Alien.1979"
           (Sample.world [("Alien.1979" : str, true)] [("no" : str)])
           [("Alien.1979" : str, true)] ("no" : str) []).
  - simpl. lia.
  - reflexivity.
  - reflexivity.
  - now left.
  - reflexivity.
  - reflexivity.
  - vm_compute. discriminate.
Defined.

(** X19.  With [MAX_RETRIES] set to zero the wrapper returns [None]
    without searching, and the loop body, which iterates over the result,
    ends with [TypeError] at the first folder that needs a lookup; nothing
    has been sent, read or renamed. *)
Theorem zero_retries_break_the_lookup (env : Env) (dry_run : bool)
        (folder : str) (w : World) (entries : list (str * bool)) :
  MAX_RETRIES (cfg env) = 0%nat ->
  base_dir w = Some entries -> In (folder, true) entries ->
  already_properly_named folder = false ->
  exists w',
    process_folder env dry_run folder w
    = (Raise (TypeError "'NoneType' object is not iterable"), w')
    /\ base_dir w' = base_dir w /\ stdin w' = stdin w
    /\ requests w' = requests w
    /\ renames (trace w') = renames (trace w).
Proof.
  intros Hmax Hb Hin Hn.
  unfold process_folder. unfold bind at 1.
  rewrite (os_path_isdir_dir _ _ _ Hb Hin). cbv [negb]. rewrite Hn.
  do 4 (unfold bind at 1; unfold print, logging, emit).
  unfold bind at 1. unfold get_movie_details, retry. rewrite Hmax.
  cbn [wrapper_loop]. unfold ret at 1. unfold bind at 1.
  unfold iterate, raise.
  eexists. split; [reflexivity|].
  cbn [base_dir stdin requests trace].
  split; [reflexivity|]. split; [reflexivity|]. split; [reflexivity|].
  now rewrite !renames_snoc.
Qed.

Lemma zero_retries_break_the_lookup_witness :
  exists w',
    process_folder without_retries false "Alien.1979"
                   (Sample.world [("Alien.1979" : str, true)] [])
    = (Raise (TypeError "'NoneType' object is not iterable"), w')
    /\ base_dir w' = Some [("Alien.1979" : str, true)] /\ stdin w' = []
    /\ requests w' = 0%nat
    /\ renames (trace w') = renames [].
Proof.
  apply (zero_retries_break_the_lookup without_retries false "Alien.1979"
           (Sample.world [("Alien.1979" : str, true)] [])
           [("Alien.1979" : str, true)]).
  - reflexivity.
  - reflexivity.
  - now left.
  - reflexivity.
Defined.

(** * The fallback through a web search *)

Lemma contains_prefix sub s :
  Py.starts_with sub s = true -> Py.contains sub s = true.
Proof. intros H. destruct s; simpl; now rewrite H. Qed.

Lemma contains_mid sub pre rest : Py.contains sub (pre ++ sub ++ rest) = true.
Proof.
  induction pre as [|c pre IH]; simpl.
  - apply contains_prefix, starts_with_app.
  - rewrite IH. apply orb_true_r.
Qed.

(** What a match of [tt\d+] is made of. *)
Lemma imdb_id_pattern_some prev s n :
  imdb_id_pattern prev s = Some n ->
  exists ds,
    firstn n s = "t"%char :: "t"%char :: ds /\ digits ds.
Proof.
  unfold imdb_id_pattern.
  destruct s as [|a [|b rest]]; try discriminate.
  destruct (Ascii.eqb a "t" && Ascii.eqb b "t") eqn:E; [|discriminate].
  apply andb_prop in E. destruct E as [Ha Hb].
  apply Ascii.eqb_eq in Ha, Hb. subst a b.
  destruct (Re.run Py.is_digit rest) as [|k] eqn:R; [discriminate|].
  intros [= <-]. exists (firstn (S k) rest). split; [reflexivity|].
  rewrite <- R. split; [|apply run_firstn].
  apply run_positive. now rewrite R.
Qed.

Lemma search_group0 m s j n :
  Re.search m s = Some (j, n) ->
  m (prev_at None s j) (skipn j s) = Some n
  /\ s = firstn j s ++ Re.group0 s (j, n) ++ skipn n (skipn j s).
Proof.
  unfold Re.search. intros H. apply search_from_some in H.
  destruct H as (k & -> & Hk & _). simpl. split; [exact Hk|].
  unfold Re.group0. simpl. now rewrite !firstn_skipn.
Qed.

Lemma first_imdb_link_found sanitized_name links : forall w imdb_id,
  fst (first_imdb_link sanitized_name links w) = Return (Some imdb_id) ->
  exists href mt,
    In href links
    /\ Py.contains "imdb.com/title/tt" href = true
    /\ Re.search imdb_id_pattern href = Some mt
    /\ imdb_id = Re.group0 href mt.
Proof.
  induction links as [|href rest IH]; intros w imdb_id H;
    cbn [first_imdb_link] in H.
  - discriminate H.
  - destruct (Py.contains "imdb.com/title/tt" href) eqn:C.
    + destruct (Re.search imdb_id_pattern href) as [mt|] eqn:S.
      * unfold bind, logging, emit, ret in H. cbn [fst] in H.
        injection H as <-. exists href, mt.
        split; [now left|]. split; [exact C|]. split; [exact S|reflexivity].
      * destruct (IH _ _ H) as (h & mt & Hin & Hh).
        exists h, mt. split; [now right|exact Hh].
    + destruct (IH _ _ H) as (h & mt & Hin & Hh).
      exists h, mt. split; [now right|exact Hh].
Qed.

Lemma first_imdb_link_requests sanitized_name links : forall w,
  requests (snd (first_imdb_link sanitized_name links w)) = requests w.
Proof.
  induction links as [|href rest IH]; intros w; cbn [first_imdb_link];
    [reflexivity|].
  destruct (Py.contains "imdb.com/title/tt" href); [|apply IH].
  destruct (Re.search imdb_id_pattern href); [reflexivity|apply IH].
Qed.

Lemma fallback_body_requests web sanitized_name w :
  requests (snd (fallback_search_imdb_id_body web sanitized_name w))
  = S (requests w).
Proof.
  unfold fallback_search_imdb_id_body, try_except. unfold bind at 1.
  unfold requests_get.
  destruct (web (requests w) (search_url sanitized_name)) as [resp|e];
    [|reflexivity].
  cbv beta iota zeta.
  destruct (negb (status_code resp =? 200)%Z).
  - reflexivity.
  - pose proof (first_imdb_link_requests sanitized_name (hrefs resp)
                  (set_world (base_dir w) (stdin w) (S (requests w))
                             (trace w))) as H.
    destruct (first_imdb_link _ _ _) as [[r|e] w1]; simpl in *; exact H.
Qed.

Lemma fallback_body_found web sanitized_name w imdb_id :
  fst (fallback_search_imdb_id_body web sanitized_name w)
  = Return (Some imdb_id) ->
  exists response href mt,
    web (requests w) (search_url sanitized_name) = Return response
    /\ status_code response = 200%Z
    /\ In href (hrefs response)
    /\ Py.contains "imdb.com/title/tt" href = true
    /\ Re.search imdb_id_pattern href = Some mt
    /\ imdb_id = Re.group0 href mt.
Proof.
  unfold fallback_search_imdb_id_body, try_except. unfold bind at 1.
  unfold requests_get.
  destruct (web (requests w) (search_url sanitized_name)) as [resp|e];
    [|discriminate].
  cbv beta iota zeta.
  destruct (status_code resp =? 200)%Z eqn:E; [|discriminate].
  apply Z.eqb_eq in E. cbn [negb].
  intros H.
  assert (H' : fst (first_imdb_link sanitized_name (hrefs resp)
                      (set_world (base_dir w) (stdin w) (S (requests w))
                                 (trace w))) = Return (Some imdb_id)).
  { destruct (first_imdb_link _ _ _) as [[r|e] w1]; [exact H|discriminate H]. }
  destruct (first_imdb_link_found _ _ _ _ H') as (href & mt & Hh).
  exists resp, href, mt. split; [reflexivity|]. split; [exact E|exact Hh].
Qed.

(** X20.  An identifier that [fallback_search_imdb_id] returns is [tt]
    followed by one or more digits, and it is the leftmost such text of a
    link that holds [imdb.com/title/tt], on a page that came with status
    200.  The function sends at most [MAX_RETRIES] requests; a page with
    another status is not asked for again: the answer is [None] after one
    request. *)
Theorem fallback_search_imdb_id_result (c : Config) (web : Web)
        (sanitized_name : str) (w : World) :
  (forall imdb_id,
      fst (fallback_search_imdb_id c web sanitized_name w)
      = Return (Some imdb_id) ->
      exists n response href i ds,
        web n (search_url sanitized_name) = Return response
        /\ status_code response = 200%Z
        /\ In href (hrefs response)
        /\ Py.contains "imdb.com/title/tt" href = true
        /\ imdb_id = "t"%char :: "t"%char :: ds /\ digits ds
        /\ href = firstn i href ++ imdb_id
                  ++ skipn (List.length imdb_id) (skipn i href)
        /\ forall j, (j < i)%nat -> matches_at imdb_id_pattern href j = None)
  /\ (requests (snd (fallback_search_imdb_id c web sanitized_name w))
      <= requests w + MAX_RETRIES c)%nat
  /\ (forall response,
         (1 <= MAX_RETRIES c)%nat ->
         web (requests w) (search_url sanitized_name) = Return response ->
         status_code response <> 200%Z ->
         fallback_search_imdb_id c web sanitized_name w
         = (Return None,
            set_world (base_dir w) (stdin w) (S (requests w))
              (trace w
               ++ [Log ERROR
                     ("Failed to fetch Google search page. Status code: "
                      ++ Py.str_of_int (status_code response))]))).
Proof.
  split; [|split].
  - intros imdb_id H. unfold fallback_search_imdb_id in H.
    unfold bind in H.
    destruct (retry _ _ _ _ w) as [[[r|]|e] w1] eqn:R; simpl in H;
      try discriminate H.
    injection H as ->.
    assert (R' : fst (retry (MAX_RETRIES c) (RETRY_DELAY c)
                            "fallback_search_imdb_id"
                            (fallback_search_imdb_id_body web sanitized_name)
                            w) = Return (Some (Some imdb_id)))
      by now rewrite R.
    apply wrapper_loop_some in R'. destruct R' as [w0 R'].
    apply fallback_body_found in R'.
    destruct R' as (resp & href & [i n] & Hweb & Hst & Hin & Hc & Hs & Hid).
    pose proof Hs as Hs'. unfold Re.search in Hs'.
    apply search_from_some in Hs'. destruct Hs' as (k & Hk & Hm & Hfree).
    simpl in Hk. subst k.
    destruct (imdb_id_pattern_some _ _ _ Hm) as (ds & Hds & Hdigits).
    unfold Re.group0 in Hid. simpl in Hid. rewrite Hds in Hid.
    exists (requests w0), resp, href, i, ds.
    repeat (split; [assumption|]).
    split.
    + rewrite Hid, <- Hds.
      replace (List.length (firstn n (skipn i href))) with n.
      * now rewrite !firstn_skipn.
      * apply search_group0 in Hs. destruct Hs as [_ Hs].
        unfold Re.group0 in Hs. simpl in Hs.
        rewrite length_firstn. symmetry. apply Nat.min_l.
        destruct (Nat.le_gt_cases n (List.length (skipn i href)));
          [assumption|].
        exfalso. clear Hs.
        unfold imdb_id_pattern in Hm.
        destruct (skipn i href) as [|a [|b rest]]; try discriminate.
        destruct (Ascii.eqb a "t" && Ascii.eqb b "t"); [|discriminate].
        pose proof (run_le Py.is_digit rest) as Hle.
        destruct (Re.run Py.is_digit rest); [discriminate|].
        injection Hm as <-. simpl in *. lia.
    + intros j Hj. unfold matches_at.
      specialize (Hfree j Hj). destruct j; exact Hfree.
  - unfold fallback_search_imdb_id, bind.
    pose proof (wrapper_loop_requests "fallback_search_imdb_id"
                  (fallback_search_imdb_id_body web sanitized_name)
                  (MAX_RETRIES c) (RETRY_DELAY c)
                  (fallback_body_requests web sanitized_name)
                  (MAX_RETRIES c) 0 w) as H.
    unfold retry.
    destruct (wrapper_loop _ _ _ _ _ _ w) as [[r|e] w1]; exact H.
  - intros resp Hmax Hweb Hst.
    unfold fallback_search_imdb_id, retry. unfold bind.
    destruct (MAX_RETRIES c) as [|k]; [lia|].
    erewrite wrapper_loop_success; [reflexivity|].
    unfold fallback_search_imdb_id_body, try_except. unfold bind at 1.
    unfold requests_get. rewrite Hweb. cbv beta iota zeta.
    replace (status_code resp =? 200)%Z with false
      by (symmetry; now apply Z.eqb_neq).
    reflexivity.
Qed.

Lemma fallback_search_imdb_id_result_witness :
  (exists n response href i ds,
      results_page n (search_url "Heat 1995") = Return response
      /\ status_code response = 200%Z
      /\ In href (hrefs response)
      /\ Py.contains "imdb.com/title/tt" href = true
      /\ ("tt0113277" : str) = "t"%char :: "t"%char :: ds /\ digits ds
      /\ href = firstn i href ++ "tt0113277"
                ++ skipn (List.length ("tt0113277" : str)) (skipn i href)
      /\ forall j, (j < i)%nat -> matches_at imdb_id_pattern href j = None)
  /\ fallback_search_imdb_id (CONFIG 2026)
       (fun _ _ => Return {| status_code := 429; hrefs := [] |})
       "Heat 1995" (Sample.plain_folder [])
     = (Return None,
        set_world (base_dir (Sample.plain_folder []))
          (stdin (Sample.plain_folder []))
          (S (requests (Sample.plain_folder [])))
          (trace (Sample.plain_folder [])
           ++ [Log ERROR
                 ("Failed to fetch Google search page. Status code: "
                  ++ Py.str_of_int 429)])).
Proof.
  split.
  - destruct (fallback_search_imdb_id_result (CONFIG 2026) results_page
                "Heat 1995" (Sample.plain_folder [])) as (H & _ & _).
    apply (H ("tt0113277" : str)). reflexivity.
  - destruct (fallback_search_imdb_id_result (CONFIG 2026)
                (fun _ _ => Return {| status_code := 429; hrefs := [] |})
                "Heat 1995" (Sample.plain_folder [])) as (_ & _ & H).
    apply (H {| status_code := 429; hrefs := [] |}).
    + simpl. lia.
    + reflexivity.
    + simpl. discriminate.
Defined.

(** * From the choice to the next run *)

(** X21.  A rename that the operating system accepts is final: for a
    candidate with a one-line title, a year between 1900 and 2099 and a
    rating that is not negative, [rename_folder] returns normally, the
    entry of the folder in the base directory carries the new name, the
    other entries are as before, and the new name is one that
    [already_properly_named] accepts, so the next run skips the folder. *)
Theorem accepted_rename_is_final (env : Env) (folder : str) (d : details)
        (y : Z) (w : World) (entries : list (str * bool)) :
  let folder_path := os_path_join (BASE_PATH (cfg env)) folder in
  let new_name :=
    safe_name (new_name_of (VStr (title d)) (year d) (rating d)) in
  base_dir w = Some entries ->
  forallb (fun c => negb (is_pathsep c)) folder = true ->
  forallb Py.is_dot (title d) = true ->
  year d = VInt y -> (1900 <= y <= 2099)%Z ->
  nonneg_number (rating d) ->
  os_rename_refused env entries folder_path
    (os_path_join (os_path_dirname folder_path) new_name) = None ->
  exists w',
    rename_folder env folder_path (Candidate d) false w = (Return tt, w')
    /\ base_dir w'
       = Some (map (fun e =>
                      if Py.str_eqb (fst e) folder
                      then (new_name, snd e) else e)
                   entries)
    /\ already_properly_named new_name = true.
Proof.
  cbv zeta. intros Hb Hf Ht Hy Hrange Hr Hok.
  unfold rename_folder, lift, bind, try_except, os_rename. simpl getitem.
  cbv beta iota. rewrite Hb. cbn [get]. rewrite Hok.
  eexists. split; [reflexivity|]. split.
  - cbn [base_dir set_world snd]. unfold print, logging, emit.
    cbn [base_dir set_world].
    rewrite (basename_join _ folder Hf).
    rewrite (basename_join _ _ (safe_name_no_pathsep _)). reflexivity.
  - rewrite Hy. now apply recognised_name.
Qed.

Lemma accepted_rename_is_final_witness :
  exists w',
    rename_folder Sample.catalogue
      (os_path_join (BASE_PATH (cfg Sample.catalogue)) "Heat.1995.1080p")
      (Candidate Sample.heat_1995) false
      (Sample.world [("Heat.1995.1080p" : str, true);
                     ("Alien.1979" : str, true)] [])
    = (Return tt, w')
    /\ base_dir w'
       = Some (map (fun e =>
                      if Py.str_eqb (fst e) "Heat.1995.1080p"
                      then (safe_name
                              (new_name_of (VStr (title Sample.heat_1995))
                                           (year Sample.heat_1995)
                                           (rating Sample.heat_1995)),
                            snd e)
                      else e)
                   [("Heat.1995.1080p" : str, true);
                    ("Alien.1979" : str, true)])
    /\ already_properly_named
         (safe_name (new_name_of (VStr (title Sample.heat_1995))
                                 (year Sample.heat_1995)
                                 (rating Sample.heat_1995))) = true.
Proof.
  apply (accepted_rename_is_final Sample.catalogue "Heat.1995.1080p"
           Sample.heat_1995 1995
           (Sample.world [("Heat.1995.1080p" : str, true);
                          ("Alien.1979" : str, true)] [])
           [("Heat.1995.1080p" : str, true); ("Alien.1979" : str, true)]).
  - reflexivity.
  - reflexivity.
  - reflexivity.
  - reflexivity.
  - lia.
  - simpl. lia.
  - reflexivity.
Defined.

(** X22.  The safe name holds no path separator, so the path that
    [rename_folder] builds from a parent directory and the safe name has
    the safe name as its last component: a title with slashes cannot move
    the folder to another directory.  (The model of [os.path] reads a path
    by its separators; it has no drive letters or UNC prefixes.) *)
Theorem rename_target_is_a_child (parent name : str) :
  forallb (fun c => negb (is_pathsep c)) (safe_name name) = true
  /\ os_path_basename (os_path_join parent (safe_name name)) = safe_name name.
Proof.
  split; [apply safe_name_no_pathsep|].
  apply basename_join, safe_name_no_pathsep.
Qed.

(** * What a run may rename *)

Lemma rw_of_kd {A} ok (c : M A) : keeps_directory c -> renames_within ok c.
Proof.
  intros H w. exists []. rewrite app_nil_r. split; [apply H|constructor].
Qed.

Lemma rw_bind {A B} ok (c : M A) (k : A -> M B) :
  renames_within ok c -> (forall a, renames_within ok (k a)) ->
  renames_within ok (bind c k).
Proof.
  intros Hc Hk w. unfold bind. destruct (Hc w) as (l1 & E1 & F1).
  destruct (c w) as [[a|e] w1]; simpl in *; [|now exists l1].
  destruct (Hk a w1) as (l2 & E2 & F2). exists (l1 ++ l2).
  rewrite E2, E1, app_assoc. split; [reflexivity|now apply Forall_app].
Qed.

Lemma rw_weaken {A} (ok ok' : str * str -> Prop) (c : M A) :
  (forall r, ok r -> ok' r) -> renames_within ok c -> renames_within ok' c.
Proof.
  intros H Hc w. destruct (Hc w) as (l & E & F). exists l.
  split; [exact E|]. eapply Forall_impl; eassumption.
Qed.

Section InPlace.

Variables (env : Env) (dry_run : bool) (folder_path : str).

Lemma rw_rename_folder c :
  renames_within (renames_in_place folder_path)
                 (rename_folder env folder_path c dry_run).
Proof.
  intros w. destruct c as [d|name].
  - destruct (rename_folder_renames env folder_path d dry_run w) as [H|H].
    + exists []. rewrite app_nil_r. split; [exact H|constructor].
    + eexists. split; [exact H|]. constructor; [|constructor].
      split; [reflexivity|]. eexists. reflexivity.
  - exists []. rewrite app_nil_r. split; [reflexivity|constructor].
Qed.

Lemma rw_choose_and_rename choices :
  renames_within (renames_in_place folder_path)
                 (choose_and_rename env dry_run folder_path choices).
Proof.
  unfold choose_and_rename. apply rw_bind.
  - apply rw_of_kd, kd_prompt_user_choice.
  - intros c. apply rw_rename_folder.
Qed.

Ltac rw_step :=
  match goal with
  | |- renames_within _ (bind _ _) => apply rw_bind; [|intros]
  | |- renames_within _ (choose_and_rename _ _ _ _) =>
      apply rw_choose_and_rename
  | |- renames_within _ (if ?b then _ else _) => destruct b
  | |- renames_within _ (match ?x with _ => _ end) => destruct x
  | |- renames_within _ _ => apply rw_of_kd; repeat kd_step
  end.

Lemma rw_retry_with query :
  renames_within (renames_in_place folder_path)
                 (retry_with env dry_run folder_path query).
Proof.
  unfold retry_with, iterate.
  repeat rw_step; auto using kd_get_movie_details.
Qed.

Lemma rw_final_fallback sanitized_name :
  renames_within (renames_in_place folder_path)
                 (final_fallback env dry_run folder_path sanitized_name).
Proof.
  unfold final_fallback.
  apply rw_bind; [apply rw_of_kd, kd_print|intros _].
  apply rw_bind; [apply rw_of_kd, kd_input|intros line].
  destruct (Py.str_eqb _ _); [|apply rw_of_kd, kd_ret].
  apply rw_bind; [apply rw_of_kd, kd_input|intros line'].
  destruct (Py.strip line').
  - apply rw_of_kd. repeat kd_step.
  - apply rw_bind; [apply rw_of_kd, kd_print|intros _].
    apply rw_bind; [apply rw_of_kd, kd_logging|intros _].
    apply rw_bind; [apply rw_retry_with|intros _].
    apply rw_of_kd, kd_ret.
Qed.

Lemma rw_stage (b : bool) msg1 msg2 query :
  renames_within (renames_in_place folder_path)
    (if b then
       print msg1 ;;; logging INFO msg2 ;;;
       retry_with env dry_run folder_path query
     else ret false).
Proof.
  destruct b; [|apply rw_of_kd, kd_ret].
  apply rw_bind; [apply rw_of_kd, kd_print|intros _].
  apply rw_bind; [apply rw_of_kd, kd_logging|intros _].
  apply rw_retry_with.
Qed.

Lemma rw_core_title_stage sanitized_name simplified_name :
  renames_within (renames_in_place folder_path)
    (core_title_stage env dry_run folder_path sanitized_name simplified_name).
Proof.
  unfold core_title_stage. apply rw_bind; [apply rw_stage|].
  intros [|]; [apply rw_of_kd, kd_ret|apply rw_final_fallback].
Qed.

Lemma rw_simplified_stage sanitized_name :
  renames_within (renames_in_place folder_path)
    (simplified_stage env dry_run folder_path sanitized_name).
Proof.
  unfold simplified_stage. apply rw_bind; [apply rw_stage|].
  intros [|]; [apply rw_of_kd, kd_ret|apply rw_core_title_stage].
Qed.

End InPlace.

Lemma rw_process_folder env dry_run folder :
  renames_within
    (renames_in_place (os_path_join (BASE_PATH (cfg env)) folder))
    (process_folder env dry_run folder).
Proof.
  unfold process_folder.
  apply rw_bind; [apply rw_of_kd, kd_isdir|intros isdir].
  destruct (negb isdir); [apply rw_of_kd, kd_ret|].
  destruct (already_properly_named folder); [apply rw_of_kd, kd_logging|].
  apply rw_bind; [apply rw_of_kd, kd_print|intros _].
  apply rw_bind; [apply rw_of_kd, kd_logging|intros _].
  apply rw_bind; [apply rw_of_kd, kd_print|intros _].
  apply rw_bind; [apply rw_of_kd, kd_logging|intros _].
  apply rw_bind; [apply rw_of_kd, kd_get_movie_details|intros results].
  apply rw_bind;
    [apply rw_of_kd; unfold iterate; destruct results;
     [apply kd_ret|apply kd_raise]|intros choices].
  destruct (rank _ choices);
    [apply rw_simplified_stage|apply rw_choose_and_rename].
Qed.

Lemma rw_main_loop env dry_run folders :
  renames_within
    (fun r => exists folder,
         In folder folders
         /\ renames_in_place (os_path_join (BASE_PATH (cfg env)) folder) r)
    (main_loop env dry_run folders).
Proof.
  induction folders as [|folder rest IH]; simpl.
  - apply rw_of_kd, kd_ret.
  - apply rw_bind.
    + eapply rw_weaken; [|apply rw_process_folder].
      intros r Hr. exists folder. split; [now left|exact Hr].
    + intros _. eapply rw_weaken; [|exact IH].
      intros r (f & Hf & Hr). exists f. split; [now right|exact Hr].
Qed.

(** X23.  Whatever a run renames, it renames in place: every rename that
    [main] asks of the operating system has as its source the path of an
    entry listed in the base directory at the start, and as its target a
    safe name joined to the parent directory of that source. *)
Theorem main_renames_listed_folders_in_place (env : Env) (dry_run : bool)
        (w : World) :
  exists l,
    renames (trace (snd (main env dry_run w))) = renames (trace w) ++ l
    /\ Forall (fun r =>
                 exists folder,
                   In folder (map fst (get (base_dir w) []))
                   /\ renames_in_place
                        (os_path_join (BASE_PATH (cfg env)) folder) r)
              l.
Proof.
  unfold main. destruct (base_dir w) as [entries|] eqn:E.
  - apply rw_main_loop.
  - exists []. rewrite app_nil_r. split; [|constructor].
    unfold bind, print, logging, emit. cbn [snd trace].
    now rewrite !renames_snoc.
Qed.
